(** * Provisioning orchestrator and environment validator

    A shallow embedding of [scripts/k3d_bootstrap.sh] (module [Bootstrap])
    and of [libs/common/src/config/env.validation.ts] (module
    [EnvValidation]), with the properties of the orchestrator specification
    stated and settled against them.

    The shell script is embedded as state-passing commands over a record
    holding the part of the machine the script can observe or change
    (clusters, the handle file, live processes, shell variables, the EXIT
    trap) together with a trace of what the script did.  External tools
    (k3d, kubectl, helm, sleep) are not part of the repository: whether a
    given invocation succeeds, fails or is cut short by a signal is read from
    an oracle in the environment, so every theorem quantified over the
    environment covers every behaviour of the tools. *)

From Stdlib Require Import List Ascii String Arith ZArith Bool Lia.
Import ListNotations.
Open Scope string_scope.

Module Bootstrap.

(** ** Configuration (script lines 9-12) *)

Definition CLUSTER_NAME : string := "ca-dev".
Definition ARGOCD_VERSION : string := "v2.11.0".
Definition NGINX_VERSION : string := "v1.10.0".
Definition KEDA_VERSION : string := "v2.12.0".

(** The fixed path of the handle file used by [install_argocd] and
    [cleanup]. *)
Definition pid_file_path : string := "/tmp/argocd-port-forward.pid".

(** ** Data *)

(** The functions the script defines. *)
Inductive Fn : Type :=
| fn_check_prerequisites
| fn_create_cluster
| fn_install_ingress_nginx
| fn_install_keda
| fn_install_argocd
| fn_deploy_application
| fn_display_info
| fn_cleanup
| fn_main.

Inductive Level : Type := INFO | SUCCESS | WARNING | ERROR.

(** External command lines, with the arguments the script passes. *)
Inductive Cmd : Type :=
| K3dClusterList
| K3dClusterDelete (name : string)
| K3dClusterCreate (name : string) (ports k3s_args : list string)
                   (agents : nat) (wait : bool)
| KubectlConfigUseContext (ctx : string)
| HelmRepoAdd (name url : string)
| HelmRepoUpdate
| HelmUpgradeInstall (release chart namespace version : string)
                     (create_namespace : bool)
                     (sets : list (string * string))
                     (wait : bool) (timeout : option nat)
| KubectlCreateNamespaceDryRun (ns : string)
| KubectlApplyStdin
| KubectlApply (ns : option string) (file : string)
| KubectlWait (condition : string) (timeout : nat) (resource ns : string)
| KubectlGetSecret (ns name jsonpath : string)
| KubectlPortForward (target ns : string) (ports : string)
| Sleep (seconds : nat).

(** What an invocation of an external command does.  [Interrupted]: a
    terminating signal (INT, TERM, HUP) reaches the script while the command
    runs, and bash leaves, running the EXIT trap on its way out.  Signals
    that cannot be caught, and signals that arrive while the trap itself
    runs, are outside the model. *)
Inductive Outcome : Type := Succeeds | Fails | Interrupted.

(** Text held by the handle file or by the variable [PID]: a decimal
    process identifier, or anything else. *)
Inductive FileText : Type :=
| PidText (pid : nat)
| OtherText (s : string).

Inductive Event : Type :=
| Enter (f : Fn)
| Log (l : Level) (msg : string)
| Echo (line : string)
| Ran (t : nat) (c : Cmd) (o : Outcome)
| Spawned (pid : nat) (c : Cmd)
| Wrote (path : string) (text : FileText)
| Killed (pid : nat)
| Removed (path : string)
| TrapSet (f : Fn).

(** How a command ends: with a status, by [return n] inside a function, by
    leaving the shell ([exit n], or [set -e] after a failed command), or by a
    terminating signal. *)
Inductive Res : Type :=
| Status (n : nat)
| Return (n : nat)
| Exit (n : nat)
| Signalled.

(** What the script cannot change during a run. *)
Record Env : Type := mkEnv {
  on_path : string -> bool;             (* [command -v tool] *)
  oracle : nat -> Cmd -> Outcome;       (* command issued at logical time t *)
  other_files : string -> bool;         (* [-f path] for the other paths *)
  secret_at : nat -> option string      (* admin secret visible at time t *)
}.

(** The machine state.  [clock] counts the external commands issued so far
    and stamps cluster creation. *)
Record St : Type := mkSt {
  clock : nat;
  clusters : list (string * nat);       (* name, creation time *)
  kube_context : option string;
  pid_file : option FileText;           (* None: no handle file *)
  procs : list nat;                     (* live process identifiers *)
  ARGOCD_PASSWORD : string;
  ARGOCD_PF_PID : nat;
  PID : FileText;
  trap_exit : option Fn;
  trace : list Event
}.

Definition Sh : Type := Env -> St -> Res * St.

(** *** Field updates *)

Definition set_clock (v : nat) (s : St) : St :=
  mkSt v (clusters s) (kube_context s) (pid_file s) (procs s)
       (ARGOCD_PASSWORD s) (ARGOCD_PF_PID s) (PID s) (trap_exit s) (trace s).
Definition set_clusters (v : list (string * nat)) (s : St) : St :=
  mkSt (clock s) v (kube_context s) (pid_file s) (procs s)
       (ARGOCD_PASSWORD s) (ARGOCD_PF_PID s) (PID s) (trap_exit s) (trace s).
Definition set_kube_context (v : option string) (s : St) : St :=
  mkSt (clock s) (clusters s) v (pid_file s) (procs s)
       (ARGOCD_PASSWORD s) (ARGOCD_PF_PID s) (PID s) (trap_exit s) (trace s).
Definition set_pid_file (v : option FileText) (s : St) : St :=
  mkSt (clock s) (clusters s) (kube_context s) v (procs s)
       (ARGOCD_PASSWORD s) (ARGOCD_PF_PID s) (PID s) (trap_exit s) (trace s).
Definition set_procs (v : list nat) (s : St) : St :=
  mkSt (clock s) (clusters s) (kube_context s) (pid_file s) v
       (ARGOCD_PASSWORD s) (ARGOCD_PF_PID s) (PID s) (trap_exit s) (trace s).
Definition set_ARGOCD_PASSWORD (v : string) (s : St) : St :=
  mkSt (clock s) (clusters s) (kube_context s) (pid_file s) (procs s)
       v (ARGOCD_PF_PID s) (PID s) (trap_exit s) (trace s).
Definition set_ARGOCD_PF_PID (v : nat) (s : St) : St :=
  mkSt (clock s) (clusters s) (kube_context s) (pid_file s) (procs s)
       (ARGOCD_PASSWORD s) v (PID s) (trap_exit s) (trace s).
Definition set_PID (v : FileText) (s : St) : St :=
  mkSt (clock s) (clusters s) (kube_context s) (pid_file s) (procs s)
       (ARGOCD_PASSWORD s) (ARGOCD_PF_PID s) v (trap_exit s) (trace s).
Definition set_trap_exit (v : option Fn) (s : St) : St :=
  mkSt (clock s) (clusters s) (kube_context s) (pid_file s) (procs s)
       (ARGOCD_PASSWORD s) (ARGOCD_PF_PID s) (PID s) v (trace s).
Definition emit (ev : Event) (s : St) : St :=
  mkSt (clock s) (clusters s) (kube_context s) (pid_file s) (procs s)
       (ARGOCD_PASSWORD s) (ARGOCD_PF_PID s) (PID s) (trap_exit s)
       (trace s ++ [ev]).

(** ** Shell control structure *)

Definition skip : Sh := fun _ s => (Status 0, s).

(** [c1 ; c2]: the second command runs when the first ended with a status. *)
Definition seq (c1 c2 : Sh) : Sh := fun e s =>
  match c1 e s with
  | (Status _, s1) => c2 e s1
  | r => r
  end.

Notation "c1 ;; c2" := (seq c1 c2) (at level 61, right associativity).

(** [set -e] (line 6): a command in statement position that ends with a
    non-zero status leaves the shell with that status. *)
Definition errexit (c : Sh) : Sh := fun e s =>
  match c e s with
  | (Status (S n), s1) => (Exit (S n), s1)
  | r => r
  end.

(** [if c; then a; else b; fi].  The status of the condition is exempt from
    [set -e]. *)
Definition if_then_else (c a b : Sh) : Sh := fun e s =>
  match c e s with
  | (Status 0, s1) => a e s1
  | (Status (S _), s1) => b e s1
  | r => r
  end.

Definition if_then (c a : Sh) : Sh := if_then_else c a skip.

(** [! c] *)
Definition bang (c : Sh) : Sh := fun e s =>
  match c e s with
  | (Status 0, s1) => (Status 1, s1)
  | (Status (S _), s1) => (Status 0, s1)
  | r => r
  end.

(** [c1 | c2] without [pipefail]: the status is that of [c2]. *)
Definition pipe (c1 c2 : Sh) : Sh := fun e s =>
  match c1 e s with
  | (Status _, s1) => c2 e s1
  | r => r
  end.

Definition exit_with (n : nat) : Sh := fun _ s => (Exit n, s).
Definition return_with (n : nat) : Sh := fun _ s => (Return n, s).

(** Calling the function [f] whose body is [body]; [return] ends the call. *)
Definition call (f : Fn) (body : Sh) : Sh := fun e s =>
  match body e (emit (Enter f) s) with
  | (Return n, s1) => (Status n, s1)
  | r => r
  end.

(** A command whose text expands variables of the current shell state. *)
Definition with_st (c : St -> Sh) : Sh := fun e s => c s e s.

(** [trap f EXIT] *)
Definition trap_EXIT (f : Fn) : Sh := fun _ s =>
  (Status 0, emit (TrapSet f) (set_trap_exit (Some f) s)).

(** ** Builtins and external commands *)

(** Lines 22-36: the logging functions print one line and succeed. *)
Definition log (l : Level) (msg : string) : Sh := fun _ s =>
  (Status 0, emit (Log l msg) s).
Definition log_info := log INFO.
Definition log_success := log SUCCESS.
Definition log_warning := log WARNING.
Definition log_error := log ERROR.

Definition echo (line : string) : Sh := fun _ s =>
  (Status 0, emit (Echo line) s).

(** [command -v tool &> /dev/null] *)
Definition command_v (tool : string) : Sh := fun e s =>
  (Status (if on_path e tool then 0 else 1), s).

Definition file_exists (e : Env) (s : St) (path : string) : bool :=
  if String.eqb path pid_file_path
  then match pid_file s with Some _ => true | None => false end
  else other_files e path.

(** [[ -f path ]] *)
Definition test_f (path : string) : Sh := fun e s =>
  (Status (if file_exists e s path then 0 else 1), s).

(** An external command in the foreground.  The oracle decides how it ends;
    [feasible] is what the machine state itself allows (a command that the
    tool must refuse fails whatever the oracle says); [effect] is applied
    when it succeeds. *)
Definition outcome_of (e : Env) (s : St) (feasible : bool) (c : Cmd) : Outcome :=
  match oracle e (clock s) c with
  | Succeeds => if feasible then Succeeds else Fails
  | o => o
  end.

Definition ext_with (feasible : St -> bool) (effect : St -> St) (c : Cmd) : Sh :=
  fun e s =>
    let o := outcome_of e s (feasible s) c in
    let s1 := emit (Ran (clock s) c o) (set_clock (S (clock s)) s) in
    match o with
    | Succeeds => (Status 0, effect s1)
    | Fails => (Status 1, s1)
    | Interrupted => (Signalled, s1)
    end.

Definition ext (c : Cmd) : Sh := ext_with (fun _ => true) (fun s => s) c.

(** [contains pat s]: [pat] occurs in [s] ([grep] on one line). *)
Fixpoint contains (pat s : string) : bool :=
  if String.prefix pat s then true
  else match s with
       | EmptyString => false
       | String _ s' => contains pat s'
       end.

(** [k3d cluster list | grep -q pat].  The listing has one line per cluster
    that starts with its name (the other columns are counts and booleans);
    a failed listing prints nothing, so [grep] finds nothing. *)
Definition k3d_cluster_list_grep_q (pat : string) : Sh := fun e s =>
  let o := outcome_of e s true K3dClusterList in
  let s1 := emit (Ran (clock s) K3dClusterList o) (set_clock (S (clock s)) s) in
  match o with
  | Succeeds =>
      (Status (if existsb (fun c => contains pat (fst c)) (clusters s) then 0 else 1), s1)
  | Fails => (Status 1, s1)
  | Interrupted => (Signalled, s1)
  end.

Definition named (name : string) (c : string * nat) : bool :=
  String.eqb name (fst c).

(** [k3d cluster delete name]: removes the cluster of that name. *)
Definition k3d_cluster_delete (name : string) : Sh :=
  ext_with (fun _ => true)
           (fun s => set_clusters (filter (fun c => negb (named name c)) (clusters s)) s)
           (K3dClusterDelete name).

(** [k3d cluster create name ... --wait]: refused when a cluster of that
    name exists; otherwise the new cluster is stamped with the time at
    which the command returned. *)
Definition k3d_cluster_create (name : string) (ports k3s_args : list string)
           (agents : nat) (wait : bool) : Sh :=
  ext_with (fun s => negb (existsb (named name) (clusters s)))
           (fun s => set_clusters (clusters s ++ [(name, clock s)]) s)
           (K3dClusterCreate name ports k3s_args agents wait).

(** [kubectl config use-context ctx] *)
Definition kubectl_config_use_context (ctx : string) : Sh :=
  ext_with (fun _ => true) (set_kube_context (Some ctx))
           (KubectlConfigUseContext ctx).

Definition alive (s : St) (p : nat) : bool := existsb (Nat.eqb p) (procs s).

Definition fresh_pid (running : list nat) : nat := S (list_max running).

(** [c > /dev/null 2>&1 &] followed by [ARGOCD_PF_PID=$!]: the job is
    started in the background under a new process identifier. *)
Definition spawn_ARGOCD_PF_PID (c : Cmd) : Sh := fun _ s =>
  let p := fresh_pid (procs s) in
  (Status 0, emit (Spawned p c) (set_ARGOCD_PF_PID p (set_procs (p :: procs s) s))).

(** [echo "${ARGOCD_PF_PID}" > /tmp/argocd-port-forward.pid] *)
Definition write_pid_file : Sh := fun _ s =>
  let text := PidText (ARGOCD_PF_PID s) in
  (Status 0, emit (Wrote pid_file_path text) (set_pid_file (Some text) s)).

(** [PID=$(cat /tmp/argocd-port-forward.pid)] *)
Definition read_PID : Sh := fun _ s =>
  match pid_file s with
  | Some text => (Status 0, set_PID text s)
  | None => (Status 1, set_PID (OtherText "") s)
  end.

(** [kill -0 "$PID" 2>/dev/null], for a handle text that is the identifier
    of one process ([PidText], above 0) or a word that [kill] rejects
    ([OtherText]).  What [kill] makes of other texts is in [kill_reads]
    below. *)
Definition kill_0_PID : Sh := fun _ s =>
  match PID s with
  | PidText p => (Status (if alive s p then 0 else 1), s)
  | OtherText _ => (Status 1, s)
  end.

(** [kill "$PID"]: the termination signal ends the process. *)
Definition kill_PID : Sh := fun _ s =>
  match PID s with
  | PidText p =>
      if alive s p
      then (Status 0, emit (Killed p)
                           (set_procs (filter (fun q => negb (Nat.eqb p q)) (procs s)) s))
      else (Status 1, s)
  | OtherText _ => (Status 1, s)
  end.

(** [rm -f /tmp/argocd-port-forward.pid] *)
Definition rm_f_pid_file : Sh := fun _ s =>
  (Status 0, emit (Removed pid_file_path) (set_pid_file None s)).

(** *** What [kill] makes of the handle text

    Line 150 is the only place that writes the handle file, and it writes
    the identifier of a process just started, a number above 0.  [kill]
    itself reads more than that in its operand: the number 0 is the process
    group of the caller, a negative number another group, a word that
    starts with [-] an option or a signal, a word that starts with [%] a
    job. *)
Inductive Operand : Type :=
| ToProcess (pid : nat)      (* a number above 0: that process *)
| ToOwnGroup                 (* 0: every process in the group of the shell *)
| NoOperand.                 (* "arguments must be process or job IDs" *)

(** A character with which a number (blank, sign, digit), an option or a job
    specification can start. *)
Definition starts_operand (c : Ascii.ascii) : bool :=
  let n := Ascii.nat_of_ascii c in
  (Nat.leb 9 n && Nat.leb n 13) || Nat.eqb n 32
  || Nat.eqb n 43 || Nat.eqb n 45 || Nat.eqb n 37
  || (Nat.leb 48 n && Nat.leb n 57).

(** A word that [kill] rejects whatever follows its first character. *)
Definition rejected (w : string) : bool :=
  match w with
  | EmptyString => true
  | String c _ => negb (starts_operand c)
  end.

(** [None]: a word that [kill] may read as a number, an option or a job
    specification; what it does then is not modelled. *)
Definition kill_reads (t : FileText) : option Operand :=
  match t with
  | PidText 0 => Some ToOwnGroup
  | PidText (S p) => Some (ToProcess (S p))
  | OtherText w => if rejected w then Some NoOperand else None
  end.

(** [ARGOCD_PASSWORD=$(kubectl -n argocd get secret ... | base64 -d)] (line
    140).  [kubectl] prints the base64 text of the password and [base64 -d]
    undoes that encoding, so the model keeps the decoded value, [secret_at]
    being that value as the command substitution hands it on (without
    trailing newlines).  When the secret cannot be read [kubectl] prints
    nothing, [base64 -d] decodes the empty input, and the assignment takes
    the status of [base64]: success. *)
Definition kubectl_get_admin_secret : Cmd :=
  KubectlGetSecret "argocd" "argocd-initial-admin-secret" "{.data.password}".

Definition assign_ARGOCD_PASSWORD : Sh := fun e s =>
  let present := match secret_at e (clock s) with Some _ => true | None => false end in
  let o := outcome_of e s present kubectl_get_admin_secret in
  let s1 := emit (Ran (clock s) kubectl_get_admin_secret o) (set_clock (S (clock s)) s) in
  match o with
  | Succeeds =>
      (Status 0, set_ARGOCD_PASSWORD
                   (match secret_at e (clock s) with Some v => v | None => "" end) s1)
  | Fails => (Status 0, set_ARGOCD_PASSWORD "" s1)
  | Interrupted => (Signalled, s1)
  end.

(** ** The script's functions *)

(** Lines 39-58. *)
Definition check_prerequisites : Sh :=
  log_info "Checking prerequisites..." ;;
  if_then (bang (command_v "k3d"))
    (log_error "k3d is not installed. Please install k3d first." ;;
     exit_with 1) ;;
  if_then (bang (command_v "kubectl"))
    (log_error "kubectl is not installed. Please install kubectl first." ;;
     exit_with 1) ;;
  if_then (bang (command_v "helm"))
    (log_error "helm is not installed. Please install helm first." ;;
     exit_with 1) ;;
  log_success "All prerequisites are installed".

Definition k3d_create_ports : list string :=
  ["80:80@loadbalancer"; "443:443@loadbalancer"; "8080:8080@loadbalancer"].
Definition k3d_create_k3s_args : list string := ["--disable=traefik@server:0"].

Definition k3d_create_cmd : Cmd :=
  K3dClusterCreate CLUSTER_NAME k3d_create_ports k3d_create_k3s_args 2 true.

(** Lines 61-83. *)
Definition create_cluster : Sh :=
  log_info ("Creating k3d cluster: " ++ CLUSTER_NAME ++ "...") ;;
  if_then (k3d_cluster_list_grep_q CLUSTER_NAME)
    (log_warning ("Cluster " ++ CLUSTER_NAME ++ " already exists. Deleting it first...") ;;
     errexit (k3d_cluster_delete CLUSTER_NAME)) ;;
  errexit (k3d_cluster_create CLUSTER_NAME k3d_create_ports k3d_create_k3s_args 2 true) ;;
  errexit (kubectl_config_use_context ("k3d-" ++ CLUSTER_NAME)) ;;
  log_success ("k3d cluster " ++ CLUSTER_NAME ++ " created successfully").

Definition helm_install_ingress_nginx : Cmd :=
  HelmUpgradeInstall "ingress-nginx" "ingress-nginx/ingress-nginx" "ingress-nginx"
    NGINX_VERSION true
    [("controller.service.type", "LoadBalancer");
     ("controller.service.loadBalancerIP", "");
     ("controller.watchIngressWithoutClass", "true");
     ("controller.service.externalTrafficPolicy", "Local")]
    true None.

(** Lines 86-105. *)
Definition install_ingress_nginx : Sh :=
  log_info ("Installing Ingress-NGINX " ++ NGINX_VERSION ++ "...") ;;
  errexit (ext (HelmRepoAdd "ingress-nginx" "https://kubernetes.github.io/ingress-nginx")) ;;
  errexit (ext HelmRepoUpdate) ;;
  errexit (ext helm_install_ingress_nginx) ;;
  log_success "Ingress-NGINX installed successfully".

Definition helm_install_keda : Cmd :=
  HelmUpgradeInstall "keda" "kedacore/keda" "keda-system" KEDA_VERSION true [] true None.

(** Lines 108-123. *)
Definition install_keda : Sh :=
  log_info ("Installing KEDA " ++ KEDA_VERSION ++ "...") ;;
  errexit (ext (HelmRepoAdd "kedacore" "https://kedacore.github.io/charts")) ;;
  errexit (ext HelmRepoUpdate) ;;
  errexit (ext helm_install_keda) ;;
  log_success "KEDA installed successfully".

Definition kubectl_apply_argocd : Cmd :=
  KubectlApply (Some "argocd")
    ("https://raw.githubusercontent.com/argoproj/argo-cd/" ++ ARGOCD_VERSION
       ++ "/manifests/install.yaml").

Definition kubectl_wait_argocd : Cmd :=
  KubectlWait "available" 300 "deployment/argocd-server" "argocd".

Definition kubectl_port_forward_argocd : Cmd :=
  KubectlPortForward "svc/argocd-server" "argocd" "8080:443".

(** Lines 126-153. *)
Definition install_argocd : Sh :=
  log_info ("Installing ArgoCD " ++ ARGOCD_VERSION ++ "...") ;;
  errexit (pipe (ext (KubectlCreateNamespaceDryRun "argocd")) (ext KubectlApplyStdin)) ;;
  errexit (ext kubectl_apply_argocd) ;;
  log_info "Waiting for ArgoCD to be ready..." ;;
  errexit (ext kubectl_wait_argocd) ;;
  assign_ARGOCD_PASSWORD ;;
  log_success "ArgoCD installed successfully" ;;
  with_st (fun s => log_info ("ArgoCD admin password: " ++ ARGOCD_PASSWORD s)) ;;
  log_info "Setting up port forwarding for ArgoCD (localhost:8080)..." ;;
  spawn_ARGOCD_PF_PID kubectl_port_forward_argocd ;;
  write_pid_file ;;
  log_info "ArgoCD will be available at https://localhost:8080" ;;
  log_info "Port forward PID saved to /tmp/argocd-port-forward.pid".

Definition app_manifest : string := "deploy/argocd/app.yaml".

Definition kubectl_apply_app : Cmd := KubectlApply None app_manifest.

(** Lines 156-177. *)
Definition deploy_application : Sh :=
  log_info "Deploying ContractAnalyzer application..." ;;
  errexit (pipe (ext (KubectlCreateNamespaceDryRun "contract-analyzer"))
                (ext KubectlApplyStdin)) ;;
  if_then_else (test_f app_manifest)
    (errexit (ext kubectl_apply_app) ;;
     log_success "ContractAnalyzer ArgoCD application created")
    (log_error "ArgoCD application file not found: deploy/argocd/app.yaml" ;;
     log_warning "Please ensure you're running this script from the project root directory" ;;
     return_with 1) ;;
  log_info "Waiting for application to sync (this may take a few minutes)..." ;;
  errexit (ext (Sleep 30)) ;;
  log_success "ContractAnalyzer application deployed successfully".

(** The line of [display_info] that shows the credential (line 193). *)
Definition password_line (password : string) : string :=
  "  â€¢ ArgoCD Password: " ++ password.

(** Lines 180-202. *)
Definition display_info : Sh :=
  log_success "ðŸŽ‰ k3d cluster setup completed successfully!" ;;
  echo "" ;;
  log_info "Cluster Information:" ;;
  echo ("  â€¢ Cluster Name: " ++ CLUSTER_NAME) ;;
  echo ("  â€¢ Kubectl Context: k3d-" ++ CLUSTER_NAME) ;;
  echo "  â€¢ Ingress-NGINX: Installed" ;;
  echo "  â€¢ KEDA: Installed" ;;
  echo "  â€¢ ArgoCD: Installed" ;;
  echo "" ;;
  log_info "Access Information:" ;;
  echo "  â€¢ ArgoCD UI: https://localhost:8080" ;;
  echo "  â€¢ ArgoCD Username: admin" ;;
  with_st (fun s => echo (password_line (ARGOCD_PASSWORD s))) ;;
  echo "" ;;
  log_info "Useful Commands:" ;;
  echo "  â€¢ View cluster: k3d cluster list" ;;
  echo ("  â€¢ Delete cluster: k3d cluster delete " ++ CLUSTER_NAME) ;;
  echo "  â€¢ Stop port forward: kill $(cat /tmp/argocd-port-forward.pid)" ;;
  echo "  â€¢ View ArgoCD apps: kubectl get applications -n argocd" ;;
  echo "  â€¢ View pods: kubectl get pods -n contract-analyzer" ;;
  echo "".

(** Lines 205-213. *)
Definition cleanup : Sh :=
  if_then (test_f pid_file_path)
    (errexit read_PID ;;
     if_then kill_0_PID
       (errexit kill_PID ;;
        errexit rm_f_pid_file)).

(** Lines 205-213 once more, with what [kill] makes of the handle text
    where [kill_reads] tells.  [same_group q]: the process [q] is in the
    process group of the shell.  With the text 0, [kill -0 0] succeeds (the
    group of the caller is never empty) and [kill 0] sends the termination
    signal to every process of that group, the shell included: bash leaves
    at once, and line 210 is not reached. *)
Definition cleanup_read (same_group : nat -> bool) (e : Env) (s : St)
  : option (Res * St) :=
  match pid_file s with
  | None => Some (Status 0, s)                                  (* line 206 *)
  | Some t =>
      let s1 := set_PID t s in                                   (* line 207 *)
      match kill_reads t with
      | None => None
      | Some NoOperand => Some (Status 0, s1)                    (* line 208 *)
      | Some (ToProcess p) =>
          if alive s1 p                                          (* line 208 *)
          then Some (Status 0,
                     emit (Removed pid_file_path)                (* line 210 *)
                       (set_pid_file None
                          (emit (Killed p)                       (* line 209 *)
                             (set_procs
                                (filter (fun q => negb (Nat.eqb p q)) (procs s1))
                                s1))))
          else Some (Status 0, s1)
      | Some ToOwnGroup =>
          Some (Signalled,
                emit (Killed 0)                                  (* line 209 *)
                  (set_procs (filter (fun q => negb (same_group q)) (procs s1))
                     s1))
      end
  end.

(** Lines 219-231. *)
Definition main : Sh :=
  log_info "ðŸš€ Starting k3d bootstrap for ContractAnalyzer..." ;;
  errexit (call fn_check_prerequisites check_prerequisites) ;;
  errexit (call fn_create_cluster create_cluster) ;;
  errexit (call fn_install_ingress_nginx install_ingress_nginx) ;;
  errexit (call fn_install_keda install_keda) ;;
  errexit (call fn_install_argocd install_argocd) ;;
  errexit (call fn_deploy_application deploy_application) ;;
  errexit (call fn_display_info display_info) ;;
  log_success "Bootstrap completed! ðŸŽ‰".

(** The function a name stands for, as the shell resolves it when a trap
    fires. *)
Definition body_of (f : Fn) : Sh :=
  match f with
  | fn_check_prerequisites => check_prerequisites
  | fn_create_cluster => create_cluster
  | fn_install_ingress_nginx => install_ingress_nginx
  | fn_install_keda => install_keda
  | fn_install_argocd => install_argocd
  | fn_deploy_application => deploy_application
  | fn_display_info => display_info
  | fn_cleanup => cleanup
  | fn_main => main
  end.

(** A function called by name in statement position. *)
Definition invoke (f : Fn) : Sh := errexit (call f (body_of f)).

(** The top level of the script: line 216, then line 234. *)
Definition script : Sh :=
  trap_EXIT fn_cleanup ;;
  invoke fn_main.

(** The exit status of the shell.  A terminating signal is reported as
    128 + 15. *)
Definition exit_status (r : Res) : nat :=
  match r with
  | Status n | Return n | Exit n => n
  | Signalled => 143
  end.

(** The shell leaving, whatever the reason: the EXIT trap, when one is set,
    runs once (the trap is reset before its command runs), then the process
    ends.  A trap command that itself leaves the shell decides the exit
    status. *)
Definition shell_exit (r : Res) : Env -> St -> nat * St := fun e s =>
  match trap_exit s with
  | Some f =>
      match call f (body_of f) e (set_trap_exit None s) with
      | (Exit n, s1) => (n, s1)
      | (_, s1) => (exit_status r, s1)
      end
  | None => (exit_status r, s)
  end.

(** One run of the script, from a state of the machine to the exit status
    and the state left behind. *)
Definition run_script (e : Env) (s : St) : nat * St :=
  let (r, s1) := script e s in shell_exit r e s1.

(** The machine as a new shell finds it. *)
Record World : Type := mkWorld {
  w_clock : nat;
  w_clusters : list (string * nat);
  w_kube_context : option string;
  w_pid_file : option FileText;
  w_procs : list nat
}.

Definition boot (w : World) : St :=
  mkSt (w_clock w) (w_clusters w) (w_kube_context w) (w_pid_file w) (w_procs w)
       "" 0 (OtherText "") None [].

End Bootstrap.

(** * The environment validator

    [validateEnvironment] (env.validation.ts, lines 164-192) is a thin
    wrapper around two packages that are not part of the repository,
    class-transformer ([plainToClass]) and class-validator ([validateSync]).
    Their behaviour is modelled here as their documentation gives it for the
    options the wrapper passes; what a single decorator accepts is kept, but
    the URL check of [IsUrl] is a parameter. *)

Module EnvValidation.

Inductive Value : Type :=
| VUndefined
| VString (s : string)
| VNumber (n : Z)
| VNaN.

(** A plain object or a class instance: its own enumerable properties, in
    insertion order. *)
Definition Obj : Type := list (string * Value).

Definition keys (o : Obj) : list string := map fst o.

Fixpoint get (o : Obj) (k : string) : Value :=
  match o with
  | [] => VUndefined
  | (k', v) :: o' => if String.eqb k k' then v else get o' k
  end.

(** [o[k] = v] *)
Fixpoint put (o : Obj) (k : string) (v : Value) : Obj :=
  match o with
  | [] => [(k, v)]
  | (k', v') :: o' => if String.eqb k k' then (k', v) :: o' else (k', v') :: put o' k v
  end.

Inductive Decorator : Type :=
| IsEnum (allowed : list string)
| IsNumber
| IsOptional
| IsString
| IsUrl (require_tld : bool).

(** A property declared on a configuration class: its decorators, the
    callback of its [@Transform] (the identity when it has none), and its
    initializer. *)
Record Property : Type := mkProperty {
  prop_name : string;
  decorators : list Decorator;
  convert : Value -> Value;
  initializer : option Value
}.

(** A configuration class: its declared properties. *)
Definition Schema : Type := list Property.

Fixpoint find_property (config : Schema) (k : string) : option Property :=
  match config with
  | [] => None
  | p :: config' => if String.eqb k (prop_name p) then Some p else find_property config' k
  end.

(** ** parseInt(value, 10) *)

Definition digit_of (c : Ascii.ascii) : option Z :=
  let n := Ascii.nat_of_ascii c in
  if Nat.leb 48 n && Nat.leb n 57 then Some (Z.of_nat (n - 48)) else None.

Fixpoint parse_digits (acc : option Z) (s : string) : option Z :=
  match s with
  | EmptyString => acc
  | String c s' =>
      match digit_of c with
      | Some d =>
          parse_digits (Some (10 * match acc with Some a => a | None => 0 end + d)%Z) s'
      | None => acc
      end
  end.

Fixpoint skip_spaces (s : string) : string :=
  match s with
  | String " "%char s' => skip_spaces s'
  | _ => s
  end.

Definition parse_int (s : string) : Value :=
  match skip_spaces s with
  | String "-"%char s' =>
      match parse_digits None s' with Some n => VNumber (- n) | None => VNaN end
  | String "+"%char s' =>
      match parse_digits None s' with Some n => VNumber n | None => VNaN end
  | s' => match parse_digits None s' with Some n => VNumber n | None => VNaN end
  end.

Definition parseInt10 (v : Value) : Value :=
  match v with
  | VString s => parse_int s
  | VNumber n => VNumber n
  | _ => VNaN
  end.

(** ** The classes of the file (lines 8-51) *)

Definition Environment : list string :=
  ["development"; "staging"; "production"; "test"].

Definition LogLevel : list string :=
  ["fatal"; "error"; "warn"; "info"; "debug"; "trace"].

Definition BaseEnvironmentConfig : Schema :=
  [ mkProperty "NODE_ENV" [IsEnum Environment; IsOptional] (fun v => v)
               (Some (VString "development"));
    mkProperty "PORT" [IsNumber; IsOptional] parseInt10 (Some (VNumber 3000));
    mkProperty "LOG_LEVEL" [IsEnum LogLevel; IsOptional] (fun v => v)
               (Some (VString "info"));
    mkProperty "SERVICE_NAME" [IsString; IsOptional] (fun v => v) None;
    mkProperty "SERVICE_VERSION" [IsString; IsOptional] (fun v => v) None ].

(** Lines 56-91. *)
Definition DatabaseConfig : Schema :=
  [ mkProperty "DATABASE_URL" [IsUrl false; IsOptional] (fun v => v) None;
    mkProperty "DB_HOST" [IsString; IsOptional] (fun v => v) None;
    mkProperty "DB_PORT" [IsNumber; IsOptional] parseInt10 None;
    mkProperty "DB_NAME" [IsString; IsOptional] (fun v => v) None;
    mkProperty "DB_USER" [IsString; IsOptional] (fun v => v) None;
    mkProperty "DB_PASSWORD" [IsString; IsOptional] (fun v => v) None;
    mkProperty "DB_POOL_MIN" [IsNumber; IsOptional] parseInt10 (Some (VNumber 2));
    mkProperty "DB_POOL_MAX" [IsNumber; IsOptional] parseInt10 (Some (VNumber 10)) ].

(** Lines 96-118. *)
Definition RedisConfig : Schema :=
  [ mkProperty "REDIS_URL" [IsUrl false; IsOptional] (fun v => v) None;
    mkProperty "REDIS_HOST" [IsString; IsOptional] (fun v => v) None;
    mkProperty "REDIS_PORT" [IsNumber; IsOptional] parseInt10 None;
    mkProperty "REDIS_PASSWORD" [IsString; IsOptional] (fun v => v) None;
    mkProperty "REDIS_DB" [IsNumber; IsOptional] parseInt10 (Some (VNumber 0)) ].

(** Lines 123-138.  [JWT_SECRET] is the one property of the file that is
    not optional. *)
Definition JwtConfig : Schema :=
  [ mkProperty "JWT_SECRET" [IsString] (fun v => v) None;
    mkProperty "JWT_EXPIRES_IN" [IsString; IsOptional] (fun v => v)
               (Some (VString "1h"));
    mkProperty "JWT_REFRESH_SECRET" [IsString; IsOptional] (fun v => v) None;
    mkProperty "JWT_REFRESH_EXPIRES_IN" [IsString; IsOptional] (fun v => v)
               (Some (VString "7d")) ].

(** Lines 143-155: the properties of [BaseEnvironmentConfig], then three
    optional properties that hold the other configurations. *)
Definition EnvironmentConfig : Schema :=
  (BaseEnvironmentConfig ++
   [ mkProperty "database" [IsOptional] (fun v => v) None;
     mkProperty "redis" [IsOptional] (fun v => v) None;
     mkProperty "jwt" [IsOptional] (fun v => v) None ])%list.

(** ** class-transformer *)

Record ClassTransformOptions : Type := mkTransformOptions {
  enableImplicitConversion : bool
}.

(** [new config()]: the properties that have an initializer. *)
Definition construct (config : Schema) : Obj :=
  flat_map (fun p => match initializer p with
                     | Some v => [(prop_name p, v)]
                     | None => []
                     end) config.

(** The functions that every object inherits from [Object.prototype]. *)
Definition Object_prototype_functions : list string :=
  ["constructor"; "__defineGetter__"; "__defineSetter__"; "hasOwnProperty";
   "__lookupGetter__"; "__lookupSetter__"; "isPrototypeOf";
   "propertyIsEnumerable"; "toString"; "valueOf"; "toLocaleString"].

(** The names that [plainToClass] can pass over. *)
Definition reserved_name (k : string) : bool :=
  existsb (String.eqb k) ("__proto__" :: Object_prototype_functions).

(** The keys that [plainToClass] does not copy to the instance [inst]:
    [__proto__] and [constructor], and every key under which the instance
    holds a function, which is an inherited one unless the instance has a
    property of its own under that key (the configuration classes declare no
    methods). *)
Definition passed_over (inst : Obj) (k : string) : bool :=
  String.eqb k "__proto__" || String.eqb k "constructor"
  || (existsb (String.eqb k) Object_prototype_functions
      && negb (existsb (String.eqb k) (keys inst))).

(** [plainToClass(config, plain, options)]: every property of [plain] that
    is not passed over is set on a new instance, converted when the class
    declares it.  Of the two conversions that class-transformer applies to
    a declared property, to its declared type first (which
    [enableImplicitConversion] asks for) and then by the callback of
    [@Transform], [convert] keeps the callback. *)
Definition plainToClass (config : Schema) (plain : Obj)
           (options : ClassTransformOptions) : Obj :=
  fold_left (fun inst kv =>
               if passed_over inst (fst kv) then inst
               else
                 let v := match find_property config (fst kv) with
                          | Some p => convert p (snd kv)
                          | None => snd kv
                          end in
                 put inst (fst kv) v)
            plain (construct config).

(** ** class-validator *)

Record ValidatorOptions : Type := mkValidatorOptions {
  skipMissingProperties : bool;
  whitelist : bool;
  forbidNonWhitelisted : bool
}.

Record ValidationError : Type := mkValidationError {
  property : string;
  constraints : option (list (string * string))
}.

Section Validator.

(** [isURL] of the validator package. *)
Variable isURL : bool -> string -> bool.

Definition is_optional (d : Decorator) : bool :=
  match d with IsOptional => true | _ => false end.

(** The constraint a decorator reports for a value it rejects. *)
Definition check (k : string) (d : Decorator) (v : Value)
  : option (string * string) :=
  match d with
  | IsEnum allowed =>
      match v with
      | VString s =>
          if existsb (String.eqb s) allowed then None
          else Some ("isEnum", k ++ " must be one of the following values: "
                                 ++ String.concat ", " allowed)
      | _ => Some ("isEnum", k ++ " must be one of the following values: "
                               ++ String.concat ", " allowed)
      end
  | IsNumber =>
      match v with
      | VNumber _ => None
      | _ => Some ("isNumber",
                   k ++ " must be a number conforming to the specified constraints")
      end
  | IsString =>
      match v with
      | VString _ => None
      | _ => Some ("isString", k ++ " must be a string")
      end
  | IsUrl require_tld =>
      match v with
      | VString s =>
          if isURL require_tld s then None
          else Some ("isUrl", k ++ " must be a URL address")
      | _ => Some ("isUrl", k ++ " must be a URL address")
      end
  | IsOptional => None
  end.

Definition is_missing (v : Value) : bool :=
  match v with VUndefined => true | _ => false end.

(** The error of one decorated property, if any. *)
Definition validate_property (options : ValidatorOptions) (object : Obj)
           (p : Property) : list ValidationError :=
  let v := get object (prop_name p) in
  if is_missing v && (skipMissingProperties options
                      || existsb is_optional (decorators p))
  then []
  else
    match flat_map (fun d => match check (prop_name p) d v with
                             | Some c => [c]
                             | None => []
                             end) (decorators p) with
    | [] => []
    | cs => [mkValidationError (prop_name p) (Some cs)]
    end.

(** A property of the object is whitelisted when the class puts at least
    one decorator on it. *)
Definition whitelisted (config : Schema) (k : string) : bool :=
  match find_property config k with
  | Some p => match decorators p with [] => false | _ => true end
  | None => false
  end.

Definition not_allowed (config : Schema) (object : Obj) : list string :=
  filter (fun k => negb (whitelisted config k)) (keys object).

Definition whitelist_error (k : string) : ValidationError :=
  mkValidationError k
    (Some [("whitelistValidation", "property " ++ k ++ " should not exist")]).

(** [validateSync(object, options)] for an instance of [config]: with
    [whitelist] the properties without decorators are reported when
    [forbidNonWhitelisted] is set and dropped otherwise; then the decorated
    properties are validated. *)
Definition validateSync (config : Schema) (object : Obj)
           (options : ValidatorOptions) : list ValidationError :=
  (if whitelist options && forbidNonWhitelisted options
   then map whitelist_error (not_allowed config object)
   else []) ++
  flat_map (validate_property options object) config.

(** Lines 164-192.  The result is the validated configuration, or the
    message of the [Error] that is thrown. *)
Definition validateEnvironment (config : Schema) (envVars : Obj)
  : string + Obj :=
  let validatedConfig :=
    plainToClass config envVars (mkTransformOptions true) in
  let errors :=
    validateSync config validatedConfig (mkValidatorOptions false true true) in
  if Nat.ltb 0 (List.length errors) then
    let errorMessages :=
      String.concat "; "
        (map (fun error =>
                match constraints error with
                | Some cs => String.concat ", " (map snd cs)
                | None => "Invalid value for " ++ property error
                end) errors) in
    inl ("Environment validation failed: " ++ errorMessages)
  else inr validatedConfig.

End Validator.

Section Validators.

(** [isURL] of the validator package, and [process.env]. *)
Variable isURL : bool -> string -> bool.
Variable process_env : Obj.

(** Lines 199-204.  Called without an argument, the validator passes
    [undefined] on, and [validateEnvironment] takes its default,
    [process.env] (line 166). *)
Definition createEnvironmentValidator (config : Schema)
  : option Obj -> string + Obj :=
  fun envVars =>
    validateEnvironment isURL config
      (match envVars with Some vars => vars | None => process_env end).

(** Line 209. *)
Definition validateBaseEnvironment : option Obj -> string + Obj :=
  createEnvironmentValidator BaseEnvironmentConfig.

(** Line 214. *)
Definition validateCompleteEnvironment : option Obj -> string + Obj :=
  createEnvironmentValidator EnvironmentConfig.

End Validators.

End EnvValidation.

Import Bootstrap.

(** ** Concrete environments and machines *)

(** Every tool is installed, every command succeeds, the manifest is there
    and the admin secret is readable from the start. *)
Definition calm : Env :=
  mkEnv (fun _ => true) (fun _ _ => Succeeds) (fun _ => true)
        (fun _ => Some "s3cr3t").

(** An empty machine. *)
Definition bare : World := mkWorld 0 [] None None [].

(** A handle file naming process 7, which is running. *)
Definition tunnel_up : World := mkWorld 0 [] None (Some (PidText 7)) [7].

(** A signal ends the script while it sleeps in [deploy_application]. *)
Definition interrupted_sleep : Env :=
  mkEnv (fun _ => true)
        (fun _ c => match c with Sleep _ => Interrupted | _ => Succeeds end)
        (fun _ => true) (fun _ => Some "s3cr3t").

(** The application manifest is not where [deploy_application] looks. *)
Definition no_manifest : Env :=
  mkEnv (fun _ => true) (fun _ _ => Succeeds) (fun _ => false)
        (fun _ => Some "s3cr3t").


(** ** Notions used in the statements *)

Definition is_status (r : Res) : bool :=
  match r with Status _ => true | _ => false end.

(** The state right after the command [c] was issued in [s] and ended as
    [o]. *)
Definition ran (s : St) (c : Cmd) (o : Outcome) : St :=
  emit (Ran (clock s) c o) (set_clock (S (clock s)) s).

(** The value that the read of the admin secret issued at time [t] leaves
    in [ARGOCD_PASSWORD]. *)
Definition secret_read (e : Env) (t : nat) : string :=
  match oracle e t kubectl_get_admin_secret, secret_at e t with
  | Succeeds, Some v => v
  | _, _ => ""
  end.

(** A machine on which a cluster named [CLUSTER_NAME] was created at time
    3, and another cluster later. *)
Definition stale_cluster : World :=
  mkWorld 5 [("ca-dev", 3); ("scratch", 4)] None None [].

(** Events by which a process is signalled or a handle file removed. *)
Definition is_reap (ev : Event) : bool :=
  match ev with Killed _ | Removed _ => true | _ => false end.

(** The stages, in the order in which [main] calls them. *)
Definition stages : list Fn :=
  [fn_check_prerequisites; fn_create_cluster; fn_install_ingress_nginx;
   fn_install_keda; fn_install_argocd; fn_deploy_application; fn_display_info].

(** [main] as a walk over a list of stages that ends with [k]. *)
Definition run_stages (fs : list Fn) (k : Sh) : Sh :=
  fold_right (fun f c => invoke f ;; c) k fs.

(** A completed walk: every stage of the list returned, one after the
    other, from [s] to [s']. *)
Inductive chain (e : Env) : list Fn -> St -> St -> Prop :=
| chain_nil (s : St) : chain e [] s s
| chain_cons (f : Fn) (fs : list Fn) (s s1 s' : St) :
    invoke f e s = (Status 0, s1) -> chain e fs s1 s' -> chain e (f :: fs) s s'.

(** The one warning of a run in which every stage completes (line 66). *)
Definition cluster_exists_warning : string :=
  "Cluster " ++ CLUSTER_NAME ++ " already exists. Deleting it first...".

Definition is_argocd (f : Fn) : bool :=
  match f with fn_install_argocd => true | _ => false end.

(** What the body of stage [f] may add to the trace. *)
Definition inner (f : Fn) (ev : Event) : bool :=
  match ev with
  | Enter _ | TrapSet _ | Killed _ | Removed _ => false
  | Spawned _ _ | Wrote _ _ => is_argocd f
  | Echo _ => match f with fn_display_info => true | _ => false end
  | Ran _ (KubectlGetSecret _ _ _) _ => is_argocd f
  | Ran _ (KubectlWait _ _ _ _) _ => is_argocd f
  | Ran _ (KubectlApply None _) _ =>
      match f with fn_deploy_application => true | _ => false end
  | Ran _ _ _ => true
  | Log WARNING msg =>
      match f with
      | fn_create_cluster => String.eqb msg cluster_exists_warning
      | fn_deploy_application => true
      | _ => false
      end
  | Log _ _ => true
  end.

(** A result that ends the run: a non-zero [exit], or a signal. *)
Definition aborting (r : Res) : Prop :=
  match r with
  | Exit (S _) | Signalled => True
  | _ => False
  end.

Definition fn_index (f : Fn) : nat :=
  match f with
  | fn_main => 0
  | fn_check_prerequisites => 1
  | fn_create_cluster => 2
  | fn_install_ingress_nginx => 3
  | fn_install_keda => 4
  | fn_install_argocd => 5
  | fn_deploy_application => 6
  | fn_display_info => 7
  | fn_cleanup => 8
  end.

Definition Fn_eqb (f g : Fn) : bool := Nat.eqb (fn_index f) (fn_index g).

Definition is_enter (f : Fn) (ev : Event) : bool :=
  match ev with Enter g => Fn_eqb f g | _ => false end.

(** What a walk over the stages [fs] may add to the trace. *)
Definition stage_event (fs : list Fn) (ev : Event) : bool :=
  existsb (fun f => is_enter f ev || inner f ev) fs.

(** The first and the last line of [main]. *)
Definition main_hello : string := "ðŸš€ Starting k3d bootstrap for ContractAnalyzer...".
Definition main_done : string := "Bootstrap completed! ðŸŽ‰".

(** The state in which [main] calls its first stage, for a script started
    in [s]. *)
Definition main_start (s : St) : St :=
  emit (Log INFO main_hello)
    (emit (Enter fn_main)
       (emit (TrapSet fn_cleanup) (set_trap_exit (Some fn_cleanup) s))).

(** The state in which the EXIT trap starts the body of [cleanup]. *)
Definition trap_start (s : St) : St :=
  emit (Enter fn_cleanup) (set_trap_exit None s).

(** What the script does before [main] calls its first stage. *)
Definition prelude : list Event :=
  [TrapSet fn_cleanup; Enter fn_main; Log INFO main_hello].

Definition is_log (ev : Event) : bool :=
  match ev with Log _ _ => true | _ => false end.

(** What a walk may add after the stage under study: events of the later
    stages and the last line of [main]. *)
Definition tail_event (fs : list Fn) (ev : Event) : bool :=
  stage_event fs ev || is_log ev.

(** [before b t]: the events of [t] that precede its first [b] event. *)
Fixpoint before (b : Event -> bool) (t : list Event) : list Event :=
  match t with
  | [] => []
  | ev :: t' => if b ev then [] else ev :: before b t'
  end.

Definition is_spawn (ev : Event) : bool :=
  match ev with Spawned _ _ => true | _ => false end.

(** The application descriptor was accepted by [kubectl apply]. *)
Definition is_app_submitted (ev : Event) : bool :=
  match ev with
  | Ran _ (KubectlApply None file) Succeeds => String.eqb file app_manifest
  | _ => false
  end.

(** The wait for the ArgoCD server deployment returned successfully. *)
Definition is_argocd_ready (ev : Event) : bool :=
  match ev with
  | Ran _ (KubectlWait _ _ _ _) Succeeds => true
  | _ => false
  end.

(** The application-deploy stage has begun: [deploy_application] was
    entered, or the descriptor was submitted. *)
Definition is_deploy_step (ev : Event) : bool :=
  is_enter fn_deploy_application ev || is_app_submitted ev.

Definition early_stages : list Fn :=
  [fn_check_prerequisites; fn_create_cluster; fn_install_ingress_nginx; fn_install_keda].

Definition late_stages : list Fn := [fn_deploy_application; fn_display_info].

(** The external commands of a trace, in the order in which they were
    issued. *)
Definition ran_cmds (t : list Event) : list Cmd :=
  flat_map (fun ev => match ev with Ran _ c _ => [c] | _ => [] end) t.

(** The external commands stage [f] issues when each of them succeeds. *)
Definition commands_of (f : Fn) : list Cmd :=
  ran_cmds (trace (snd (call f (body_of f) calm (boot bare)))).

(** The time bounds of the readiness waits that the script itself issues in
    stage [f], as commands of their own: [kubectl wait --timeout]. *)
Definition runner_bounds (f : Fn) : list nat :=
  flat_map (fun c => match c with KubectlWait _ t _ _ => [t] | _ => [] end)
           (commands_of f).

(** The install commands of stage [f] that are told to wait by themselves
    ([helm ... --wait]), each with the bound the script passes, if any. *)
Definition install_waits (f : Fn) : list (option nat) :=
  flat_map (fun c => match c with
                     | HelmUpgradeInstall _ _ _ _ _ _ true timeout => [timeout]
                     | _ => []
                     end)
           (commands_of f).

Definition installers : list Fn :=
  [fn_install_ingress_nginx; fn_install_keda; fn_install_argocd].

(** The command of an installer stage that returns once the component is
    available. *)
Definition readiness_command (f : Fn) : option Cmd :=
  match f with
  | fn_install_ingress_nginx => Some helm_install_ingress_nginx
  | fn_install_keda => Some helm_install_keda
  | fn_install_argocd => Some kubectl_wait_argocd
  | _ => None
  end.

(** A stage that [main] calls after stage [f] is entered. *)
Definition entered_after (f : Fn) (ev : Event) : bool :=
  match ev with
  | Enter g => Nat.ltb (fn_index f) (fn_index g) && Nat.ltb (fn_index g) 8
  | _ => false
  end.

(** The ArgoCD server deployment never becomes available in time. *)
Definition argocd_never_ready : Env :=
  mkEnv (fun _ => true)
        (fun _ c => match c with KubectlWait _ _ _ _ => Fails | _ => Succeeds end)
        (fun _ => true) (fun _ => Some "s3cr3t").

(** The tools [check_prerequisites] looks for, in its order. *)
Definition required_tools : list string := ["k3d"; "kubectl"; "helm"].

Definition first_missing (e : Env) : option string :=
  find (fun tool => negb (on_path e tool)) required_tools.

Definition missing_message (tool : string) : string :=
  tool ++ " is not installed. Please install " ++ tool ++ " first.".

(** What [check_prerequisites] adds to the trace when [tool] is the first
    one it does not find. *)
Definition failed_check (tool : string) : list Event :=
  [Enter fn_check_prerequisites;
   Log INFO "Checking prerequisites...";
   Log ERROR (missing_message tool)].

(** k3d is installed, kubectl is not. *)
Definition no_kubectl : Env :=
  mkEnv (fun tool => negb (String.eqb tool "kubectl")) (fun _ _ => Succeeds)
        (fun _ => true) (fun _ => Some "s3cr3t").

Definition is_get_secret (ev : Event) : bool :=
  match ev with Ran _ (KubectlGetSecret _ _ _) _ => true | _ => false end.

Definition is_echo (line : string) (ev : Event) : bool :=
  match ev with Echo l => String.eqb l line | _ => false end.

(** A warning other than the one about an existing cluster. *)
Definition is_other_warning (ev : Event) : bool :=
  match ev with
  | Log WARNING msg => negb (String.eqb msg cluster_exists_warning)
  | _ => false
  end.

(** The admin secret becomes readable at time 15 only: the script reads it
    at time 13, and a third read would have found it. *)
Definition late_secret : Env :=
  mkEnv (fun _ => true) (fun _ _ => Succeeds) (fun _ => true)
        (fun t => if Nat.ltb t 15 then None else Some "s3cr3t").

(** The stages that neither read the secret nor start the tunnel nor submit
    the application. *)
Definition plain_stages : list Fn :=
  [fn_check_prerequisites; fn_create_cluster; fn_install_ingress_nginx;
   fn_install_keda; fn_display_info].

(** An environment with a valid port and one variable that
    [BaseEnvironmentConfig] does not declare. *)
Definition env_with_home : EnvValidation.Obj :=
  [("PORT", EnvValidation.VString "8080"); ("HOME", EnvValidation.VString "/root")].

(** A stand-in for the URL check of the validator package. *)
Definition any_url (require_tld : bool) (s : string) : bool := true.

(** ** Notions used in the further properties *)

Definition is_interrupted (ev : Event) : bool :=
  match ev with Ran _ _ Interrupted => true | _ => false end.

(** The commands whose failure the script does not act on: the listing in
    the condition of an [if] (line 65), and the left-hand sides of the pipes
    of lines 130, 140 and 160. *)
Definition status_ignored (c : Cmd) : bool :=
  match c with
  | K3dClusterList | KubectlCreateNamespaceDryRun _ | KubectlGetSecret _ _ _ => true
  | _ => false
  end.

(** An external command that ends the run: interrupted, or failed under
    [set -e]. *)
Definition is_fatal (ev : Event) : bool :=
  match ev with
  | Ran _ _ Interrupted => true
  | Ran _ c Fails => negb (status_ignored c)
  | _ => false
  end.

(** Every fatal event of the list is its last event. *)
Fixpoint fatal_is_last (l : list Event) : bool :=
  match l with
  | [] => true
  | ev :: l' =>
      if is_fatal ev then match l' with [] => true | _ => false end
      else fatal_is_last l'
  end.

(** The last line of [main] (line 230). *)
Definition is_main_done (ev : Event) : bool :=
  match ev with Log SUCCESS msg => String.eqb msg main_done | _ => false end.

Definition is_signalled (r : Res) : bool :=
  match r with Signalled => true | _ => false end.

(** The functions entered, in order. *)
Definition entered (t : list Event) : list Fn :=
  flat_map (fun ev => match ev with Enter f => [f] | _ => [] end) t.

(** A cluster under another name than [CLUSTER_NAME]. *)
Definition other_cluster (c : string * nat) : bool := negb (named CLUSTER_NAME c).

Definition is_create_cluster (f : Fn) : bool :=
  match f with fn_create_cluster => true | _ => false end.

(** The context [create_cluster] switches to (line 80). *)
Definition cluster_context : string := "k3d-" ++ CLUSTER_NAME.

(** A machine with one cluster, whose name is longer than [CLUSTER_NAME]
    and contains it. *)
Definition longer_name : World := mkWorld 5 [("ca-dev-2", 3)] None None [].

(** The names that the database, Redis and JWT classes declare. *)
Definition flat_names : list string :=
  map EnvValidation.prop_name
      (EnvValidation.DatabaseConfig ++ EnvValidation.RedisConfig
         ++ EnvValidation.JwtConfig)%list.

(** The environment of a process started from a shell. *)
Definition shell_env : EnvValidation.Obj :=
  [("PATH", EnvValidation.VString "/usr/bin:/bin");
   ("NODE_ENV", EnvValidation.VString "production")].

(** ** Notions used in the statements about [cleanup]

    The handle file is absent, or holds the identifier of one process or a
    word that [kill] rejects. *)
Definition plain_handle (s : St) : bool :=
  match pid_file s with
  | None => true
  | Some t =>
      match kill_reads t with
      | Some (ToProcess _) | Some NoOperand => true
      | _ => false
      end
  end.

(** A handle file that holds the number 0, and no process besides the
    script. *)
Definition zero_handle : World := mkWorld 0 [] None (Some (PidText 0)) [].

(** The script is alone in its process group. *)
Definition alone (q : nat) : bool := false.

(** An input with the two keys that [BaseEnvironmentConfig] does not
    declare and [plainToClass] passes over. *)
Definition env_with_constructor : EnvValidation.Obj :=
  [("constructor", EnvValidation.VString "x");
   ("toString", EnvValidation.VString "y")].

(** * Properties *)

(** ** Unfolding the shell *)

Ltac sh_unfold :=
  unfold if_then, if_then_else, seq, errexit, bang, pipe, call, with_st,
    exit_with, return_with, skip, trap_EXIT,
    log_info, log_success, log_warning, log_error, log, echo,
    command_v, test_f, file_exists, ext, ext_with, outcome_of,
    read_PID, kill_0_PID, kill_PID, rm_f_pid_file,
    write_pid_file, spawn_ARGOCD_PF_PID in *.

(** Projections of a state built by field updates. *)
Ltac st_simpl :=
  cbn [clock clusters kube_context pid_file procs ARGOCD_PASSWORD ARGOCD_PF_PID
       PID trap_exit trace emit ran set_clock set_clusters set_kube_context
       set_pid_file set_procs set_ARGOCD_PASSWORD set_ARGOCD_PF_PID set_PID
       set_trap_exit fst snd] in *.

Lemma alive_after_kill (p : nat) (l : list nat) :
  existsb (Nat.eqb p) (filter (fun q => negb (Nat.eqb p q)) l) = false.
Proof.
  induction l as [|q l IH]; simpl; [reflexivity|].
  destruct (Nat.eqb p q) eqn:E; simpl; [assumption|].
  rewrite E. assumption.
Qed.

(** ** The cleanup function (Stop) *)

Section Cleanup.

Variable e : Env.

(** What [cleanup] does, by the state of the handle file and of the
    process it names. *)
Lemma cleanup_cases (s : St) :
  cleanup e s =
  match pid_file s with
  | None => (Status 0, s)
  | Some (PidText p) =>
      if alive s p
      then (Status 0,
            emit (Removed pid_file_path)
              (set_pid_file None
                 (emit (Killed p)
                    (set_procs (filter (fun q => negb (Nat.eqb p q)) (procs s))
                       (set_PID (PidText p) s)))))
      else (Status 0, set_PID (PidText p) s)
  | Some (OtherText t) => (Status 0, set_PID (OtherText t) s)
  end.
Proof.
  destruct s as [ck cl kc pf pr pw pfp pid tr trc].
  unfold cleanup. sh_unfold. cbn.
  destruct pf as [[p|t]|]; cbn; try reflexivity.
  unfold alive; cbn. destruct (existsb (Nat.eqb p) pr); reflexivity.
Qed.

End Cleanup.


(** On a plain handle, [cleanup] is [cleanup_read]: the text names one
    process or nothing, and [kill] reads it so. *)
Lemma cleanup_read_plain (same_group : nat -> bool) (e : Env) (s : St) :
  plain_handle s = true -> cleanup_read same_group e s = Some (cleanup e s).
Proof.
  unfold plain_handle, cleanup_read. rewrite cleanup_cases.
  destruct (pid_file s) as [[[|p]|t]|]; cbn [kill_reads]; intros H.
  - discriminate.
  - unfold alive. cbn [procs set_PID].
    destruct (existsb (Nat.eqb (S p)) (procs s)); reflexivity.
  - destruct (rejected t); [reflexivity|discriminate].
  - reflexivity.
Qed.

(** [cleanup] leaves a plain handle plain. *)
Lemma cleanup_keeps_plain (e : Env) (s : St) :
  plain_handle s = true -> plain_handle (snd (cleanup e s)) = true.
Proof.
  unfold plain_handle. rewrite cleanup_cases.
  destruct (pid_file s) as [[p|t]|] eqn:Hf; [destruct (alive s p)|..];
    cbn [snd]; st_simpl; try rewrite Hf; auto.
Qed.



(** C10, as stated, fails: when the handle file holds the number 0,
    [cleanup] signals the process group of the script and leaves the file;
    run again on the state it left, it does the same: the second invocation
    performs a kill. *)
Lemma cleanup_signals_own_group_again :
  exists s1 s2,
    cleanup_read alone calm (boot zero_handle) = Some (Signalled, s1) /\
    cleanup_read alone calm s1 = Some (Signalled, s2) /\
    pid_file s1 = Some (PidText 0) /\ pid_file s2 = Some (PidText 0) /\
    trace s1 = [Killed 0] /\ trace s2 = [Killed 0; Killed 0].
Proof. do 2 eexists. repeat split; reflexivity. Qed.

(** C10 (amended): on a handle file that is absent, or that holds the
    identifier of one process or a word that [kill] rejects, a second
    [cleanup] right after a first one succeeds and changes neither the
    handle file nor the live processes, and it does nothing observable: the
    trace gains no kill and no removal.  Both invocations do what [kill]
    itself makes of the handle text. *)
Theorem cleanup_idempotent (same_group : nat -> bool) (e : Env) (s : St) :
  plain_handle s = true ->
  let s1 := snd (cleanup e s) in
  let s2 := snd (cleanup e s1) in
  cleanup_read same_group e s = Some (cleanup e s) /\
  cleanup_read same_group e s1 = Some (cleanup e s1) /\
  fst (cleanup e s1) = Status 0 /\
  pid_file s2 = pid_file s1 /\ procs s2 = procs s1 /\ trace s2 = trace s1.
Proof.
  intros Hplain. cbv zeta.
  split; [apply cleanup_read_plain; exact Hplain|].
  split; [apply cleanup_read_plain, cleanup_keeps_plain; exact Hplain|].
  clear Hplain. rewrite (cleanup_cases e s).
  destruct (pid_file s) as [[p|t]|] eqn:Hf.
  - destruct (alive s p) eqn:Ha; cbn [snd]; rewrite cleanup_cases; st_simpl.
    + cbn [fst snd]. st_simpl. auto.
    + rewrite Hf. unfold alive in *. st_simpl. rewrite Ha.
      cbn [fst snd]. st_simpl. auto.
  - cbn [snd]. rewrite cleanup_cases. st_simpl. rewrite Hf.
    cbn [fst snd]. st_simpl. auto.
  - cbn [snd]. rewrite cleanup_cases. rewrite Hf.
    cbn [fst snd]. auto.
Qed.

Lemma cleanup_idempotent_witness :
  let s1 := snd (cleanup calm (boot tunnel_up)) in
  let s2 := snd (cleanup calm s1) in
  cleanup_read alone calm (boot tunnel_up) = Some (cleanup calm (boot tunnel_up)) /\
  cleanup_read alone calm s1 = Some (cleanup calm s1) /\
  fst (cleanup calm s1) = Status 0 /\
  pid_file s2 = pid_file s1 /\ procs s2 = procs s1 /\ trace s2 = trace s1.
Proof.
  apply (cleanup_idempotent alone calm (boot tunnel_up)). reflexivity.
Defined.

(** ** Inversion of the control structure

    Each lemma reads one equation [c e s = (r, s')] back into what the parts
    of [c] did.  [sh_inv] applies them until only facts about the oracle and
    equations between states are left, one goal per path through [c]. *)

Section Inversion.

Variables (e : Env) (s s' : St) (r : Res).

Lemma seq_inv (c1 c2 : Sh) :
  (c1 ;; c2) e s = (r, s') ->
  (exists n s1, c1 e s = (Status n, s1) /\ c2 e s1 = (r, s')) \/
  (c1 e s = (r, s') /\ is_status r = false).
Proof.
  unfold seq. destruct (c1 e s) as [[n|n|n|] s1]; intros H.
  - left. eauto.
  - right. inversion H; subst. auto.
  - right. inversion H; subst. auto.
  - right. inversion H; subst. auto.
Qed.

Lemma pipe_inv (c1 c2 : Sh) :
  pipe c1 c2 e s = (r, s') ->
  (exists n s1, c1 e s = (Status n, s1) /\ c2 e s1 = (r, s')) \/
  (c1 e s = (r, s') /\ is_status r = false).
Proof. exact (seq_inv c1 c2). Qed.

Lemma errexit_inv (c : Sh) :
  errexit c e s = (r, s') ->
  (c e s = (Status 0, s') /\ r = Status 0) \/
  (exists n, c e s = (Status (S n), s') /\ r = Exit (S n)) \/
  (c e s = (r, s') /\ is_status r = false).
Proof.
  unfold errexit. destruct (c e s) as [[[|n]|n|n|] s1]; intros H;
    inversion H; subst; eauto.
Qed.

Lemma if_then_else_inv (c a b : Sh) :
  if_then_else c a b e s = (r, s') ->
  (exists s1, c e s = (Status 0, s1) /\ a e s1 = (r, s')) \/
  (exists n s1, c e s = (Status (S n), s1) /\ b e s1 = (r, s')) \/
  (c e s = (r, s') /\ is_status r = false).
Proof.
  unfold if_then_else. destruct (c e s) as [[[|n]|n|n|] s1]; intros H.
  - left. exists s1. auto.
  - right; left. exists n, s1. auto.
  - right; right. inversion H; subst. auto.
  - right; right. inversion H; subst. auto.
  - right; right. inversion H; subst. auto.
Qed.

Lemma if_then_inv (c a : Sh) :
  if_then c a e s = (r, s') ->
  (exists s1, c e s = (Status 0, s1) /\ a e s1 = (r, s')) \/
  (exists n, c e s = (Status (S n), s') /\ r = Status 0) \/
  (c e s = (r, s') /\ is_status r = false).
Proof.
  intros H. apply if_then_else_inv in H.
  destruct H as [H|[(n & s1 & H1 & H2)|H]]; auto.
  right; left. unfold skip in H2. inversion H2; subst. eauto.
Qed.

Lemma bang_inv (c : Sh) :
  bang c e s = (r, s') ->
  (c e s = (Status 0, s') /\ r = Status 1) \/
  (exists n, c e s = (Status (S n), s') /\ r = Status 0) \/
  (c e s = (r, s') /\ is_status r = false).
Proof.
  unfold bang. destruct (c e s) as [[[|n]|n|n|] s1]; intros H;
    inversion H; subst; eauto.
Qed.

Lemma call_inv (f : Fn) (body : Sh) :
  call f body e s = (r, s') ->
  (exists n, body e (emit (Enter f) s) = (Return n, s') /\ r = Status n) \/
  (body e (emit (Enter f) s) = (r, s') /\
   match r with Return _ => False | _ => True end).
Proof.
  unfold call. destruct (body e (emit (Enter f) s)) as [[n|n|n|] s1]; intros H;
    inversion H; subst; eauto.
Qed.

Lemma with_st_inv (c : St -> Sh) :
  with_st c e s = (r, s') -> c s e s = (r, s').
Proof. exact (fun H => H). Qed.

Lemma log_inv (l : Level) (msg : string) :
  log l msg e s = (r, s') -> r = Status 0 /\ s' = emit (Log l msg) s.
Proof. unfold log. intros H; inversion H; auto. Qed.

Lemma echo_inv (line : string) :
  echo line e s = (r, s') -> r = Status 0 /\ s' = emit (Echo line) s.
Proof. unfold echo. intros H; inversion H; auto. Qed.

Lemma exit_with_inv (n : nat) :
  exit_with n e s = (r, s') -> r = Exit n /\ s' = s.
Proof. unfold exit_with. intros H; inversion H; auto. Qed.

Lemma return_with_inv (n : nat) :
  return_with n e s = (r, s') -> r = Return n /\ s' = s.
Proof. unfold return_with. intros H; inversion H; auto. Qed.

Lemma command_v_inv (tool : string) :
  command_v tool e s = (r, s') ->
  s' = s /\ ((on_path e tool = true /\ r = Status 0) \/
             (on_path e tool = false /\ r = Status 1)).
Proof.
  unfold command_v. destruct (on_path e tool); intros H; inversion H; auto.
Qed.

Lemma test_f_inv (path : string) :
  test_f path e s = (r, s') ->
  s' = s /\ ((file_exists e s path = true /\ r = Status 0) \/
             (file_exists e s path = false /\ r = Status 1)).
Proof.
  unfold test_f. destruct (file_exists e s path); intros H; inversion H; auto.
Qed.

Lemma ext_with_inv (feasible : St -> bool) (effect : St -> St) (c : Cmd) :
  ext_with feasible effect c e s = (r, s') ->
  (oracle e (clock s) c = Succeeds /\ feasible s = true /\
   r = Status 0 /\ s' = effect (ran s c Succeeds)) \/
  (oracle e (clock s) c <> Interrupted /\ r = Status 1 /\ s' = ran s c Fails /\
   (oracle e (clock s) c = Succeeds -> feasible s = false)) \/
  (oracle e (clock s) c = Interrupted /\ r = Signalled /\ s' = ran s c Interrupted).
Proof.
  unfold ext_with, outcome_of, ran.
  destruct (oracle e (clock s) c); [destruct (feasible s)| |];
    intros H; inversion H; subst.
  - left. auto.
  - right; left. repeat split; auto; discriminate.
  - right; left. repeat split; auto; discriminate.
  - right; right. auto.
Qed.

Lemma ext_inv (c : Cmd) :
  ext c e s = (r, s') ->
  (oracle e (clock s) c = Succeeds /\ r = Status 0 /\ s' = ran s c Succeeds) \/
  (oracle e (clock s) c = Fails /\ r = Status 1 /\ s' = ran s c Fails) \/
  (oracle e (clock s) c = Interrupted /\ r = Signalled /\ s' = ran s c Interrupted).
Proof.
  unfold ext, ext_with, outcome_of, ran.
  destruct (oracle e (clock s) c); intros H; inversion H; subst; auto.
Qed.

Lemma k3d_cluster_list_grep_q_inv (pat : string) :
  k3d_cluster_list_grep_q pat e s = (r, s') ->
  (oracle e (clock s) K3dClusterList = Succeeds /\
   existsb (fun c => contains pat (fst c)) (clusters s) = true /\
   r = Status 0 /\ s' = ran s K3dClusterList Succeeds) \/
  (oracle e (clock s) K3dClusterList <> Interrupted /\ r = Status 1 /\
   s' = ran s K3dClusterList (oracle e (clock s) K3dClusterList) /\
   (oracle e (clock s) K3dClusterList = Succeeds ->
    existsb (fun c => contains pat (fst c)) (clusters s) = false)) \/
  (oracle e (clock s) K3dClusterList = Interrupted /\
   r = Signalled /\ s' = ran s K3dClusterList Interrupted).
Proof.
  unfold k3d_cluster_list_grep_q, outcome_of, ran.
  destruct (oracle e (clock s) K3dClusterList);
    [destruct (existsb _ (clusters s))| |]; intros H; inversion H; subst.
  - left. auto.
  - right; left. repeat split; auto; discriminate.
  - right; left. repeat split; auto; discriminate.
  - right; right. auto.
Qed.

Lemma spawn_ARGOCD_PF_PID_inv (c : Cmd) :
  spawn_ARGOCD_PF_PID c e s = (r, s') ->
  r = Status 0 /\
  s' = emit (Spawned (fresh_pid (procs s)) c)
         (set_ARGOCD_PF_PID (fresh_pid (procs s))
            (set_procs (fresh_pid (procs s) :: procs s) s)).
Proof. unfold spawn_ARGOCD_PF_PID. intros H; inversion H; auto. Qed.

Lemma write_pid_file_inv :
  write_pid_file e s = (r, s') ->
  r = Status 0 /\
  s' = emit (Wrote pid_file_path (PidText (ARGOCD_PF_PID s)))
         (set_pid_file (Some (PidText (ARGOCD_PF_PID s))) s).
Proof. unfold write_pid_file. intros H; inversion H; auto. Qed.

Lemma assign_ARGOCD_PASSWORD_inv :
  assign_ARGOCD_PASSWORD e s = (r, s') ->
  (exists o, o <> Interrupted /\ r = Status 0 /\
     s' = set_ARGOCD_PASSWORD (secret_read e (clock s)) (ran s kubectl_get_admin_secret o)) \/
  (r = Signalled /\ s' = ran s kubectl_get_admin_secret Interrupted).
Proof.
  unfold assign_ARGOCD_PASSWORD, outcome_of, ran, secret_read.
  destruct (oracle e (clock s) kubectl_get_admin_secret);
    [destruct (secret_at e (clock s))| |]; intros H; inversion H; subst.
  - left. exists Succeeds. repeat split; auto; discriminate.
  - left. exists Fails. repeat split; auto; discriminate.
  - left. exists Fails. repeat split; auto; discriminate.
  - right. auto.
Qed.

End Inversion.

Ltac sh_inv_one H :=
  lazymatch type of H with
  | seq _ _ _ _ = _ =>
      apply seq_inv in H; destruct H as [(? & ? & H & ?)|(H & ?)]
  | pipe _ _ _ _ = _ =>
      apply pipe_inv in H; destruct H as [(? & ? & H & ?)|(H & ?)]
  | errexit _ _ _ = _ =>
      apply errexit_inv in H; destruct H as [(H & ?)|[(? & H & ?)|(H & ?)]]
  | if_then _ _ _ _ = _ =>
      apply if_then_inv in H;
      destruct H as [(? & H & ?)|[(? & H & ?)|(H & ?)]]
  | if_then_else _ _ _ _ _ = _ =>
      apply if_then_else_inv in H;
      destruct H as [(? & H & ?)|[(? & ? & H & ?)|(H & ?)]]
  | bang _ _ _ = _ =>
      apply bang_inv in H; destruct H as [(H & ?)|[(? & H & ?)|(H & ?)]]
  | call _ _ _ _ = _ =>
      apply call_inv in H; destruct H as [(? & H & ?)|(H & ?)]
  | with_st _ _ _ = _ => apply with_st_inv in H
  | log _ _ _ _ = _ => apply log_inv in H; destruct H as (? & ?)
  | log_info _ _ _ = _ => apply log_inv in H; destruct H as (? & ?)
  | log_success _ _ _ = _ => apply log_inv in H; destruct H as (? & ?)
  | log_warning _ _ _ = _ => apply log_inv in H; destruct H as (? & ?)
  | log_error _ _ _ = _ => apply log_inv in H; destruct H as (? & ?)
  | echo _ _ _ = _ => apply echo_inv in H; destruct H as (? & ?)
  | exit_with _ _ _ = _ => apply exit_with_inv in H; destruct H as (? & ?)
  | return_with _ _ _ = _ => apply return_with_inv in H; destruct H as (? & ?)
  | command_v _ _ _ = _ =>
      apply command_v_inv in H; destruct H as (? & [(? & ?)|(? & ?)])
  | test_f _ _ _ = _ =>
      apply test_f_inv in H; destruct H as (? & [(? & ?)|(? & ?)])
  | ext _ _ _ = _ =>
      apply ext_inv in H; destruct H as [(? & ? & ?)|[(? & ? & ?)|(? & ? & ?)]]
  | k3d_cluster_delete _ _ _ = _ =>
      apply ext_with_inv in H;
      destruct H as [(? & ? & ? & ?)|[(? & ? & ? & ?)|(? & ? & ?)]]
  | k3d_cluster_create _ _ _ _ _ _ _ = _ =>
      apply ext_with_inv in H;
      destruct H as [(? & ? & ? & ?)|[(? & ? & ? & ?)|(? & ? & ?)]]
  | kubectl_config_use_context _ _ _ = _ =>
      apply ext_with_inv in H;
      destruct H as [(? & ? & ? & ?)|[(? & ? & ? & ?)|(? & ? & ?)]]
  | k3d_cluster_list_grep_q _ _ _ = _ =>
      apply k3d_cluster_list_grep_q_inv in H;
      destruct H as [(? & ? & ? & ?)|[(? & ? & ? & ?)|(? & ? & ?)]]
  | spawn_ARGOCD_PF_PID _ _ _ = _ =>
      apply spawn_ARGOCD_PF_PID_inv in H; destruct H as (? & ?)
  | write_pid_file _ _ = _ =>
      apply write_pid_file_inv in H; destruct H as (? & ?)
  | assign_ARGOCD_PASSWORD _ _ = _ =>
      apply assign_ARGOCD_PASSWORD_inv in H;
      destruct H as [(? & ? & ? & ?)|(? & ?)]
  end.

Ltac sh_clear :=
  subst;
  try discriminate;
  try match goal with
      | H : ?x <> ?x |- _ => exfalso; apply H; reflexivity
      | H : False |- _ => destruct H
      | H : Status _ = Status _ |- _ => injection H as H
      end.

Ltac sh_inv :=
  repeat (sh_clear; st_simpl;
          match goal with
          | H : _ = (_, _) |- _ => progress (sh_inv_one H)
          end);
  sh_clear; st_simpl.

(** ** The cluster stage *)

Lemma grep_finds_cluster (l : list (string * nat)) (t : nat) :
  In (CLUSTER_NAME, t) l ->
  existsb (fun c => contains CLUSTER_NAME (fst c)) l = true.
Proof.
  intros H. apply existsb_exists. exists (CLUSTER_NAME, t). split; [exact H|reflexivity].
Qed.

Lemma named_cluster_exists (l : list (string * nat)) (t : nat) :
  In (CLUSTER_NAME, t) l -> existsb (named CLUSTER_NAME) l = true.
Proof.
  intros H. apply existsb_exists. exists (CLUSTER_NAME, t). split; [exact H|reflexivity].
Qed.

Lemma deleted_not_named (name : string) (l : list (string * nat)) :
  existsb (named name) (filter (fun c => negb (named name c)) l) = false.
Proof.
  induction l as [|c l IH]; simpl; [reflexivity|].
  destruct (named name c) eqn:E; simpl; [assumption|].
  rewrite E. assumption.
Qed.

Lemma deleted_filter_nil (name : string) (l : list (string * nat)) :
  filter (named name) (filter (fun c => negb (named name c)) l) = [].
Proof.
  induction l as [|c l IH]; simpl; [reflexivity|].
  destruct (named name c) eqn:E; simpl; [assumption|].
  rewrite E. assumption.
Qed.

(** When k3d and kubectl do their work, the cluster stage completes. *)
Lemma create_cluster_completes (e : Env) (s : St) (t0 : nat) :
  In (CLUSTER_NAME, t0) (clusters s) ->
  (forall t c, oracle e t c = Succeeds) ->
  exists s', call fn_create_cluster create_cluster e s = (Status 0, s').
Proof.
  intros Hin Hor.
  pose proof (grep_finds_cluster _ _ Hin) as Hgrep.
  destruct (call fn_create_cluster create_cluster e s) as [r s'] eqn:Hrun.
  unfold create_cluster in Hrun.
  sh_inv.
  all: try (eexists; reflexivity).
  all: try match goal with
           | H : oracle _ ?t ?c = Interrupted |- _ =>
               rewrite (Hor t c) in H; discriminate
           | H : oracle _ ?t ?c <> Interrupted, H' : oracle _ ?t ?c = Succeeds -> _ |- _ =>
               specialize (H' (Hor t c))
           end.
  all: try congruence.
  all: try (rewrite deleted_not_named in *; discriminate).
Qed.

(** C2: when a cluster named [CLUSTER_NAME] exists as the cluster stage
    starts and the stage completes, [k3d cluster delete] had returned
    successfully before [k3d cluster create] was issued, and afterwards
    exactly one cluster carries the name, created later than every cluster
    that carried it before. *)
Theorem create_cluster_recreates (e : Env) (s s' : St) :
  (exists t, In (CLUSTER_NAME, t) (clusters s)) ->
  Forall (fun c => snd c <= clock s) (clusters s) ->
  call fn_create_cluster create_cluster e s = (Status 0, s') ->
  (exists t',
      filter (named CLUSTER_NAME) (clusters s') = [(CLUSTER_NAME, t')] /\
      forall t, In (CLUSTER_NAME, t) (clusters s) -> t < t') /\
  (exists pre td mid tc post,
      trace s' = (trace s ++ pre ++ Ran td (K3dClusterDelete CLUSTER_NAME) Succeeds
                    :: mid ++ Ran tc k3d_create_cmd Succeeds :: post)%list /\
      td < tc).
Proof.
  intros [t0 Hin] Hwf Hrun.
  pose proof (named_cluster_exists _ _ Hin) as Hex.
  unfold create_cluster in Hrun.
  sh_inv.
  all: unfold ran in *; simpl in *.
  - split.
    + exists (S (S (S (clock s)))). split.
      * rewrite filter_app, deleted_filter_nil. reflexivity.
      * intros t Ht. rewrite Forall_forall in Hwf.
        specialize (Hwf _ Ht). simpl in Hwf. lia.
    + exists [Enter fn_create_cluster;
              Log INFO ("Creating k3d cluster: " ++ CLUSTER_NAME ++ "...");
              Ran (clock s) K3dClusterList Succeeds;
              Log WARNING ("Cluster " ++ CLUSTER_NAME
                             ++ " already exists. Deleting it first...")],
        (S (clock s)), [], (S (S (clock s))).
      eexists. split; [|lia].
      repeat rewrite <- app_assoc. reflexivity.
  - rewrite Hex in *. discriminate.
Qed.

Lemma create_cluster_recreates_witness :
  exists t',
    filter (named CLUSTER_NAME)
      (clusters (snd (call fn_create_cluster create_cluster calm (boot stale_cluster))))
    = [(CLUSTER_NAME, t')] /\
    forall t, In (CLUSTER_NAME, t) (clusters (boot stale_cluster)) -> t < t'.
Proof.
  apply (create_cluster_recreates calm (boot stale_cluster)
           (snd (call fn_create_cluster create_cluster calm (boot stale_cluster)))).
  - exists 3. left. reflexivity.
  - repeat constructor; simpl; lia.
  - vm_compute. reflexivity.
Defined.

(** ** The tunnel is started without looking at an earlier handle *)

Lemma above_all_not_member (n : nat) (l : list nat) :
  Forall (fun k => k <= n) l -> existsb (Nat.eqb (S n)) l = false.
Proof.
  induction 1 as [|q l Hq _ IH]; [reflexivity|].
  cbn [existsb]. rewrite IH.
  destruct (Nat.eqb_spec (S n) q); [lia|reflexivity].
Qed.

Lemma fresh_pid_not_alive (s : St) : alive s (fresh_pid (procs s)) = false.
Proof.
  unfold alive, fresh_pid. apply above_all_not_member.
  apply list_max_le. lia.
Qed.

(** C8, as stated, fails: with a handle file that names the running process
    7, the GitOps stage completes, starts the tunnel as process 8 and records
    it, while process 7 is still running; nothing was signalled and no file
    was removed. *)
Lemma install_argocd_leaves_old_tunnel :
  let run := call fn_install_argocd install_argocd calm (boot tunnel_up) in
  fst run = Status 0 /\
  In (Spawned 8 kubectl_port_forward_argocd) (trace (snd run)) /\
  alive (snd run) 7 = true /\ alive (snd run) 8 = true /\
  pid_file (snd run) = Some (PidText 8) /\
  existsb is_reap (trace (snd run)) = false.
Proof. vm_compute. intuition. Qed.

(** C8 (amended): starting the tunnel reaps nothing.  Whatever the GitOps
    stage does, it signals no process and removes no file, and every process
    that was running is still running; when it starts the tunnel, the new
    process has an identifier that no running process had, and the handle
    file is overwritten with that identifier. *)
Theorem install_argocd_never_reaps (e : Env) (s : St) :
  let s' := snd (call fn_install_argocd install_argocd e s) in
  exists evs,
    trace s' = (trace s ++ evs)%list /\
    existsb is_reap evs = false /\
    (forall p, alive s p = true -> alive s' p = true) /\
    (forall p c, In (Spawned p c) evs ->
       alive s p = false /\ alive s' p = true /\ pid_file s' = Some (PidText p)).
Proof.
  cbv zeta.
  destruct (call fn_install_argocd install_argocd e s) as [r s'] eqn:Hrun.
  unfold install_argocd in Hrun.
  sh_inv.
  all: st_simpl; repeat rewrite <- app_assoc; cbn [app].
  all: eexists; split; [reflexivity|].
  all: split; [reflexivity|].
  all: split;
    [ intros p Hp; unfold alive in *; st_simpl; cbn [existsb];
      rewrite ?Hp, ?orb_true_r; reflexivity
    | intros p c Hin; cbn [In] in Hin;
      repeat (destruct Hin as [Hin|Hin]; try discriminate); try contradiction ].
  all: injection Hin as <- <-.
  all: split; [apply fresh_pid_not_alive|].
  all: split; [|reflexivity].
  all: unfold alive; st_simpl; cbn [existsb]; rewrite Nat.eqb_refl; reflexivity.
Qed.

Lemma install_argocd_never_reaps_witness :
  alive (snd (call fn_install_argocd install_argocd calm (boot tunnel_up))) 7 = true.
Proof.
  destruct (install_argocd_never_reaps calm (boot tunnel_up)) as (evs & _ & _ & Hkeep & _).
  apply Hkeep. reflexivity.
Defined.

(** ** What every stage leaves alone *)

Lemma invoke_frame (f : Fn) (e : Env) (s s' : St) (r : Res) :
  In f stages ->
  invoke f e s = (r, s') ->
  trap_exit s' = trap_exit s /\
  (exists evs, trace s' = (trace s ++ Enter f :: evs)%list /\
               forallb (inner f) evs = true) /\
  (r = Status 0 \/ aborting r) /\
  (is_argocd f = false -> ARGOCD_PASSWORD s' = ARGOCD_PASSWORD s).
Proof.
  intros Hf Hrun. unfold invoke in Hrun.
  cbn [In stages] in Hf.
  repeat (destruct Hf as [<-|Hf]); [..|contradiction];
    cbn [body_of] in Hrun;
    [ unfold check_prerequisites in Hrun
    | unfold create_cluster in Hrun
    | unfold install_ingress_nginx in Hrun
    | unfold install_keda in Hrun
    | unfold install_argocd in Hrun
    | unfold deploy_application in Hrun
    | unfold display_info in Hrun ].
  all: sh_inv.
  all: st_simpl; repeat rewrite <- app_assoc; cbn [app].
  all: (split; [reflexivity|]).
  all: (split; [eexists; split; reflexivity|]).
  all: (split; [cbn; auto|]).
  all: try (intros _; reflexivity).
  all: intros; discriminate.
Qed.

(** ** The shape of a run *)

Lemma main_stages :
  main = (log_info main_hello ;; run_stages stages (log_success main_done)).
Proof. reflexivity. Qed.

Lemma invoke_status (f : Fn) (e : Env) (s s1 : St) (n : nat) :
  invoke f e s = (Status n, s1) -> n = 0.
Proof.
  unfold invoke. intros H. apply errexit_inv in H.
  destruct H as [(_ & H)|[(m & _ & H)|(_ & H)]]; [congruence|discriminate..].
Qed.

Lemma run_stages_inv (fs : list Fn) (k : Sh) (e : Env) (s s' : St) (r : Res) :
  run_stages fs k e s = (r, s') ->
  exists done rest sm,
    fs = (done ++ rest)%list /\ chain e done s sm /\
    ((rest = [] /\ k e sm = (r, s')) \/
     (exists f rest', rest = f :: rest' /\ invoke f e sm = (r, s') /\
                      is_status r = false)).
Proof.
  revert s. induction fs as [|f fs IH]; intros s H; cbn [run_stages fold_right] in H.
  - exists [], [], s. split; [reflexivity|]. split; [constructor|]. left. auto.
  - apply seq_inv in H. destruct H as [(n & s1 & H1 & H2)|(H1 & Hr)].
    + pose proof (invoke_status _ _ _ _ _ H1) as ->.
      destruct (IH _ H2) as (done & rest & sm & -> & Hc & Hend).
      exists (f :: done), rest, sm. split; [reflexivity|].
      split; [econstructor; eassumption|exact Hend].
    + exists [], (f :: fs), s. split; [reflexivity|]. split; [constructor|].
      right. exists f, fs. auto.
Qed.

Lemma stage_event_app (fs gs : list Fn) (evs : list Event) :
  forallb (stage_event fs) evs = true ->
  forallb (stage_event (gs ++ fs)) evs = true /\
  forallb (stage_event (fs ++ gs)) evs = true.
Proof.
  intros H. rewrite forallb_forall in H.
  split; apply forallb_forall; intros ev Hev; specialize (H ev Hev);
    unfold stage_event in *; rewrite existsb_app, H; auto using orb_true_r.
Qed.

Lemma inner_stage_event (f : Fn) (evs : list Event) :
  forallb (inner f) evs = true ->
  forallb (stage_event [f]) (Enter f :: evs) = true.
Proof.
  intros H. cbn [forallb]. apply andb_true_iff. split.
  - unfold stage_event, is_enter, Fn_eqb. cbn. rewrite Nat.eqb_refl. reflexivity.
  - rewrite forallb_forall in *. intros ev Hev. unfold stage_event. cbn.
    rewrite (H ev Hev). rewrite orb_true_r. reflexivity.
Qed.

(** A completed walk over stages keeps the trap and only adds events of
    those stages. *)
Lemma chain_frame (e : Env) (fs : list Fn) (s s' : St) :
  chain e fs s s' ->
  incl fs stages ->
  trap_exit s' = trap_exit s /\
  exists evs, trace s' = (trace s ++ evs)%list /\
              forallb (stage_event fs) evs = true.
Proof.
  induction 1 as [s|f fs s s1 s' Hf _ IH]; intros Hincl.
  - split; [reflexivity|]. exists []. rewrite app_nil_r. auto.
  - assert (Hin : In f stages) by (apply Hincl; left; reflexivity).
    destruct (invoke_frame _ _ _ _ _ Hin Hf) as (Ht & (evs & He & Hi) & _ & _).
    destruct IH as (Ht' & evs' & He' & Hi').
    { intros g Hg. apply Hincl. right. exact Hg. }
    split; [congruence|].
    exists ((Enter f :: evs) ++ evs')%list. split.
    + rewrite He', He. rewrite <- app_assoc. reflexivity.
    + rewrite forallb_app. apply andb_true_iff. split.
      * apply (stage_event_app [f] fs). apply inner_stage_event. exact Hi.
      * apply (stage_event_app fs [f]). exact Hi'.
Qed.

(** How the script proper ends: some stages completed in order; then either
    every stage is done and [main] returned, or the next stage ended the
    run. *)
Lemma script_inv (e : Env) (s s2 : St) (r : Res) :
  script e s = (r, s2) ->
  exists done rest sm,
    stages = (done ++ rest)%list /\ chain e done (main_start s) sm /\
    ((rest = [] /\ r = Status 0 /\ s2 = emit (Log SUCCESS main_done) sm) \/
     (exists f rest', rest = f :: rest' /\ invoke f e sm = (r, s2) /\ aborting r)).
Proof.
  unfold script, invoke. cbn [body_of]. rewrite main_stages. intros H.
  apply seq_inv in H. destruct H as [(n & s1 & H1 & H)|(H1 & Hr)].
  2:{ unfold trap_EXIT in H1. inversion H1; subst. discriminate. }
  unfold trap_EXIT in H1. inversion H1; subst; clear H1.
  assert (Hmain : exists r0,
             run_stages stages (log_success main_done) e (main_start s) = (r0, s2) /\
             (r0 = r \/ (exists m, r0 = Status (S m)) \/ (exists m, r0 = Return m))).
  { apply errexit_inv in H. destruct H as [(H & ->)|[(m & H & ->)|(H & Hr)]];
      apply call_inv in H; destruct H as [(k & H & Hk)|(H & Hk)];
      apply seq_inv in H; destruct H as [(k' & s1 & H1 & H)|(H1 & Hr')];
      apply log_inv in H1; destruct H1 as (E1 & E2); subst;
      try discriminate; unfold main_start; eauto 6. }
  destruct Hmain as (r0 & Hrun & Hr0).
  apply run_stages_inv in Hrun.
  destruct Hrun as (done & rest & sm & Hsplit & Hc & Hend).
  exists done, rest, sm. split; [exact Hsplit|]. split; [exact Hc|].
  destruct Hend as [(-> & Hk)|(f & rest' & -> & Hf & Hst)].
  - left. apply log_inv in Hk. destruct Hk as (-> & ->).
    destruct Hr0 as [<-|[(m & Hm)|(m & Hm)]]; try discriminate. auto.
  - right. exists f, rest'. split; [reflexivity|].
    assert (Hin : In f stages) by (rewrite Hsplit; apply in_or_app; right; left; reflexivity).
    destruct (invoke_frame _ _ _ _ _ Hin Hf) as (_ & _ & [->|Hab] & _); [discriminate|].
    destruct Hr0 as [<-|[(m & ->)|(m & ->)]]; try contradiction. auto.
Qed.

Lemma script_trace (e : Env) (s s2 : St) (r : Res) :
  script e s = (r, s2) ->
  trap_exit s2 = Some fn_cleanup /\
  exists evs,
    trace s2 = (trace s ++ [TrapSet fn_cleanup; Enter fn_main; Log INFO main_hello]
                  ++ evs)%list /\
    forallb (stage_event stages) evs = true.
Proof.
  intros H. apply script_inv in H.
  destruct H as (done & rest & sm & Hsplit & Hc & Hend).
  assert (Hincl : incl done stages).
  { rewrite Hsplit. intros g Hg. apply in_or_app. left. exact Hg. }
  destruct (chain_frame _ _ _ _ Hc Hincl) as (Ht & evs & He & Hi).
  apply (stage_event_app done rest) in Hi. destruct Hi as (_ & Hi).
  rewrite <- Hsplit in Hi.
  unfold main_start in Ht, He. st_simpl. repeat rewrite <- app_assoc in He. cbn [app] in He.
  destruct Hend as [(-> & -> & ->)|(f & rest' & -> & Hf & Hab)].
  - st_simpl. split; [exact Ht|].
    exists (evs ++ [Log SUCCESS main_done])%list. split.
    + rewrite He. repeat rewrite <- app_assoc. reflexivity.
    + rewrite forallb_app, Hi. reflexivity.
  - assert (Hin : In f stages) by (rewrite Hsplit; apply in_or_app; right; left; reflexivity).
    destruct (invoke_frame _ _ _ _ _ Hin Hf) as (Ht' & (evs' & He' & Hi') & _ & _).
    split; [congruence|].
    exists (evs ++ Enter f :: evs')%list. split.
    + rewrite He', He. repeat rewrite <- app_assoc. reflexivity.
    + rewrite forallb_app, Hi. cbn [andb].
      apply inner_stage_event in Hi'.
      apply (stage_event_app [f] rest') in Hi'. destruct Hi' as (_ & Hi').
      apply (stage_event_app ([f] ++ rest') done) in Hi'. destruct Hi' as (Hi' & _).
      cbn [app] in Hi'. rewrite <- Hsplit in Hi'. exact Hi'.
Qed.

(** What the EXIT trap adds to the trace. *)
Lemma cleanup_trace (e : Env) (s : St) :
  fst (cleanup e s) = Status 0 /\
  exists evs, trace (snd (cleanup e s)) = (trace s ++ evs)%list /\
              forallb is_reap evs = true.
Proof.
  rewrite cleanup_cases.
  destruct (pid_file s) as [[p|t]|]; [destruct (alive s p)|..]; cbn [fst snd].
  - split; [reflexivity|]. exists [Killed p; Removed pid_file_path].
    st_simpl. rewrite <- app_assoc. auto.
  - split; [reflexivity|]. exists []. st_simpl. rewrite app_nil_r. auto.
  - split; [reflexivity|]. exists []. st_simpl. rewrite app_nil_r. auto.
  - split; [reflexivity|]. exists []. rewrite app_nil_r. auto.
Qed.

(** A run is the script proper followed by the trap on [cleanup]. *)
Lemma run_script_eq (e : Env) (s s2 : St) (r : Res) :
  script e s = (r, s2) ->
  run_script e s = (exit_status r, snd (cleanup e (trap_start s2))).
Proof.
  intros H. unfold run_script. rewrite H.
  apply script_trace in H. destruct H as (Ht & _).
  unfold shell_exit. rewrite Ht. unfold call. cbn [body_of]. fold (trap_start s2).
  destruct (cleanup_trace e (trap_start s2)) as (Hr & _).
  destruct (cleanup e (trap_start s2)) as [rc sc]. cbn [fst snd] in *.
  subst rc. reflexivity.
Qed.

Lemma stage_event_not_cleanup (ev : Event) :
  stage_event stages ev = true ->
  is_enter fn_cleanup ev = false /\ is_reap ev = false.
Proof.
  destruct ev as [f| | | | | | | |]; cbn; auto; try discriminate.
  destruct f; cbn; auto; discriminate.
Qed.

Lemma forallb_none (P Q : Event -> bool) (l : list Event) :
  (forall ev, P ev = true -> Q ev = false) ->
  forallb P l = true -> existsb Q l = false.
Proof.
  intros HPQ. induction l as [|ev l IH]; cbn; [reflexivity|].
  intros H. apply andb_true_iff in H. destruct H as (H1 & H2).
  rewrite (HPQ _ H1), (IH H2). reflexivity.
Qed.

Ltac in_trace := vm_compute; repeat (first [left; reflexivity | right]).

(** ** The finalizer *)

(** C1: in every run in which the tunnel was started, whatever ends the run
    (the last line of [main], a failing stage, a signal), [cleanup] is
    entered exactly once, after the tunnel was started, and nothing follows
    it in the run but its own kill and removal. *)
Theorem cleanup_runs_once_after_start (e : Env) (w : World) (p : nat) (c : Cmd) :
  In (Spawned p c) (trace (snd (run_script e (boot w)))) ->
  exists pre post,
    trace (snd (run_script e (boot w))) = (pre ++ Enter fn_cleanup :: post)%list /\
    In (Spawned p c) pre /\
    existsb (is_enter fn_cleanup) pre = false /\
    existsb (is_enter fn_cleanup) post = false /\
    forallb is_reap post = true.
Proof.
  destruct (script e (boot w)) as [r s2] eqn:Hs.
  rewrite (run_script_eq _ _ _ _ Hs). cbn [snd].
  destruct (script_trace _ _ _ _ Hs) as (_ & evs & He & Hi).
  destruct (cleanup_trace e (trap_start s2)) as (_ & cevs & Hc & Hr).
  rewrite Hc. unfold trap_start. st_simpl. rewrite <- app_assoc. cbn [app].
  intros Hin. exists (trace s2), cevs.
  assert (Hpost : existsb (is_enter fn_cleanup) cevs = false).
  { apply (forallb_none is_reap); [|exact Hr]. intros [] Hev; try discriminate; reflexivity. }
  split; [reflexivity|]. split; [|split; [|split; assumption]].
  - apply in_app_or in Hin. destruct Hin as [Hin|[Hin|Hin]]; [exact Hin|discriminate|].
    rewrite forallb_forall in Hr. specialize (Hr _ Hin). discriminate.
  - rewrite He. cbn [boot trace app existsb is_enter]. 
    apply (forallb_none (stage_event stages)); [|exact Hi].
    intros ev Hev. apply stage_event_not_cleanup. exact Hev.
Qed.

(** The three ways out, each after the tunnel was started as process 1:
    the last line of [main], the failing deploy stage, a signal.  Each run
    ends with [cleanup] stopping the tunnel. *)
Example cleanup_after_normal_completion :
  fst (run_script calm (boot bare)) = 0 /\
  skipn 70 (trace (snd (run_script calm (boot bare)))) =
    [Log SUCCESS main_done; Enter fn_cleanup; Killed 1; Removed pid_file_path] /\
  procs (snd (run_script calm (boot bare))) = [].
Proof. vm_compute. auto. Qed.

Example cleanup_after_failed_stage :
  fst (run_script no_manifest (boot bare)) = 1 /\
  skipn 43 (trace (snd (run_script no_manifest (boot bare)))) =
    [Log ERROR "ArgoCD application file not found: deploy/argocd/app.yaml";
     Log WARNING "Please ensure you're running this script from the project root directory";
     Enter fn_cleanup; Killed 1; Removed pid_file_path] /\
  procs (snd (run_script no_manifest (boot bare))) = [].
Proof. vm_compute. auto. Qed.

Example cleanup_after_signal :
  fst (run_script interrupted_sleep (boot bare)) = 143 /\
  skipn 46 (trace (snd (run_script interrupted_sleep (boot bare)))) =
    [Ran 17 (Sleep 30) Interrupted; Enter fn_cleanup; Killed 1; Removed pid_file_path] /\
  procs (snd (run_script interrupted_sleep (boot bare))) = [].
Proof. vm_compute. auto. Qed.

Lemma cleanup_runs_once_after_start_witness :
  exists pre post,
    trace (snd (run_script calm (boot bare))) = (pre ++ Enter fn_cleanup :: post)%list /\
    In (Spawned 1 kubectl_port_forward_argocd) pre /\
    existsb (is_enter fn_cleanup) pre = false /\
    existsb (is_enter fn_cleanup) post = false /\
    forallb is_reap post = true.
Proof.
  apply (cleanup_runs_once_after_start calm bare 1 kubectl_port_forward_argocd).
  in_trace.
Defined.

(** ** A run seen from one stage *)

Lemma chain_app_inv (e : Env) (d1 d2 : list Fn) (s s' : St) :
  chain e (d1 ++ d2) s s' ->
  exists sm, chain e d1 s sm /\ chain e d2 sm s'.
Proof.
  revert s. induction d1 as [|f d1 IH]; intros s H; cbn [app] in H.
  - exists s. split; [constructor|exact H].
  - inversion H as [|? ? ? s1 ? Hf Hc]; subst.
    destruct (IH _ Hc) as (sm & H1 & H2).
    exists sm. split; [econstructor; eassumption|exact H2].
Qed.

Lemma split_at_stage (early late done rest : list Fn) (g : Fn) :
  (early ++ g :: late = done ++ rest)%list ->
  (exists d2, done = (early ++ g :: d2)%list /\ late = (d2 ++ rest)%list) \/
  (exists r1, early = (done ++ r1)%list /\ rest = (r1 ++ g :: late)%list).
Proof.
  revert done. induction early as [|a early IH]; intros done H; cbn [app] in H.
  - destruct done as [|b done]; cbn [app] in H.
    + right. exists []. auto.
    + injection H as <- H. left. exists done. auto.
  - destruct done as [|b done]; cbn [app] in H.
    + right. exists (a :: early). auto.
    + injection H as <- H. destruct (IH _ H) as [(d2 & -> & ->)|(r1 & -> & ->)].
      * left. exists d2. auto.
      * right. exists r1. auto.
Qed.

Lemma stage_event_tail (fs : list Fn) (evs : list Event) :
  forallb (stage_event fs) evs = true -> forallb (tail_event fs) evs = true.
Proof.
  rewrite !forallb_forall. intros H ev Hev. unfold tail_event.
  rewrite (H ev Hev). reflexivity.
Qed.

Lemma script_pivot (e : Env) (s s2 : St) (r : Res) (early late : list Fn) (g : Fn) :
  stages = (early ++ g :: late)%list ->
  script e s = (r, s2) ->
  (r = Status 0 \/ aborting r) /\
  exists A B,
    forallb (stage_event early) A = true /\
    forallb (tail_event late) B = true /\
    ((trace s2 = (trace s ++ prelude ++ A)%list /\ aborting r /\ B = []) \/
     (exists s4 r5 s5 evs,
         invoke g e s4 = (r5, s5) /\ forallb (inner g) evs = true /\
         trace s4 = (trace s ++ prelude ++ A)%list /\
         trace s5 = (trace s4 ++ Enter g :: evs)%list /\
         trace s2 = (trace s5 ++ B)%list /\
         (r5 = Status 0 \/ (r5 = r /\ aborting r /\ B = [])))).
Proof.
  intros Hst H. apply script_inv in H.
  destruct H as (done & rest & sm & Hsplit & Hc & Hend).
  assert (Hres : r = Status 0 \/ aborting r).
  { destruct Hend as [(_ & -> & _)|(f & rest' & _ & _ & Hab)]; auto. }
  split; [exact Hres|].
  assert (Hsub : forall a b, stages = (a ++ b)%list -> incl a stages /\ incl b stages).
  { intros a b ->. split; intros x Hx; apply in_or_app; auto. }
  assert (Htr0 : trace (main_start s) = (trace s ++ prelude)%list).
  { unfold main_start, prelude. st_simpl. repeat rewrite <- app_assoc. reflexivity. }
  rewrite Hst in Hsplit.
  destruct (split_at_stage _ _ _ _ _ Hsplit) as [(d2 & -> & ->)|(r1 & -> & ->)].
  - (* the stage under study completed *)
    destruct (chain_app_inv _ _ _ _ _ Hc) as (s4 & Hc1 & Hc2).
    inversion Hc2 as [|? ? ? s5 ? Hg Hc3]; subst.
    destruct (Hsub _ _ Hst) as (Hi1 & Hi2).
    assert (Hin : In g stages) by (apply Hi2; left; reflexivity).
    assert (Hlate : incl (d2 ++ rest) stages)
      by (intros x Hx; apply Hi2; right; exact Hx).
    destruct (chain_frame _ _ _ _ Hc1 Hi1) as (_ & A & HA & HAi).
    destruct (invoke_frame _ _ _ _ _ Hin Hg) as (_ & (evs & He & Hei) & _ & _).
    assert (Hd2 : incl d2 stages)
      by (intros x Hx; apply Hlate; apply in_or_app; left; exact Hx).
    destruct (chain_frame _ _ _ _ Hc3 Hd2) as (_ & B1 & HB & HBi).
    apply (stage_event_app d2 rest) in HBi. destruct HBi as (_ & HBi).
    apply stage_event_tail in HBi.
    rewrite Htr0 in HA.
    destruct Hend as [(-> & -> & ->)|(f & rest' & -> & Hf & Hab)].
    + exists A, (B1 ++ [Log SUCCESS main_done])%list.
      split; [exact HAi|]. split.
      { rewrite forallb_app, HBi. cbn [forallb andb]. unfold tail_event.
        cbn [is_log]. rewrite orb_true_r. reflexivity. }
      right. exists s4, (Status 0), s5, evs.
      repeat split; auto.
      * rewrite HA. rewrite <- app_assoc. reflexivity.
      * st_simpl. rewrite HB. rewrite <- app_assoc. reflexivity.
    + assert (Hinf : In f stages)
        by (apply Hlate; apply in_or_app; right; left; reflexivity).
      destruct (invoke_frame _ _ _ _ _ Hinf Hf) as (_ & (evf & Hef & Hfi) & _ & _).
      exists A, (B1 ++ Enter f :: evf)%list.
      split; [exact HAi|]. split.
      { rewrite forallb_app, HBi. cbn [andb].
        apply inner_stage_event in Hfi.
        apply (stage_event_app [f] rest') in Hfi. destruct Hfi as (_ & Hfi).
        apply (stage_event_app ([f] ++ rest') d2) in Hfi. destruct Hfi as (Hfi & _).
        apply stage_event_tail. exact Hfi. }
      right. exists s4, (Status 0), s5, evs.
      repeat split; auto.
      * rewrite HA. rewrite <- app_assoc. reflexivity.
      * rewrite Hef, HB. rewrite <- app_assoc. reflexivity.
  - (* the walk stopped at or before the stage under study *)
    assert (Hi1 : incl done stages).
    { rewrite Hst. intros x Hx. apply in_or_app. left. apply in_or_app. left. exact Hx. }
    destruct (chain_frame _ _ _ _ Hc Hi1) as (_ & A & HA & HAi).
    rewrite Htr0 in HA.
    destruct Hend as [(Hnil & _)|(f & rest' & Hrest & Hf & Hab)].
    { destruct r1; discriminate. }
    destruct r1 as [|f1 r1]; cbn [app] in Hrest; injection Hrest as <- <-.
    + assert (Hin : In g stages) by (rewrite Hst; apply in_or_app; right; left; reflexivity).
      destruct (invoke_frame _ _ _ _ _ Hin Hf) as (_ & (evs & He & Hei) & _ & _).
      exists A, [].
      split; [rewrite app_nil_r; exact HAi|]. split; [reflexivity|].
      right. exists sm, r, s2, evs.
      repeat split; auto.
      * rewrite HA. rewrite <- app_assoc. reflexivity.
      * rewrite app_nil_r. reflexivity.
    + assert (Hin : In f1 stages).
      { rewrite Hst. apply in_or_app. left. apply in_or_app. right. left. reflexivity. }
      destruct (invoke_frame _ _ _ _ _ Hin Hf) as (_ & (evf & Hef & Hfi) & _ & _).
      exists (A ++ Enter f1 :: evf)%list, [].
      split.
      { rewrite forallb_app. apply andb_true_iff. split.
        - apply (stage_event_app done (f1 :: r1)). exact HAi.
        - apply inner_stage_event in Hfi.
          apply (stage_event_app [f1] r1) in Hfi. destruct Hfi as (_ & Hfi).
          apply (stage_event_app ([f1] ++ r1) done) in Hfi. destruct Hfi as (Hfi & _).
          exact Hfi. }
      split; [reflexivity|].
      left. repeat split; auto.
      rewrite Hef, HA. repeat rewrite <- app_assoc. reflexivity.
Qed.

(** ** Order of the tunnel and the deploy stage *)

Section Before.

Variables S R : Event -> bool.

Lemma before_app (l1 l2 : list Event) :
  before R (l1 ++ l2) =
  if existsb R l1 then before R l1 else (l1 ++ before R l2)%list.
Proof.
  induction l1 as [|ev l1 IH]; cbn [app before existsb]; [reflexivity|].
  destruct (R ev); cbn [orb]; [reflexivity|].
  rewrite IH. destruct (existsb R l1); reflexivity.
Qed.

Lemma before_none (l : list Event) :
  existsb R l = false -> before R l = l.
Proof.
  induction l as [|ev l IH]; cbn [before existsb]; [reflexivity|].
  intros H. apply orb_false_iff in H. destruct H as (-> & H).
  rewrite (IH H). reflexivity.
Qed.

Lemma existsb_before (l : list Event) :
  existsb S l = false -> existsb S (before R l) = false.
Proof.
  induction l as [|ev l IH]; cbn [before existsb]; [reflexivity|].
  intros H. apply orb_false_iff in H. destruct H as (H1 & H2).
  destruct (R ev); cbn [existsb]; [reflexivity|].
  rewrite H1, (IH H2). reflexivity.
Qed.

(** No [S] event precedes the first [R] event of [l1 ++ l2] when [l1] has
    no [S] event and either has an [R] event or is followed by no [S]
    event. *)
Lemma none_before_first (l1 l2 : list Event) :
  existsb S l1 = false ->
  existsb R l1 = true \/ existsb S l2 = false ->
  existsb S (before R (l1 ++ l2)) = false.
Proof.
  intros H1 H2. rewrite before_app.
  destruct (existsb R l1) eqn:ER.
  - apply existsb_before. exact H1.
  - destruct H2 as [H2|H2]; [discriminate|].
    rewrite existsb_app, H1. cbn [orb]. apply existsb_before. exact H2.
Qed.

(** No [S] event precedes the first [R] event of [l1 ++ l2 ++ l3] when
    [S] events occur only in [l2], and there only after an [R] event. *)
Lemma none_before_in_middle (l1 l2 l3 : list Event) :
  existsb S l1 = false ->
  existsb S (before R l2) = false ->
  existsb S l3 = false ->
  existsb S (before R (l1 ++ l2 ++ l3)) = false.
Proof.
  intros H1 H2 H3. rewrite before_app.
  destruct (existsb R l1).
  - apply existsb_before. exact H1.
  - rewrite existsb_app, H1. cbn [orb]. rewrite before_app.
    destruct (existsb R l2) eqn:E2; [exact H2|].
    rewrite (before_none _ E2) in H2.
    rewrite existsb_app, H2. cbn [orb]. apply existsb_before. exact H3.
Qed.

End Before.

Ltac event_cases ev :=
  let f := fresh "f" in
  let l := fresh "l" in
  let c := fresh "c" in
  let o := fresh "o" in
  destruct ev as [f|l ?|?|? c o|? ?|? ?|?|?|f];
  [ destruct f | destruct l | | destruct c as [| | | | | | | | |[?|] ?| | | |], o | | | | | destruct f ];
  cbn; intros; repeat split; try reflexivity; try discriminate.

Lemma early_stage_event_quiet (ev : Event) :
  stage_event early_stages ev = true ->
  is_spawn ev = false /\ is_deploy_step ev = false /\ is_argocd_ready ev = false.
Proof. event_cases ev. Qed.

Lemma inner_argocd_quiet (ev : Event) :
  inner fn_install_argocd ev = true -> is_deploy_step ev = false.
Proof. event_cases ev. Qed.

Lemma late_stage_event_quiet (ev : Event) :
  tail_event late_stages ev = true ->
  is_spawn ev = false /\ is_argocd_ready ev = false.
Proof. event_cases ev. Qed.

Lemma reap_quiet (ev : Event) :
  is_reap ev = true ->
  is_spawn ev = false /\ is_deploy_step ev = false /\ is_argocd_ready ev = false.
Proof. event_cases ev. Qed.

(** Inside the GitOps stage the tunnel is started after the wait for the
    server deployment returned successfully, and a stage that completes has
    started it. *)
Lemma install_argocd_tunnel (e : Env) (s s' : St) (r : Res) :
  invoke fn_install_argocd e s = (r, s') ->
  exists evs,
    trace s' = (trace s ++ Enter fn_install_argocd :: evs)%list /\
    existsb is_spawn (before is_argocd_ready evs) = false /\
    (r = Status 0 -> existsb is_spawn evs = true).
Proof.
  unfold invoke. cbn [body_of]. unfold install_argocd. intros Hrun.
  sh_inv.
  all: st_simpl; repeat rewrite <- app_assoc; cbn [app].
  all: eexists; split; [reflexivity|].
  all: split; [reflexivity|].
  all: first [intros _; reflexivity | intros; discriminate].
Qed.

(** C3, as stated, fails: in the run in which everything succeeds, the
    tunnel is started before [deploy_application] is entered and before the
    application descriptor is submitted. *)
Lemma tunnel_started_before_deploy :
  let t := trace (snd (run_script calm (boot bare))) in
  fst (run_script calm (boot bare)) = 0 /\
  existsb is_spawn (before (is_enter fn_deploy_application) t) = true /\
  existsb is_spawn (before is_app_submitted t) = true.
Proof. vm_compute. auto. Qed.

(** C3 (amended): in every run the tunnel is started by the GitOps stage
    only after the wait for the ArgoCD server deployment returned
    successfully, and the application-deploy stage begins only after the
    tunnel was started: no execution enters [deploy_application] or submits
    the application descriptor before the tunnel is spawned. *)
Theorem tunnel_between_wait_and_deploy (e : Env) (w : World) :
  let t := trace (snd (run_script e (boot w))) in
  existsb is_spawn (before is_argocd_ready t) = false /\
  existsb is_deploy_step (before is_spawn t) = false.
Proof.
  cbv zeta.
  destruct (script e (boot w)) as [r s2] eqn:Hs.
  rewrite (run_script_eq _ _ _ _ Hs). cbn [snd].
  destruct (cleanup_trace e (trap_start s2)) as (_ & cevs & -> & Hr).
  unfold trap_start. st_simpl.
  assert (Hc : existsb is_spawn (Enter fn_cleanup :: cevs) = false /\
               existsb is_deploy_step (Enter fn_cleanup :: cevs) = false).
  { cbn [existsb is_spawn is_deploy_step is_enter is_app_submitted orb Fn_eqb
         fn_index Nat.eqb].
    split; apply (forallb_none is_reap); try exact Hr;
      intros ev Hev; apply reap_quiet; exact Hev. }
  destruct Hc as (Hc1 & Hc2).
  destruct (script_pivot _ _ _ _ early_stages late_stages fn_install_argocd
              eq_refl Hs) as (_ & A & B & HA & HB & Hcase).
  assert (HA1 : existsb is_spawn (prelude ++ A) = false).
  { rewrite existsb_app. cbn [prelude existsb is_spawn orb].
    apply (forallb_none (stage_event early_stages)); [|exact HA].
    intros ev Hev. apply early_stage_event_quiet. exact Hev. }
  assert (HA2 : existsb is_deploy_step (prelude ++ A) = false).
  { rewrite existsb_app. cbn.
    apply (forallb_none (stage_event early_stages)); [|exact HA].
    intros ev Hev. apply early_stage_event_quiet. exact Hev. }
  assert (HB1 : existsb is_spawn B = false).
  { apply (forallb_none (tail_event late_stages)); [|exact HB].
    intros ev Hev. apply late_stage_event_quiet. exact Hev. }
  destruct Hcase as [(Ht & _ & ->)|(s4 & r5 & s5 & evs & Hg & Hi & Ht4 & Ht5 & Ht2 & Hr5)].
  - rewrite Ht. cbn [boot trace app].
    replace (((prelude ++ A) ++ [Enter fn_cleanup]) ++ cevs)%list
      with ((prelude ++ A) ++ Enter fn_cleanup :: cevs)%list
      by (repeat rewrite <- app_assoc; reflexivity).
    split; apply existsb_before; rewrite existsb_app.
    + rewrite HA1, Hc1. reflexivity.
    + rewrite HA2, Hc2. reflexivity.
  - destruct (install_argocd_tunnel _ _ _ _ Hg) as (evs' & Ht5' & Hlocal & Hdone).
    rewrite Ht5 in Ht5'. apply app_inv_head in Ht5'. injection Ht5' as <-.
    rewrite Ht2, Ht5, Ht4. cbn [boot trace app]. fold prelude.
    assert (Hi2 : existsb is_deploy_step (Enter fn_install_argocd :: evs) = false).
    { cbn. apply (forallb_none (inner fn_install_argocd)); [|exact Hi].
      intros ev Hev. apply inner_argocd_quiet. exact Hev. }
    split.
    + replace (((((prelude ++ A) ++ Enter fn_install_argocd :: evs) ++ B)
                 ++ [Enter fn_cleanup]) ++ cevs)%list
        with ((prelude ++ A) ++ (Enter fn_install_argocd :: evs)
                ++ (B ++ Enter fn_cleanup :: cevs))%list
        by (repeat rewrite <- app_assoc; reflexivity).
      apply none_before_in_middle.
      * exact HA1.
      * cbn [before is_argocd_ready existsb is_spawn orb]. exact Hlocal.
      * rewrite existsb_app, HB1, Hc1. reflexivity.
    + replace (((((prelude ++ A) ++ Enter fn_install_argocd :: evs) ++ B)
                 ++ [Enter fn_cleanup]) ++ cevs)%list
        with (((prelude ++ A) ++ Enter fn_install_argocd :: evs)
                ++ (B ++ Enter fn_cleanup :: cevs))%list
        by (repeat rewrite <- app_assoc; reflexivity).
      apply none_before_first.
      * rewrite existsb_app, HA2, Hi2. reflexivity.
      * destruct Hr5 as [->|(_ & _ & ->)].
        -- left. rewrite existsb_app. cbn [existsb is_spawn orb].
           rewrite (Hdone eq_refl). apply orb_true_r.
        -- right. cbn [app]. exact Hc2.
Qed.

(** ** Readiness of the installed components *)

(** C5, as stated, fails for the ingress and autoscaler stages: the script
    issues no readiness wait of its own there and sets no bound; waiting is
    left to the install command ([helm upgrade --install ... --wait], with no
    [--timeout]). *)
Lemma helm_stages_have_no_runner_bound :
  In fn_install_ingress_nginx installers /\
  runner_bounds fn_install_ingress_nginx = [] /\
  install_waits fn_install_ingress_nginx = [None] /\
  runner_bounds fn_install_keda = [] /\
  install_waits fn_install_keda = [None].
Proof. vm_compute. intuition. Qed.

Lemma aborting_exit_status (r : Res) : aborting r -> exit_status r <> 0.
Proof. destruct r as [n|n|[|n]|]; cbn; intros H; try contradiction; discriminate. Qed.

Lemma failed_readiness_stops_stage (e : Env) (f : Fn) (c : Cmd) (s s' : St) (r : Res) :
  readiness_command f = Some c ->
  (forall t, oracle e t c = Fails) ->
  invoke f e s = (r, s') -> r <> Status 0.
Proof.
  intros Hc Hfail Hrun. unfold invoke in Hrun.
  destruct f; try discriminate; injection Hc as <-; cbn [body_of] in Hrun;
    [ unfold install_ingress_nginx in Hrun
    | unfold install_keda in Hrun
    | unfold install_argocd in Hrun ].
  all: sh_inv.
  all: try discriminate.
  all: match goal with
       | H : oracle _ ?t ?c = Succeeds |- _ =>
           rewrite (Hfail t) in H; discriminate
       end.
Qed.

Lemma earlier_stages_not_after (f : Fn) (early late : list Fn) (ev : Event) :
  In f installers ->
  stages = (early ++ f :: late)%list ->
  stage_event early ev = true -> entered_after f ev = false.
Proof.
  intros Hf Hst.
  assert (Hearly : early = firstn (pred (fn_index f)) stages).
  { cbn in Hf. repeat (destruct Hf as [<-|Hf]); try contradiction;
      repeat (destruct early as [|? early];
              [ cbn in Hst; try discriminate; try reflexivity
              | cbn in Hst; try discriminate; injection Hst as <- Hst ]);
      destruct early; discriminate. }
  subst early. cbn in Hf.
  repeat (destruct Hf as [<-|Hf]); try contradiction; revert ev; clear;
    intros ev; event_cases ev.
Qed.

(** C5 (amended): the GitOps stage waits for readiness with a command of the
    script's own, bounded by 300 seconds; the ingress and autoscaler stages
    set no bound and leave waiting to the install command.  For each of the
    three stages, when the command that waits for readiness fails every time
    it is issued (a timeout included), the run ends with a non-zero exit
    status and no later stage is entered. *)
Theorem failed_readiness_aborts_run :
  (runner_bounds fn_install_argocd = [300] /\
   install_waits fn_install_argocd = [] /\
   runner_bounds fn_install_ingress_nginx = [] /\
   install_waits fn_install_ingress_nginx = [None] /\
   runner_bounds fn_install_keda = [] /\
   install_waits fn_install_keda = [None]) /\
  forall (e : Env) (w : World) (f : Fn) (c : Cmd),
    readiness_command f = Some c ->
    (forall t, oracle e t c = Fails) ->
    fst (run_script e (boot w)) <> 0 /\
    existsb (entered_after f) (trace (snd (run_script e (boot w)))) = false.
Proof.
  split; [vm_compute; intuition|].
  intros e w f c Hc Hfail.
  assert (Hf : In f installers).
  { destruct f; try discriminate; cbn; auto. }
  assert (Hst : exists early late, stages = (early ++ f :: late)%list).
  { cbn in Hf. repeat (destruct Hf as [<-|Hf]); try contradiction.
    - exists [fn_check_prerequisites; fn_create_cluster]. eexists. reflexivity.
    - exists [fn_check_prerequisites; fn_create_cluster; fn_install_ingress_nginx].
      eexists. reflexivity.
    - exists early_stages. eexists. reflexivity. }
  destruct Hst as (early & late & Hst).
  destruct (script e (boot w)) as [r s2] eqn:Hs.
  rewrite (run_script_eq _ _ _ _ Hs). cbn [fst snd].
  destruct (cleanup_trace e (trap_start s2)) as (_ & cevs & -> & Hr).
  unfold trap_start. st_simpl.
  assert (Hc' : existsb (entered_after f) (Enter fn_cleanup :: cevs) = false).
  { cbn [existsb entered_after fn_index]. rewrite Nat.ltb_irrefl, andb_false_r.
    apply (forallb_none is_reap); [|exact Hr]. intros [] Hev; try discriminate; reflexivity. }
  destruct (script_pivot _ _ _ _ early late f Hst Hs) as (_ & A & B & HA & HB & Hcase).
  assert (HA' : existsb (entered_after f) (prelude ++ A) = false).
  { rewrite existsb_app.
    replace (existsb (entered_after f) prelude) with false by reflexivity.
    cbn [orb].
    apply (forallb_none (stage_event early)); [|exact HA].
    intros ev Hev. apply (earlier_stages_not_after f early late); assumption. }
  destruct Hcase as [(Ht & Hab & ->)|(s4 & r5 & s5 & evs & Hg & Hi & Ht4 & Ht5 & Ht2 & Hr5)].
  - split; [apply aborting_exit_status; exact Hab|].
    rewrite Ht. cbn [boot trace app].
    replace (((prelude ++ A) ++ [Enter fn_cleanup]) ++ cevs)%list
      with ((prelude ++ A) ++ Enter fn_cleanup :: cevs)%list
      by (repeat rewrite <- app_assoc; reflexivity).
    rewrite existsb_app, HA', Hc'. reflexivity.
  - pose proof (failed_readiness_stops_stage _ _ _ _ _ _ Hc Hfail Hg) as Hne.
    destruct Hr5 as [->|(-> & Hab & ->)]; [contradiction|].
    split; [apply aborting_exit_status; exact Hab|].
    rewrite Ht2, Ht5, Ht4. cbn [boot trace app].
    replace (((((prelude ++ A) ++ Enter f :: evs) ++ []) ++ [Enter fn_cleanup]) ++ cevs)%list
      with ((prelude ++ A) ++ (Enter f :: evs) ++ Enter fn_cleanup :: cevs)%list
      by (rewrite app_nil_r; repeat rewrite <- app_assoc; reflexivity).
    rewrite existsb_app, HA'. rewrite existsb_app, Hc'.
    cbn [existsb entered_after orb].
    rewrite Nat.ltb_irrefl, andb_false_l. cbn [orb]. rewrite orb_false_r.
    apply (forallb_none (inner f)); [|exact Hi].
    intros [] Hev; try discriminate; reflexivity.
Qed.

Lemma failed_readiness_aborts_run_witness :
  fst (run_script argocd_never_ready (boot bare)) <> 0 /\
  existsb (entered_after fn_install_argocd)
          (trace (snd (run_script argocd_never_ready (boot bare)))) = false.
Proof.
  apply (proj2 failed_readiness_aborts_run argocd_never_ready bare
               fn_install_argocd kubectl_wait_argocd).
  - reflexivity.
  - intros t. reflexivity.
Defined.

(** ** Prerequisites *)

Lemma check_prerequisites_missing (e : Env) (s : St) (tool : string) :
  first_missing e = Some tool ->
  exists s', invoke fn_check_prerequisites e s = (Exit 1, s') /\
             trace s' = (trace s ++ failed_check tool)%list.
Proof.
  intros Hm. unfold first_missing in Hm. cbn [find required_tools] in Hm.
  destruct (invoke fn_check_prerequisites e s) as [r s'] eqn:Hrun.
  unfold invoke in Hrun. cbn [body_of] in Hrun. unfold check_prerequisites in Hrun.
  sh_inv.
  all: repeat match goal with
              | H : on_path _ _ = _ |- _ => rewrite H in Hm; clear H
              end.
  all: cbn [negb] in Hm; try discriminate.
  all: injection Hm as <-.
  all: eexists; split; [reflexivity|].
  all: st_simpl; repeat rewrite <- app_assoc; reflexivity.
Qed.

Lemma check_prerequisites_present (e : Env) (s : St) :
  first_missing e = None ->
  invoke fn_check_prerequisites e s =
  (Status 0,
   emit (Log SUCCESS "All prerequisites are installed")
     (emit (Log INFO "Checking prerequisites...")
        (emit (Enter fn_check_prerequisites) s))).
Proof.
  intros Hm. unfold first_missing in Hm. cbn [find required_tools] in Hm.
  destruct (invoke fn_check_prerequisites e s) as [r s'] eqn:Hrun.
  unfold invoke in Hrun. cbn [body_of] in Hrun. unfold check_prerequisites in Hrun.
  sh_inv.
  all: repeat match goal with
              | H : on_path _ _ = _ |- _ => rewrite H in Hm; clear H
              end.
  all: cbn [negb] in Hm; try discriminate.
  reflexivity.
Qed.

(** C7: when a required tool is missing, the run stops in
    [check_prerequisites] at the first missing tool in the order k3d, kubectl,
    helm: the error line names that tool, the exit status is 1, and nothing
    else happens before the EXIT trap (no other stage is entered, no external
    command is issued).  When every required tool is present, the check
    succeeds. *)
Theorem check_prerequisites_fail_fast (e : Env) (w : World) :
  (forall tool, first_missing e = Some tool ->
     fst (run_script e (boot w)) = 1 /\
     exists cevs,
       trace (snd (run_script e (boot w))) =
         (prelude ++ failed_check tool ++ Enter fn_cleanup :: cevs)%list /\
       forallb is_reap cevs = true) /\
  (first_missing e = None ->
     forall s, exists s',
       invoke fn_check_prerequisites e s = (Status 0, s') /\
       trace s' = (trace s ++ [Enter fn_check_prerequisites;
                               Log INFO "Checking prerequisites...";
                               Log SUCCESS "All prerequisites are installed"])%list).
Proof.
  split.
  - intros tool Hm.
    destruct (script e (boot w)) as [r s2] eqn:Hs.
    rewrite (run_script_eq _ _ _ _ Hs). cbn [fst snd].
    destruct (cleanup_trace e (trap_start s2)) as (_ & cevs & -> & Hr).
    unfold trap_start. st_simpl.
    apply script_inv in Hs.
    destruct Hs as (done & rest & sm & Hsplit & Hc & Hend).
    destruct (check_prerequisites_missing e (main_start (boot w)) tool Hm)
      as (s' & Hchk & Htr).
    destruct done as [|f done].
    + inversion Hc; subst. cbn [app] in Hsplit.
      destruct Hend as [(-> & _)|(f & rest' & -> & Hf & _)]; [discriminate|].
      injection Hsplit as <- _. rewrite Hchk in Hf. injection Hf as <- <-.
      split; [reflexivity|]. exists cevs. split; [|exact Hr].
      rewrite Htr. unfold main_start, prelude. st_simpl. cbn [boot trace app].
      repeat rewrite <- app_assoc. reflexivity.
    + injection Hsplit as <- _.
      inversion Hc as [|? ? ? s1 ? Hf _]; subst. rewrite Hchk in Hf. discriminate.
  - intros Hm s. eexists. split; [apply check_prerequisites_present; exact Hm|].
    st_simpl. repeat rewrite <- app_assoc. reflexivity.
Qed.

Lemma check_prerequisites_fail_fast_witness :
  fst (run_script no_kubectl (boot bare)) = 1 /\
  exists cevs,
    trace (snd (run_script no_kubectl (boot bare))) =
      (prelude ++ failed_check "kubectl" ++ Enter fn_cleanup :: cevs)%list /\
    forallb is_reap cevs = true.
Proof.
  apply (proj1 (check_prerequisites_fail_fast no_kubectl bare) "kubectl").
  reflexivity.
Defined.

(** ** The bootstrap credential *)

(** C6, as stated, fails: when the secret is not yet there at the moment the
    GitOps stage reads it and appears two steps later, the script has read it
    once only; the run still succeeds, and the report shows an empty
    password instead of the credential. *)
Lemma late_secret_is_not_reported :
  let run := run_script late_secret (boot bare) in
  fst run = 0 /\
  filter is_get_secret (trace (snd run)) = [Ran 13 kubectl_get_admin_secret Fails] /\
  secret_at late_secret 13 = None /\
  secret_at late_secret 14 = None /\
  secret_at late_secret 15 = Some "s3cr3t" /\
  existsb (is_echo (password_line "s3cr3t")) (trace (snd run)) = false /\
  existsb (is_echo (password_line "")) (trace (snd run)) = true.
Proof. vm_compute. intuition. Qed.

Lemma plain_inner_quiet (f : Fn) (ev : Event) :
  In f plain_stages ->
  inner f ev = true ->
  is_get_secret ev = false /\ is_other_warning ev = false.
Proof.
  intros Hf. cbn in Hf.
  repeat (destruct Hf as [<-|Hf]); try contradiction;
    destruct ev as [g|l msg|?|? c o|? ?|? ?|?|?|g];
    try (intros; split; reflexivity); try discriminate.
  all: try (destruct l; cbn [inner is_other_warning is_get_secret];
            first [ intros; split; reflexivity
                  | discriminate
                  | intros H; rewrite H; split; reflexivity ]).
  all: destruct c; cbn [inner is_argocd is_get_secret is_other_warning];
       first [ intros; split; reflexivity | discriminate ].
Qed.

Lemma existsb_false_of (P Q : Event -> bool) (l : list Event) :
  (forall ev, P ev = true -> Q ev = false) ->
  forallb P l = true -> filter Q l = [].
Proof.
  intros HPQ. induction l as [|ev l IH]; cbn; [reflexivity|].
  intros H. apply andb_true_iff in H. destruct H as (H1 & H2).
  rewrite (HPQ _ H1). exact (IH H2).
Qed.

(** A stage that has nothing to do with the credential. *)
Lemma plain_stage (f : Fn) (e : Env) (s s' : St) (r : Res) :
  In f plain_stages ->
  invoke f e s = (r, s') ->
  exists evs,
    trace s' = (trace s ++ Enter f :: evs)%list /\
    filter is_get_secret evs = [] /\
    existsb is_other_warning evs = false /\
    ARGOCD_PASSWORD s' = ARGOCD_PASSWORD s.
Proof.
  intros Hf Hrun.
  assert (Hin : In f stages).
  { cbn in Hf. cbn. intuition. }
  destruct (invoke_frame _ _ _ _ _ Hin Hrun) as (_ & (evs & He & Hi) & _ & Hpw).
  exists evs. split; [exact He|]. split; [|split].
  - apply (existsb_false_of (inner f)); [|exact Hi].
    intros ev Hev. apply (plain_inner_quiet f); assumption.
  - apply (forallb_none (inner f)); [|exact Hi].
    intros ev Hev. apply (plain_inner_quiet f); assumption.
  - apply Hpw. cbn in Hf. repeat (destruct Hf as [<-|Hf]); try contradiction; reflexivity.
Qed.

(** The GitOps stage reads the secret once and keeps what that read gave. *)
Lemma install_argocd_secret (e : Env) (s s' : St) :
  invoke fn_install_argocd e s = (Status 0, s') ->
  exists tm o evs,
    trace s' = (trace s ++ Enter fn_install_argocd :: evs)%list /\
    filter is_get_secret evs = [Ran tm kubectl_get_admin_secret o] /\
    existsb is_other_warning evs = false /\
    ARGOCD_PASSWORD s' = secret_read e tm.
Proof.
  unfold invoke. cbn [body_of]. unfold install_argocd. intros Hrun.
  sh_inv.
  all: st_simpl; repeat rewrite <- app_assoc; cbn [app].
  all: do 3 eexists; split; [reflexivity|].
  all: split; [reflexivity|]; split; reflexivity.
Qed.

(** A deploy stage that completes warns about nothing and leaves the
    credential alone. *)
Lemma deploy_application_quiet (e : Env) (s s' : St) :
  invoke fn_deploy_application e s = (Status 0, s') ->
  exists evs,
    trace s' = (trace s ++ Enter fn_deploy_application :: evs)%list /\
    filter is_get_secret evs = [] /\
    existsb is_other_warning evs = false /\
    ARGOCD_PASSWORD s' = ARGOCD_PASSWORD s.
Proof.
  unfold invoke. cbn [body_of]. unfold deploy_application. intros Hrun.
  sh_inv.
  all: st_simpl; repeat rewrite <- app_assoc; cbn [app].
  all: eexists; split; [reflexivity|].
  all: split; [reflexivity|]; split; reflexivity.
Qed.

(** The report shows the value of [ARGOCD_PASSWORD]. *)
Lemma display_info_password (e : Env) (s s' : St) (r : Res) (evs : list Event) :
  invoke fn_display_info e s = (r, s') ->
  trace s' = (trace s ++ Enter fn_display_info :: evs)%list ->
  existsb (is_echo (password_line (ARGOCD_PASSWORD s))) evs = true.
Proof.
  unfold invoke. cbn [body_of]. unfold display_info. intros Hrun.
  sh_inv.
  all: st_simpl; repeat rewrite <- app_assoc; cbn [app].
  all: intros He; apply app_inv_head in He; injection He as <-.
  all: apply existsb_exists; exists (Echo (password_line (ARGOCD_PASSWORD s))).
  all: split; [cbn [In]; repeat (first [left; reflexivity | right])
              | cbn [is_echo]; apply String.eqb_refl].
Qed.

(** A run that exits with status 0 completed every stage. *)
Lemma successful_run (e : Env) (s : St) :
  fst (run_script e s) = 0 ->
  exists s7 cevs,
    chain e stages (main_start s) s7 /\
    trace (snd (run_script e s)) =
      (trace s7 ++ Log SUCCESS main_done :: Enter fn_cleanup :: cevs)%list /\
    forallb is_reap cevs = true.
Proof.
  destruct (script e s) as [r s2] eqn:Hs.
  rewrite (run_script_eq _ _ _ _ Hs). cbn [fst snd]. intros Hcode.
  destruct (cleanup_trace e (trap_start s2)) as (_ & cevs & -> & Hr).
  apply script_inv in Hs.
  destruct Hs as (done & rest & sm & Hsplit & Hc & Hend).
  destruct Hend as [(-> & -> & ->)|(f & rest' & _ & _ & Hab)].
  - rewrite app_nil_r in Hsplit. subst done.
    exists sm, cevs. split; [exact Hc|]. split; [|exact Hr].
    unfold trap_start. st_simpl. repeat rewrite <- app_assoc. reflexivity.
  - apply aborting_exit_status in Hab. contradiction.
Qed.

Lemma secret_read_present (e : Env) (tm : nat) (v : string) :
  oracle e tm kubectl_get_admin_secret = Succeeds ->
  secret_at e tm = Some v -> secret_read e tm = v.
Proof. unfold secret_read. intros -> ->. reflexivity. Qed.

Lemma secret_read_absent (e : Env) (tm : nat) :
  secret_at e tm = None -> secret_read e tm = "".
Proof.
  unfold secret_read. intros ->.
  destruct (oracle e tm kubectl_get_admin_secret); reflexivity.
Qed.

(** The GitOps stage reads the secret with the command that follows the
    wait for the server deployment, and nowhere else. *)
Lemma install_argocd_secret_after_wait (e : Env) (s s' : St) :
  invoke fn_install_argocd e s = (Status 0, s') ->
  exists tw o a b,
    trace s' = (trace s ++ Enter fn_install_argocd :: a ++
                  Ran tw kubectl_wait_argocd Succeeds ::
                  Ran (S tw) kubectl_get_admin_secret o :: b)%list /\
    filter is_get_secret a = [] /\
    filter is_get_secret b = [] /\
    existsb is_other_warning a = false /\
    existsb is_other_warning b = false /\
    ARGOCD_PASSWORD s' = secret_read e (S tw).
Proof.
  unfold invoke. cbn [body_of]. unfold install_argocd. intros Hrun.
  sh_inv.
  all: st_simpl; repeat rewrite <- app_assoc; cbn [app].
  all: eexists; eexists; eexists [_; _; _; _; _]; eexists.
  all: cbn [app]; split; [reflexivity|].
  all: repeat split; reflexivity.
Qed.

(** C6 (amended): the credential is read once, right after the server
    deployment is reported available, and it is not polled.  In every run
    that exits with status 0 the secret was queried exactly once, by the
    command issued next after the wait for the ArgoCD server deployment
    returned successfully; if it could be read at that moment the report
    shows its value, and if it was not there yet the report shows an empty
    password; in both cases the run emits no warning about it (the only
    warning a successful run can emit is the one about an existing
    cluster). *)
Theorem credential_read_once (e : Env) (w : World) :
  fst (run_script e (boot w)) = 0 ->
  exists pre tw o post,
    trace (snd (run_script e (boot w)))
      = (pre ++ Ran tw kubectl_wait_argocd Succeeds ::
                Ran (S tw) kubectl_get_admin_secret o :: post)%list /\
    filter is_get_secret (trace (snd (run_script e (boot w))))
      = [Ran (S tw) kubectl_get_admin_secret o] /\
    (forall v, oracle e (S tw) kubectl_get_admin_secret = Succeeds ->
               secret_at e (S tw) = Some v ->
               existsb (is_echo (password_line v))
                       (trace (snd (run_script e (boot w)))) = true) /\
    (secret_at e (S tw) = None ->
     existsb (is_echo (password_line ""))
             (trace (snd (run_script e (boot w)))) = true) /\
    existsb is_other_warning (trace (snd (run_script e (boot w)))) = false.
Proof.
  intros Hcode.
  destruct (successful_run _ _ Hcode) as (s7 & cevs & Hc & -> & Hr).
  unfold stages in Hc.
  repeat match goal with
         | H : chain _ (_ :: _) _ _ |- _ => inversion H; clear H; subst
         | H : chain _ [] _ _ |- _ => inversion H; clear H; subst
         end.
  match goal with H : invoke fn_check_prerequisites _ _ = _ |- _ =>
    pose proof (plain_stage fn_check_prerequisites _ _ _ _ ltac:(cbn; tauto) H) as (ev1 & T1 & G1 & W1 & P1) end.
  match goal with H : invoke fn_create_cluster _ _ = _ |- _ =>
    pose proof (plain_stage fn_create_cluster _ _ _ _ ltac:(cbn; tauto) H) as (ev2 & T2 & G2 & W2 & P2) end.
  match goal with H : invoke fn_install_ingress_nginx _ _ = _ |- _ =>
    pose proof (plain_stage fn_install_ingress_nginx _ _ _ _ ltac:(cbn; tauto) H) as (ev3 & T3 & G3 & W3 & P3) end.
  match goal with H : invoke fn_install_keda _ _ = _ |- _ =>
    pose proof (plain_stage fn_install_keda _ _ _ _ ltac:(cbn; tauto) H) as (ev4 & T4 & G4 & W4 & P4) end.
  match goal with H : invoke fn_install_argocd _ _ = _ |- _ =>
    pose proof (install_argocd_secret_after_wait _ _ _ H)
      as (tw & o & a5 & b5 & T5 & Ga & Gb & Wa & Wb & P5) end.
  match goal with H : invoke fn_deploy_application _ _ = _ |- _ =>
    pose proof (deploy_application_quiet _ _ _ H) as (ev6 & T6 & G6 & W6 & P6) end.
  match goal with H : invoke fn_display_info _ _ = _ |- _ =>
    pose proof (plain_stage fn_display_info _ _ _ _ ltac:(cbn; tauto) H) as (ev7 & T7 & G7 & W7 & P7);
    pose proof (display_info_password _ _ _ _ _ H T7) as D7 end.
  rewrite P6, P5 in D7.
  assert (Hc1 : filter is_get_secret cevs = []).
  { apply (existsb_false_of is_reap); [|exact Hr]. intros [] Hev; try discriminate; reflexivity. }
  assert (Hc2 : existsb is_other_warning cevs = false).
  { apply (forallb_none is_reap); [|exact Hr]. intros [] Hev; try discriminate; reflexivity. }
  assert (Htr0 : trace (main_start (boot w)) = prelude) by reflexivity.
  rewrite T7, T6, T5, T4, T3, T2, T1, Htr0.
  exists (((((prelude ++ Enter fn_check_prerequisites :: ev1) ++
              Enter fn_create_cluster :: ev2) ++
             Enter fn_install_ingress_nginx :: ev3) ++
            Enter fn_install_keda :: ev4) ++ Enter fn_install_argocd :: a5)%list,
         tw, o,
         (b5 ++ (Enter fn_deploy_application :: ev6) ++
            (Enter fn_display_info :: ev7) ++
            Log SUCCESS main_done :: Enter fn_cleanup :: cevs)%list.
  assert (Hecho : existsb (is_echo (password_line (secret_read e (S tw))))
                    ((((((((prelude ++ Enter fn_check_prerequisites :: ev1) ++
                            Enter fn_create_cluster :: ev2) ++
                           Enter fn_install_ingress_nginx :: ev3) ++
                          Enter fn_install_keda :: ev4) ++
                         Enter fn_install_argocd :: a5 ++
                           Ran tw kubectl_wait_argocd Succeeds ::
                           Ran (S tw) kubectl_get_admin_secret o :: b5) ++
                        Enter fn_deploy_application :: ev6) ++
                       Enter fn_display_info :: ev7) ++
                      Log SUCCESS main_done :: Enter fn_cleanup :: cevs) = true).
  { rewrite existsb_app. apply orb_true_iff. left.
    rewrite existsb_app. apply orb_true_iff. right.
    cbn [existsb is_echo orb]. exact D7. }
  split; [|split; [|split; [|split]]].
  - repeat rewrite <- app_assoc. cbn [app]. repeat rewrite <- app_assoc.
    cbn [app]. reflexivity.
  - rewrite !filter_app. cbn [filter is_get_secret prelude app].
    rewrite !filter_app. cbn [filter is_get_secret kubectl_wait_argocd
                                kubectl_get_admin_secret app].
    rewrite G1, G2, G3, G4, Ga, Gb, G6, G7, Hc1. reflexivity.
  - intros v Ho Hv. rewrite <- (secret_read_present _ _ _ Ho Hv). exact Hecho.
  - intros Hv. rewrite <- (secret_read_absent _ _ Hv). exact Hecho.
  - rewrite !existsb_app. cbn [existsb is_other_warning prelude orb].
    rewrite !existsb_app. cbn [existsb is_other_warning orb].
    rewrite W1, W2, W3, W4, Wa, Wb, W6, W7, Hc2. reflexivity.
Qed.

Lemma credential_read_once_witness :
  exists pre tw o post,
    trace (snd (run_script calm (boot bare)))
      = (pre ++ Ran tw kubectl_wait_argocd Succeeds ::
                Ran (S tw) kubectl_get_admin_secret o :: post)%list /\
    filter is_get_secret (trace (snd (run_script calm (boot bare))))
      = [Ran (S tw) kubectl_get_admin_secret o] /\
    (forall v, oracle calm (S tw) kubectl_get_admin_secret = Succeeds ->
               secret_at calm (S tw) = Some v ->
               existsb (is_echo (password_line v))
                       (trace (snd (run_script calm (boot bare)))) = true) /\
    (secret_at calm (S tw) = None ->
     existsb (is_echo (password_line ""))
             (trace (snd (run_script calm (boot bare)))) = true) /\
    existsb is_other_warning (trace (snd (run_script calm (boot bare)))) = false.
Proof.
  apply (credential_read_once calm bare).
  vm_compute. reflexivity.
Defined.

(** ** The environment validator *)

Section EnvValidationProperties.

Import EnvValidation.

Variable isURL : bool -> string -> bool.

Lemma keys_put (o : Obj) (k : string) (v : Value) : In k (keys (put o k v)).
Proof.
  induction o as [|[k' v'] o IH]; cbn; [auto|].
  destruct (String.eqb_spec k k') as [->|_]; cbn; auto.
Qed.

Lemma keys_put_keeps (o : Obj) (k k' : string) (v : Value) :
  In k (keys o) -> In k (keys (put o k' v)).
Proof.
  induction o as [|[k0 v0] o IH]; cbn; [contradiction|].
  intros [<-|H]; destruct (String.eqb k' k0); cbn; auto.
Qed.

Lemma not_reserved_not_passed_over (inst : Obj) (k : string) :
  reserved_name k = false -> passed_over inst k = false.
Proof.
  unfold reserved_name, passed_over. cbn [existsb].
  intros H. apply orb_false_iff in H. destruct H as (Hp & Hf).
  rewrite Hp, Hf. cbn [existsb] in Hf. apply orb_false_iff in Hf.
  destruct Hf as (-> & _). reflexivity.
Qed.

(** Every property of the plain object whose name is not reserved is a
    property of the instance. *)
Lemma plainToClass_keys (config : Schema) (plain : Obj)
      (options : ClassTransformOptions) (k : string) :
  reserved_name k = false ->
  In k (keys plain) -> In k (keys (plainToClass config plain options)).
Proof.
  intros Hres. unfold plainToClass. generalize (construct config) as inst.
  assert (Hkeep : forall l inst, In k (keys inst) ->
            In k (keys (fold_left
                          (fun inst kv =>
                             if passed_over inst (fst kv) then inst
                             else
                               put inst (fst kv)
                                 match find_property config (fst kv) with
                                 | Some p => convert p (snd kv)
                                 | None => snd kv
                                 end) l inst))).
  { induction l as [|kv l IH]; cbn; intros inst H; [exact H|].
    apply IH. destruct (passed_over inst (fst kv)); [exact H|].
    apply keys_put_keeps. exact H. }
  induction plain as [|[k' v'] plain IH]; cbn; intros inst H; [contradiction|].
  destruct H as [<-|H].
  - apply Hkeep. rewrite (not_reserved_not_passed_over _ _ Hres). apply keys_put.
  - apply IH. exact H.
Qed.

Lemma undeclared_not_whitelisted (config : Schema) (k : string) :
  ~ In k (map prop_name config) -> whitelisted config k = false.
Proof.
  unfold whitelisted. induction config as [|p config IH]; cbn; [reflexivity|].
  intros H. destruct (String.eqb_spec k (prop_name p)) as [->|_].
  - exfalso. apply H. left. reflexivity.
  - apply IH. intros Hk. apply H. right. exact Hk.
Qed.

(** An input property that is not declared, and whose name is not
    reserved, is reported. *)
Lemma undeclared_key_throws (config : Schema) (envVars : Obj) (k : string) :
  In k (keys envVars) -> reserved_name k = false ->
  whitelisted config k = false ->
  exists message, validateEnvironment isURL config envVars = inl message.
Proof.
  intros Hk Hres Hw. unfold validateEnvironment.
  set (validatedConfig := plainToClass config envVars (mkTransformOptions true)).
  assert (Hin : In k (not_allowed config validatedConfig)).
  { unfold not_allowed. apply filter_In. split.
    - apply plainToClass_keys; assumption.
    - rewrite Hw. reflexivity. }
  unfold validateSync. cbn [whitelist forbidNonWhitelisted andb].
  destruct (not_allowed config validatedConfig) as [|k0 ks]; [contradiction|].
  cbn [map app List.length Nat.ltb Nat.leb]. eexists. reflexivity.
Qed.

(** C9 (amended): an input with a property that the schema class does not
    declare, and whose name is not one of the names that [plainToClass]
    passes over, makes [validateEnvironment] throw, whatever the other
    properties are; so a configuration is returned only for inputs all of
    whose properties are declared or carry such a name. *)
Theorem validateEnvironment_forbids_undeclared (config : Schema) (envVars : Obj) :
  (forall k, In k (keys envVars) -> reserved_name k = false ->
     ~ In k (map prop_name config) ->
     exists message, validateEnvironment isURL config envVars = inl message) /\
  (forall validated, validateEnvironment isURL config envVars = inr validated ->
     forall k, In k (keys envVars) ->
       reserved_name k = true \/ In k (map prop_name config)).
Proof.
  split.
  - intros k Hk Hres Hundecl.
    apply (undeclared_key_throws _ _ k Hk Hres).
    apply undeclared_not_whitelisted. exact Hundecl.
  - intros validated Hok k Hk.
    destruct (reserved_name k) eqn:Hres; [left; reflexivity|right].
    destruct (in_dec string_dec k (map prop_name config)) as [Hd|Hd]; [exact Hd|].
    destruct (undeclared_key_throws _ _ k Hk Hres
                (undeclared_not_whitelisted _ _ Hd)) as (message & Hm).
    congruence.
Qed.

End EnvValidationProperties.

(** C9, as stated, fails: [constructor] and [toString] are properties of
    the input that [BaseEnvironmentConfig] does not declare, and
    [validateEnvironment] returns a configuration, the one of an empty
    input. *)
Lemma validateEnvironment_passes_over_constructor :
  ~ In "constructor" (map EnvValidation.prop_name EnvValidation.BaseEnvironmentConfig) /\
  ~ In "toString" (map EnvValidation.prop_name EnvValidation.BaseEnvironmentConfig) /\
  EnvValidation.validateEnvironment any_url EnvValidation.BaseEnvironmentConfig
    env_with_constructor
  = inr [("NODE_ENV", EnvValidation.VString "development");
         ("PORT", EnvValidation.VNumber 3000);
         ("LOG_LEVEL", EnvValidation.VString "info")].
Proof.
  repeat split;
    try (cbn; intros H; repeat (destruct H as [H|H]; [discriminate|]); exact H).
Qed.

Lemma validateEnvironment_forbids_undeclared_witness :
  exists message,
    EnvValidation.validateEnvironment any_url EnvValidation.BaseEnvironmentConfig
      env_with_home = inl message.
Proof.
  apply (proj1 (validateEnvironment_forbids_undeclared any_url
                  EnvValidation.BaseEnvironmentConfig env_with_home) "HOME").
  - right. left. reflexivity.
  - reflexivity.
  - cbn. intros H. repeat (destruct H as [H|H]; [discriminate|]). exact H.
Defined.

(** The message of the error for an undeclared variable, and the
    configuration returned for a valid environment. *)
Example validateEnvironment_rejects_home :
  EnvValidation.validateEnvironment any_url EnvValidation.BaseEnvironmentConfig
    env_with_home
  = inl "Environment validation failed: property HOME should not exist".
Proof. vm_compute. reflexivity. Qed.

Example validateEnvironment_accepts_port :
  EnvValidation.validateEnvironment any_url EnvValidation.BaseEnvironmentConfig
    [("PORT", EnvValidation.VString "8080")]
  = inr [("NODE_ENV", EnvValidation.VString "development");
         ("PORT", EnvValidation.VNumber 8080);
         ("LOG_LEVEL", EnvValidation.VString "info")].
Proof. vm_compute. reflexivity. Qed.

(** * Further properties of the script *)

(** ** How a stage ends *)

Ltac split_outcomes :=
  repeat match goal with
         | H : ?o <> Interrupted |- _ =>
             destruct o eqn:?; [ | | exfalso; apply H; reflexivity]; clear H
         | H : Return (S _) = Return 1 |- _ => injection H as H; subst
         end.

(** A stage ends with status 0, leaves the shell with status 1, or is cut
    by a signal.  A command that ends the run is the last thing the stage
    did; a stage that returns had none; the stage is cut by a signal exactly
    when one of its commands was. *)
Lemma invoke_outcome (f : Fn) (e : Env) (s s' : St) (r : Res) :
  In f stages ->
  invoke f e s = (r, s') ->
  (r = Status 0 \/ r = Exit 1 \/ r = Signalled) /\
  exists evs,
    trace s' = (trace s ++ Enter f :: evs)%list /\
    fatal_is_last evs = true /\
    (r = Status 0 -> existsb is_fatal evs = false) /\
    existsb is_interrupted evs = is_signalled r /\
    existsb is_main_done evs = false.
Proof.
  intros Hf Hrun. unfold invoke in Hrun.
  cbn [In stages] in Hf.
  repeat (destruct Hf as [<-|Hf]); [..|contradiction];
    cbn [body_of] in Hrun;
    [ unfold check_prerequisites in Hrun
    | unfold create_cluster in Hrun
    | unfold install_ingress_nginx in Hrun
    | unfold install_keda in Hrun
    | unfold install_argocd in Hrun
    | unfold deploy_application in Hrun
    | unfold display_info in Hrun ].
  all: sh_inv.
  all: split_outcomes.
  all: st_simpl; repeat rewrite <- app_assoc; cbn [app].
  all: (split; [auto|]).
  all: eexists; split; [reflexivity|].
  all: repeat split; try reflexivity; try discriminate.
Qed.

Lemma filter_other_idem (l : list (string * nat)) :
  filter other_cluster (filter (fun c => negb (named CLUSTER_NAME c)) l)
  = filter other_cluster l.
Proof.
  unfold other_cluster. induction l as [|c l IH]; cbn [filter]; [reflexivity|].
  destruct (named CLUSTER_NAME c) eqn:E; cbn [negb filter]; [exact IH|].
  rewrite E. cbn [negb]. rewrite IH. reflexivity.
Qed.

(** ** What each stage changes on the machine *)

(** No stage touches a cluster under another name; only [create_cluster]
    changes the clusters and the kubectl context, and it sets the context to
    [cluster_context] or leaves it; only [install_argocd] changes the
    processes and the handle file. *)
Lemma invoke_machine (f : Fn) (e : Env) (s s' : St) (r : Res) :
  In f stages ->
  invoke f e s = (r, s') ->
  filter other_cluster (clusters s') = filter other_cluster (clusters s) /\
  (is_create_cluster f = false ->
   clusters s' = clusters s /\ kube_context s' = kube_context s) /\
  (kube_context s' = kube_context s \/ kube_context s' = Some cluster_context) /\
  (is_create_cluster f = true -> r = Status 0 ->
   kube_context s' = Some cluster_context) /\
  (is_argocd f = false -> procs s' = procs s /\ pid_file s' = pid_file s).
Proof.
  intros Hf Hrun. unfold invoke in Hrun.
  cbn [In stages] in Hf.
  repeat (destruct Hf as [<-|Hf]); [..|contradiction];
    cbn [body_of] in Hrun;
    [ unfold check_prerequisites in Hrun
    | unfold create_cluster in Hrun
    | unfold install_ingress_nginx in Hrun
    | unfold install_keda in Hrun
    | unfold install_argocd in Hrun
    | unfold deploy_application in Hrun
    | unfold display_info in Hrun ].
  all: sh_inv.
  all: st_simpl.
  all: rewrite ?filter_app, ?filter_other_idem; cbn [filter other_cluster]; rewrite ?app_nil_r.
  all: (split; [reflexivity|]).
  all: (split; [first [intros _; split; reflexivity | intros; discriminate]|]).
  all: (split; [first [left; reflexivity | right; reflexivity]|]).
  all: (split; [first [intros _ _; reflexivity | intros; discriminate]|]).
  all: first [intros _; split; reflexivity | intros; discriminate].
Qed.

(** ** From the stages to the run *)

(** What every completed stage adds to the trace, collected over a walk. *)
Lemma chain_collect (P : list Event -> Prop) :
  P [] ->
  (forall a b, P a -> P b -> P (a ++ b)%list) ->
  (forall f e s s', In f stages -> invoke f e s = (Status 0, s') ->
     exists evs, trace s' = (trace s ++ evs)%list /\ P evs) ->
  forall e fs s s', chain e fs s s' -> incl fs stages ->
    exists evs, trace s' = (trace s ++ evs)%list /\ P evs.
Proof.
  intros Hnil Happ Hstage e fs s s' Hc.
  induction Hc as [s|f fs s s1 s' Hf _ IH]; intros Hincl.
  - exists []. rewrite app_nil_r. auto.
  - destruct (Hstage _ _ _ _ (Hincl f (or_introl eq_refl)) Hf) as (ev1 & H1 & P1).
    destruct IH as (ev2 & H2 & P2).
    { intros g Hg. apply Hincl. right. exact Hg. }
    exists (ev1 ++ ev2)%list. split; [|apply Happ; assumption].
    rewrite H2, H1, app_assoc. reflexivity.
Qed.

(** A relation between machine states that every step of a walk keeps. *)
Lemma chain_rel (R : St -> St -> Prop) (ok : Fn -> Prop) :
  (forall s, R s s) ->
  (forall a b c, R a b -> R b c -> R a c) ->
  (forall f e s r s', ok f -> invoke f e s = (r, s') -> R s s') ->
  forall e fs s s', chain e fs s s' -> Forall ok fs -> R s s'.
Proof.
  intros Hrefl Htrans Hstage e fs s s' Hc.
  induction Hc as [s|f fs s s1 s' Hf _ IH]; intros Hok.
  - apply Hrefl.
  - inversion Hok; subst. eapply Htrans; [eapply Hstage; eassumption|auto].
Qed.

Lemma cleanup_machine (e : Env) (s : St) :
  clusters (snd (cleanup e s)) = clusters s /\
  kube_context (snd (cleanup e s)) = kube_context s.
Proof.
  rewrite cleanup_cases.
  destruct (pid_file s) as [[p|t]|]; [destruct (alive s p)|..]; cbn [snd]; st_simpl; auto.
Qed.

(** A relation that the trace, the trap, every stage and [cleanup] keep is
    kept by a whole run. *)
Lemma run_preserves (R : St -> St -> Prop) :
  (forall s, R s s) ->
  (forall a b c, R a b -> R b c -> R a c) ->
  (forall s ev, R s (emit ev s)) ->
  (forall s v, R s (set_trap_exit v s)) ->
  (forall f e s r s', In f stages -> invoke f e s = (r, s') -> R s s') ->
  (forall e s, R s (snd (cleanup e s))) ->
  forall e s, R s (snd (run_script e s)).
Proof.
  intros Hrefl Htrans Hemit Htrap Hstage Hclean e s.
  destruct (script e s) as [r s2] eqn:Hs.
  rewrite (run_script_eq _ _ _ _ Hs). cbn [snd].
  assert (H2 : R s s2).
  { apply script_inv in Hs.
    destruct Hs as (done & rest & sm & Hsplit & Hc & Hend).
    assert (H0 : R s (main_start s)).
    { unfold main_start. eapply Htrans; [apply Htrap|].
      eapply Htrans; [apply Hemit|]. eapply Htrans; [apply Hemit|]. apply Hemit. }
    assert (H1 : R (main_start s) sm).
    { apply (chain_rel R (fun f => In f stages) Hrefl Htrans Hstage _ _ _ _ Hc).
      apply Forall_forall. intros f Hf. rewrite Hsplit. apply in_or_app. left. exact Hf. }
    destruct Hend as [(_ & _ & ->)|(f & rest' & -> & Hf & _)].
    - eapply Htrans; [exact H0|]. eapply Htrans; [exact H1|]. apply Hemit.
    - eapply Htrans; [exact H0|]. eapply Htrans; [exact H1|].
      eapply Hstage; [|exact Hf]. rewrite Hsplit. apply in_or_app. right. left. reflexivity. }
  eapply Htrans; [exact H2|]. unfold trap_start.
  eapply Htrans; [apply Htrap|]. eapply Htrans; [apply Hemit|]. apply Hclean.
Qed.

Lemma fatal_is_last_app (a b : list Event) :
  existsb is_fatal a = false -> fatal_is_last (a ++ b) = fatal_is_last b.
Proof.
  induction a as [|ev a IH]; cbn [app existsb fatal_is_last]; [reflexivity|].
  intros H. apply orb_false_iff in H. destruct H as (-> & H). exact (IH H).
Qed.

Lemma not_fatal_not_interrupted (l : list Event) :
  existsb is_fatal l = false -> existsb is_interrupted l = false.
Proof.
  induction l as [|ev l IH]; cbn [existsb]; [reflexivity|].
  intros H. apply orb_false_iff in H. destruct H as (H1 & H2).
  rewrite (IH H2), orb_false_r.
  destruct ev as [| | |? ? []| | | | |]; try reflexivity. discriminate.
Qed.

(** The trace of the script proper and how it ends. *)
Lemma script_outcome (e : Env) (s s2 : St) (r : Res) :
  script e s = (r, s2) ->
  (r = Status 0 \/ r = Exit 1 \/ r = Signalled) /\
  exists T,
    trace s2 = (trace s ++ T)%list /\
    fatal_is_last T = true /\
    (r = Status 0 -> existsb is_fatal T = false) /\
    existsb is_interrupted T = is_signalled r /\
    existsb is_main_done T = is_status r.
Proof.
  intros Hs. apply script_inv in Hs.
  destruct Hs as (done & rest & sm & Hsplit & Hc & Hend).
  assert (Hincl : incl done stages).
  { rewrite Hsplit. intros g Hg. apply in_or_app. left. exact Hg. }
  destruct (chain_collect
              (fun evs => existsb is_fatal evs = false /\ existsb is_main_done evs = false))
    with (e := e) (fs := done) (s := main_start s) (s' := sm)
    as (A & HA & HAf & HAd); auto.
  { intros a b (Ha1 & Ha2) (Hb1 & Hb2). rewrite !existsb_app, Ha1, Ha2, Hb1, Hb2. auto. }
  { intros f e0 s0 s0' Hf Hrun.
    destruct (invoke_outcome _ _ _ _ _ Hf Hrun) as (_ & evs & He & _ & Hfat & _ & Hd).
    exists (Enter f :: evs). split; [exact He|]. cbn [existsb is_fatal is_main_done orb].
    split; [apply Hfat; reflexivity|exact Hd]. }
  assert (Htr0 : trace (main_start s) = (trace s ++ prelude)%list).
  { unfold main_start, prelude. st_simpl. repeat rewrite <- app_assoc. reflexivity. }
  rewrite Htr0 in HA.
  pose proof (not_fatal_not_interrupted _ HAf) as HAi.
  destruct Hend as [(-> & -> & ->)|(f & rest' & -> & Hf & Hab)].
  - split; [auto|].
    exists (prelude ++ A ++ [Log SUCCESS main_done])%list. st_simpl.
    split; [rewrite HA; repeat rewrite <- app_assoc; reflexivity|].
    rewrite !existsb_app, HAf, HAi, HAd.
    split; [|split; [|split]]; try reflexivity.
    rewrite (fatal_is_last_app prelude) by reflexivity.
    rewrite (fatal_is_last_app A) by exact HAf. reflexivity.
  - assert (Hin : In f stages)
      by (rewrite Hsplit; apply in_or_app; right; left; reflexivity).
    destruct (invoke_outcome _ _ _ _ _ Hin Hf) as (Hr & evs & He & Hlast & Hfat & Hint & Hd).
    assert (Hr' : r = Exit 1 \/ r = Signalled).
    { destruct Hr as [->|Hr]; [contradiction|exact Hr]. }
    split; [auto|].
    exists (prelude ++ A ++ Enter f :: evs)%list.
    split; [rewrite He, HA; repeat rewrite <- app_assoc; reflexivity|].
    rewrite !existsb_app, HAi, HAd. cbn [existsb is_interrupted is_main_done orb].
    rewrite Hint, Hd.
    split; [|split; [|split]].
    + rewrite (fatal_is_last_app prelude) by reflexivity.
      rewrite (fatal_is_last_app A) by exact HAf. exact Hlast.
    + intros ->. destruct Hr' as [Hr'|Hr']; discriminate.
    + reflexivity.
    + destruct Hr' as [->| ->]; reflexivity.
Qed.

(** ** Exit status and fail-fast *)

Lemma reap_not_fatal (cevs : list Event) :
  forallb is_reap cevs = true ->
  existsb is_fatal (Enter fn_cleanup :: cevs) = false /\
  existsb is_interrupted (Enter fn_cleanup :: cevs) = false /\
  existsb is_main_done (Enter fn_cleanup :: cevs) = false.
Proof.
  intros Hr. cbn [existsb is_fatal is_interrupted is_main_done orb].
  repeat split; apply (forallb_none is_reap); try exact Hr;
    intros [] Hev; try discriminate; reflexivity.
Qed.

(** With the status of a failed command taken to be 1 and a signal
    reported as 143, these are the exit statuses of a run. *)
Lemma run_exit_cases (e : Env) (w : World) :
  (fst (run_script e (boot w)) = 0 \/ fst (run_script e (boot w)) = 1 \/
   fst (run_script e (boot w)) = 143) /\
  (fst (run_script e (boot w)) = 0 <->
   existsb is_main_done (trace (snd (run_script e (boot w)))) = true) /\
  (fst (run_script e (boot w)) = 143 <->
   existsb is_interrupted (trace (snd (run_script e (boot w)))) = true).
Proof.
  destruct (script e (boot w)) as [r s2] eqn:Hs.
  rewrite (run_script_eq _ _ _ _ Hs). cbn [fst snd].
  destruct (cleanup_trace e (trap_start s2)) as (_ & cevs & -> & Hr).
  destruct (reap_not_fatal _ Hr) as (_ & Hci & Hcd).
  destruct (script_outcome _ _ _ _ Hs) as (Hres & T & HT & _ & _ & Hint & Hdone).
  unfold trap_start. st_simpl. rewrite HT. cbn [boot trace app].
  replace ((T ++ [Enter fn_cleanup]) ++ cevs)%list
    with (T ++ Enter fn_cleanup :: cevs)%list
    by (rewrite <- app_assoc; reflexivity).
  rewrite !existsb_app, Hci, Hcd, Hint, Hdone, !orb_false_r.
  destruct Hres as [->|[->| ->]]; cbn; repeat split; auto; try discriminate.
Qed.

(** X6: a run exits with status 0 exactly when the last line of [main] was
    printed; a run in which a command was interrupted, or failed without
    being one of the three whose status the script ignores, does not exit
    with status 0. *)
Theorem run_exit_status (e : Env) (w : World) :
  (fst (run_script e (boot w)) = 0 <->
   existsb is_main_done (trace (snd (run_script e (boot w)))) = true) /\
  (existsb is_fatal (trace (snd (run_script e (boot w)))) = true ->
   fst (run_script e (boot w)) <> 0).
Proof.
  split; [apply run_exit_cases|].
  destruct (script e (boot w)) as [r s2] eqn:Hs.
  rewrite (run_script_eq _ _ _ _ Hs). cbn [fst snd].
  destruct (cleanup_trace e (trap_start s2)) as (_ & cevs & -> & Hr).
  destruct (reap_not_fatal _ Hr) as (Hcf & _ & _).
  destruct (script_outcome _ _ _ _ Hs) as (Hres & T & HT & _ & Hfat & _ & _).
  unfold trap_start. st_simpl. rewrite HT. cbn [boot trace app].
  replace ((T ++ [Enter fn_cleanup]) ++ cevs)%list
    with (T ++ Enter fn_cleanup :: cevs)%list
    by (rewrite <- app_assoc; reflexivity).
  rewrite existsb_app, Hcf, orb_false_r.
  intros HfT.
  destruct Hres as [->|[->| ->]]; cbn; try discriminate.
  rewrite (Hfat eq_refl) in HfT. discriminate.
Qed.

Lemma run_exit_status_witness :
  fst (run_script argocd_never_ready (boot bare)) <> 0.
Proof.
  apply (proj2 (run_exit_status argocd_never_ready bare)). vm_compute. reflexivity.
Defined.

Lemma fatal_split (T C pre post : list Event) (ev : Event) :
  fatal_is_last T = true ->
  existsb is_fatal C = false ->
  (pre ++ ev :: post = T ++ C)%list ->
  is_fatal ev = true ->
  T = (pre ++ [ev])%list /\ post = C.
Proof.
  intros HT HC Heq Hev.
  assert (HnotC : forall a b, C = (a ++ ev :: b)%list -> False).
  { intros a b ->. rewrite existsb_app in HC. cbn [existsb] in HC.
    rewrite Hev, orb_true_l, orb_true_r in HC. discriminate. }
  revert T HT Heq. induction pre as [|a pre IH]; intros T HT Heq; cbn [app] in Heq.
  - destruct T as [|x T]; cbn [app] in Heq.
    + exfalso. apply (HnotC [] post). symmetry. exact Heq.
    + injection Heq as <- Heq. cbn [fatal_is_last] in HT. rewrite Hev in HT.
      destruct T; [|discriminate]. cbn [app] in Heq. auto.
  - destruct T as [|x T]; cbn [app] in Heq.
    + exfalso. apply (HnotC (a :: pre) post). symmetry. exact Heq.
    + injection Heq as <- Heq. cbn [fatal_is_last] in HT.
      destruct (is_fatal a) eqn:Ea.
      * destruct T; [|discriminate]. cbn [app] in Heq.
        exfalso. apply (HnotC pre post). symmetry. exact Heq.
      * destruct (IH _ HT Heq) as (-> & ->). auto.
Qed.

Lemma fatal_last_prefix (pre : list Event) (ev : Event) :
  fatal_is_last (pre ++ [ev]) = true -> existsb is_fatal pre = false.
Proof.
  induction pre as [|a pre IH]; cbn [app fatal_is_last existsb]; [reflexivity|].
  destruct (is_fatal a); cbn [orb].
  - destruct pre; discriminate.
  - exact IH.
Qed.

(** X11: nothing follows a command that ends the run (one that is
    interrupted, or that fails and is not one of the three whose status the
    script ignores) but the EXIT trap: no later command of the stage, no
    later stage, no message. *)
Theorem run_fail_fast (e : Env) (w : World) (pre post : list Event) (ev : Event) :
  trace (snd (run_script e (boot w))) = (pre ++ ev :: post)%list ->
  is_fatal ev = true ->
  exists cevs, post = Enter fn_cleanup :: cevs /\ forallb is_reap cevs = true.
Proof.
  destruct (script e (boot w)) as [r s2] eqn:Hs.
  rewrite (run_script_eq _ _ _ _ Hs). cbn [fst snd].
  destruct (cleanup_trace e (trap_start s2)) as (_ & cevs & -> & Hr).
  destruct (reap_not_fatal _ Hr) as (Hcf & _ & _).
  destruct (script_outcome _ _ _ _ Hs) as (Hres & T & HT & Hlast & Hfat & Hint & _).
  unfold trap_start. st_simpl. rewrite HT. cbn [boot trace app].
  replace ((T ++ [Enter fn_cleanup]) ++ cevs)%list
    with (T ++ Enter fn_cleanup :: cevs)%list
    by (rewrite <- app_assoc; reflexivity).
  intros Heq Hev. symmetry in Heq.
  destruct (fatal_split _ _ _ _ _ Hlast Hcf Heq Hev) as (-> & ->).
  exists cevs; auto.
Qed.

Lemma run_fail_fast_witness :
  exists cevs,
    skipn 31 (trace (snd (run_script argocd_never_ready (boot bare))))
    = Enter fn_cleanup :: cevs /\ forallb is_reap cevs = true.
Proof.
  apply (run_fail_fast argocd_never_ready bare
           (firstn 30 (trace (snd (run_script argocd_never_ready (boot bare)))))
           (skipn 31 (trace (snd (run_script argocd_never_ready (boot bare)))))
           (Ran 12 kubectl_wait_argocd Fails)).
  - vm_compute. reflexivity.
  - reflexivity.
Defined.

(** ** What a run leaves on the machine *)

(** X2: whatever happens, a run leaves every cluster under another name
    than [CLUSTER_NAME] as it was. *)
Theorem run_keeps_other_clusters (e : Env) (w : World) :
  filter other_cluster (clusters (snd (run_script e (boot w))))
  = filter other_cluster (w_clusters w).
Proof.
  apply (run_preserves
           (fun s s' => filter other_cluster (clusters s')
                        = filter other_cluster (clusters s))).
  - reflexivity.
  - intros a b c Hab Hbc. congruence.
  - reflexivity.
  - reflexivity.
  - intros f e0 s r s' Hf Hrun.
    apply (invoke_machine _ _ _ _ _ Hf Hrun).
  - intros e0 s. destruct (cleanup_machine e0 s) as (-> & _). reflexivity.
Qed.

(** X4: a run that exits with status 0 leaves kubectl on the context of
    the cluster it created, [cluster_context], whatever the context was
    before: no stage after [create_cluster] and no part of the EXIT trap
    switches it. *)
Theorem run_kube_context (e : Env) (w : World) :
  fst (run_script e (boot w)) = 0 ->
  kube_context (snd (run_script e (boot w))) = Some cluster_context.
Proof.
  - destruct (script e (boot w)) as [r s2] eqn:Hs.
    rewrite (run_script_eq _ _ _ _ Hs). cbn [fst snd]. intros Hcode.
    destruct (cleanup_machine e (trap_start s2)) as (_ & ->).
    unfold trap_start. st_simpl.
    apply script_inv in Hs.
    destruct Hs as (done & rest & sm & Hsplit & Hc & Hend).
    destruct Hend as [(-> & -> & ->)|(f & rest' & _ & _ & Hab)].
    2:{ apply aborting_exit_status in Hab. contradiction. }
    rewrite app_nil_r in Hsplit. subst done. st_simpl.
    unfold stages in Hc.
    inversion Hc as [|? ? ? s1 ? H1 Hc1]; subst; clear Hc.
    inversion Hc1 as [|? ? ? s2 ? H2 Hc2]; subst; clear Hc1.
    assert (Hctx : kube_context s2 = Some cluster_context).
    { apply (invoke_machine fn_create_cluster _ _ _ _ ltac:(cbn; tauto) H2); reflexivity. }
    rewrite <- Hctx.
    apply (chain_rel (fun s s' => kube_context s' = kube_context s)
                     (fun f => In f stages /\ is_create_cluster f = false))
      with (e := e) (fs := [fn_install_ingress_nginx; fn_install_keda; fn_install_argocd;
                            fn_deploy_application; fn_display_info]).
    + reflexivity.
    + intros a b c Hab Hbc. congruence.
    + intros f e0 s r s' (Hf & Hnc) Hrun.
      apply (invoke_machine _ _ _ _ _ Hf Hrun). exact Hnc.
    + exact Hc2.
    + repeat constructor; cbn; tauto.
Qed.

Lemma run_kube_context_witness :
  kube_context (snd (run_script calm (boot bare))) = Some cluster_context.
Proof.
  apply (run_kube_context calm bare). vm_compute. reflexivity.
Defined.

(** ** The order of the stages *)

Lemma entered_app (a b : list Event) :
  entered (a ++ b) = (entered a ++ entered b)%list.
Proof. unfold entered. apply flat_map_app. Qed.

Lemma inner_not_entered (f : Fn) (evs : list Event) :
  forallb (inner f) evs = true -> entered evs = [].
Proof.
  induction evs as [|ev evs IH]; cbn [forallb entered flat_map]; [reflexivity|].
  intros H. apply andb_true_iff in H. destruct H as (H1 & H2).
  fold (entered evs). rewrite (IH H2).
  destruct ev; try reflexivity. discriminate.
Qed.

Lemma reap_not_entered (evs : list Event) :
  forallb is_reap evs = true -> entered evs = [].
Proof.
  induction evs as [|ev evs IH]; cbn [forallb entered flat_map]; [reflexivity|].
  intros H. apply andb_true_iff in H. destruct H as (H1 & H2).
  fold (entered evs). rewrite (IH H2).
  destruct ev; try reflexivity; discriminate.
Qed.

Lemma chain_entered (e : Env) (fs : list Fn) (s s' : St) :
  chain e fs s s' -> incl fs stages ->
  exists evs, trace s' = (trace s ++ evs)%list /\ entered evs = fs.
Proof.
  induction 1 as [s|f fs s s1 s' Hf _ IH]; intros Hincl.
  - exists []. rewrite app_nil_r. auto.
  - destruct (invoke_frame _ _ _ _ _ (Hincl f (or_introl eq_refl)) Hf)
      as (_ & (ev1 & H1 & Hi) & _ & _).
    destruct IH as (ev2 & H2 & He2).
    { intros g Hg. apply Hincl. right. exact Hg. }
    exists ((Enter f :: ev1) ++ ev2)%list. split.
    + rewrite H2, H1, <- app_assoc. reflexivity.
    + rewrite entered_app, He2. cbn [entered flat_map app].
      fold (entered ev1). rewrite (inner_not_entered _ _ Hi). reflexivity.
Qed.

(** X7: a run enters [main], then the stages one after the other in the
    order of [main] up to the one at which it stops, each once, then
    [cleanup]; a run that exits with status 0 has entered all seven. *)
Theorem run_stage_order (e : Env) (w : World) :
  exists k,
    k <= 7 /\
    entered (trace (snd (run_script e (boot w))))
    = (fn_main :: firstn k stages ++ [fn_cleanup])%list /\
    (fst (run_script e (boot w)) = 0 -> k = 7).
Proof.
  destruct (script e (boot w)) as [r s2] eqn:Hs.
  rewrite (run_script_eq _ _ _ _ Hs). cbn [fst snd].
  destruct (cleanup_trace e (trap_start s2)) as (_ & cevs & -> & Hr).
  unfold trap_start. st_simpl.
  apply script_inv in Hs.
  destruct Hs as (done & rest & sm & Hsplit & Hc & Hend).
  assert (Hincl : incl done stages).
  { rewrite Hsplit. intros g Hg. apply in_or_app. left. exact Hg. }
  destruct (chain_entered _ _ _ _ Hc Hincl) as (A & HA & HAe).
  assert (Htr0 : trace (main_start (boot w)) = prelude) by reflexivity.
  rewrite Htr0 in HA.
  assert (Hlen : List.length stages = 7) by reflexivity.
  destruct Hend as [(-> & -> & ->)|(f & rest' & -> & Hf & Hab)].
  - rewrite app_nil_r in Hsplit. subst done.
    exists 7. split; [lia|]. split; [|reflexivity].
    st_simpl. rewrite HA. rewrite !entered_app, HAe.
    rewrite (reap_not_entered _ Hr). reflexivity.
  - assert (Hin : In f stages)
      by (rewrite Hsplit; apply in_or_app; right; left; reflexivity).
    destruct (invoke_frame _ _ _ _ _ Hin Hf) as (_ & (evs & He & Hi) & _ & _).
    exists (S (List.length done)). split; [|split].
    + rewrite Hsplit, length_app in Hlen. cbn [List.length] in Hlen. lia.
    + rewrite He, HA. rewrite !entered_app, HAe.
      rewrite (reap_not_entered _ Hr). cbn [entered flat_map app].
      fold (entered evs). rewrite (inner_not_entered _ _ Hi).
      rewrite Hsplit.
      replace (done ++ f :: rest')%list with ((done ++ [f]) ++ rest')%list
        by (rewrite <- app_assoc; reflexivity).
      replace (S (List.length done)) with (List.length (done ++ [f]) + 0)
        by (rewrite length_app; cbn; lia).
      rewrite firstn_app_2. cbn [firstn]. rewrite !app_nil_r.
      change (entered prelude) with [fn_main]. cbn [app].
      repeat rewrite <- app_assoc. reflexivity.
    + intros Hcode. apply aborting_exit_status in Hab. contradiction.
Qed.

Lemma run_stage_order_witness :
  exists k,
    k <= 7 /\
    entered (trace (snd (run_script calm (boot bare))))
    = (fn_main :: firstn k stages ++ [fn_cleanup])%list /\
    k = 7.
Proof.
  destruct (run_stage_order calm bare) as (k & Hk & He & H7).
  exists k. split; [exact Hk|]. split; [exact He|].
  apply H7. vm_compute. reflexivity.
Defined.

(** ** The tunnel over a whole run *)

(** The GitOps stage either completes, having started the tunnel as a new
    process and recorded it, or stops before it started anything. *)
Lemma install_argocd_spawn (e : Env) (s s' : St) (r : Res) :
  invoke fn_install_argocd e s = (r, s') ->
  exists evs,
    trace s' = (trace s ++ Enter fn_install_argocd :: evs)%list /\
    ((r = Status 0 /\
      filter is_spawn evs = [Spawned (fresh_pid (procs s)) kubectl_port_forward_argocd] /\
      procs s' = fresh_pid (procs s) :: procs s /\
      pid_file s' = Some (PidText (fresh_pid (procs s)))) \/
     (r <> Status 0 /\ filter is_spawn evs = [] /\
      procs s' = procs s /\ pid_file s' = pid_file s)).
Proof.
  unfold invoke. cbn [body_of]. unfold install_argocd. intros Hrun.
  sh_inv.
  all: st_simpl; repeat rewrite <- app_assoc; cbn [app].
  all: eexists; split; [reflexivity|].
  all: first [ left; repeat split; reflexivity
             | right; repeat split; try reflexivity; discriminate ].
Qed.

Lemma inner_no_spawn (f : Fn) (evs : list Event) :
  is_argocd f = false -> forallb (inner f) evs = true -> filter is_spawn evs = [].
Proof.
  intros Hf. apply existsb_false_of.
  intros ev Hev. destruct ev; try reflexivity.
  cbn [inner] in Hev. congruence.
Qed.

Lemma invoke_quiet (f : Fn) (e : Env) (s s' : St) (r : Res) :
  In f stages -> is_argocd f = false ->
  invoke f e s = (r, s') ->
  (procs s' = procs s /\ pid_file s' = pid_file s) /\
  exists evs, trace s' = (trace s ++ evs)%list /\ filter is_spawn evs = [].
Proof.
  intros Hf Hna Hrun. split.
  - apply (invoke_machine _ _ _ _ _ Hf Hrun). exact Hna.
  - destruct (invoke_frame _ _ _ _ _ Hf Hrun) as (_ & (evs & He & Hi) & _ & _).
    exists (Enter f :: evs). split; [exact He|].
    cbn [filter is_spawn]. apply (inner_no_spawn f); assumption.
Qed.

Lemma chain_quiet (e : Env) (fs : list Fn) (s s' : St) :
  chain e fs s s' ->
  (forall f, In f fs -> In f stages /\ is_argocd f = false) ->
  (procs s' = procs s /\ pid_file s' = pid_file s) /\
  exists evs, trace s' = (trace s ++ evs)%list /\ filter is_spawn evs = [].
Proof.
  induction 1 as [s|f fs s s1 s' Hf _ IH]; intros Hok.
  - split; [auto|]. exists []. rewrite app_nil_r. auto.
  - destruct (Hok f (or_introl eq_refl)) as (Hin & Hna).
    destruct (invoke_quiet _ _ _ _ _ Hin Hna Hf) as ((Hp & Hpf) & ev1 & H1 & S1).
    destruct IH as ((Hp' & Hpf') & ev2 & H2 & S2).
    { intros g Hg. apply Hok. right. exact Hg. }
    split; [split; congruence|].
    exists (ev1 ++ ev2)%list. split.
    + rewrite H2, H1, app_assoc. reflexivity.
    + rewrite filter_app, S1, S2. reflexivity.
Qed.

Lemma plain_or_late_stage (f : Fn) :
  In f (early_stages ++ late_stages) -> In f stages /\ is_argocd f = false.
Proof.
  cbn. intros H.
  repeat (destruct H as [<-|H]; [cbn; tauto|]). contradiction.
Qed.

(** The script proper either started no tunnel and left the processes and
    the handle file alone, or started one tunnel, as a new process, and
    recorded it. *)
Lemma script_tunnel (e : Env) (s s2 : St) (r : Res) :
  script e s = (r, s2) ->
  exists T,
    trace s2 = (trace s ++ T)%list /\
    ((filter is_spawn T = [] /\ procs s2 = procs s /\ pid_file s2 = pid_file s) \/
     (filter is_spawn T = [Spawned (fresh_pid (procs s)) kubectl_port_forward_argocd] /\
      procs s2 = fresh_pid (procs s) :: procs s /\
      pid_file s2 = Some (PidText (fresh_pid (procs s))))).
Proof.
  intros Hs. apply script_inv in Hs.
  destruct Hs as (done & rest & sm & Hsplit & Hc & Hend).
  assert (Htr0 : trace (main_start s) = (trace s ++ prelude)%list).
  { unfold main_start, prelude. st_simpl. repeat rewrite <- app_assoc. reflexivity. }
  assert (Hp0 : procs (main_start s) = procs s /\ pid_file (main_start s) = pid_file s)
    by (split; reflexivity).
  destruct Hp0 as (Hp0 & Hpf0).
  change stages with (early_stages ++ fn_install_argocd :: late_stages)%list in Hsplit.
  destruct (split_at_stage _ _ _ _ _ Hsplit) as [(d2 & -> & Hlate)|(r1 & Hearly & ->)].
  - destruct (chain_app_inv _ _ _ _ _ Hc) as (s4 & Hc1 & Hc2).
    inversion Hc2 as [|? ? ? s5 ? Hg Hc3]; subst.
    destruct (chain_quiet _ _ _ _ Hc1) as ((Hp1 & Hpf1) & A & HA & SA).
    { intros f Hf. apply plain_or_late_stage. apply in_or_app. left. exact Hf. }
    destruct (install_argocd_spawn _ _ _ _ Hg) as (evs & He & [(_ & Sg & Hp5 & Hpf5)|(Hne & _)]);
      [|contradiction].
    destruct (chain_quiet _ _ _ _ Hc3) as ((Hp2 & Hpf2) & B & HB & SB).
    { intros f Hf. apply plain_or_late_stage. apply in_or_app. right.
      rewrite Hlate. apply in_or_app. left. exact Hf. }
    assert (Hend' : (procs s2 = procs sm /\ pid_file s2 = pid_file sm) /\
                    exists L, trace s2 = (trace sm ++ L)%list /\ filter is_spawn L = []).
    { destruct Hend as [(-> & -> & ->)|(f & rest' & -> & Hf & _)].
      - split; [split; reflexivity|]. exists [Log SUCCESS main_done]. auto.
      - assert (Hin : In f (early_stages ++ late_stages)).
        { apply in_or_app. right. rewrite Hlate. apply in_or_app. right. left. reflexivity. }
        destruct (plain_or_late_stage _ Hin) as (Hin' & Hna).
        apply (invoke_quiet _ _ _ _ _ Hin' Hna Hf). }
    destruct Hend' as ((Hp3 & Hpf3) & L & HL & SL).
    exists (prelude ++ A ++ (Enter fn_install_argocd :: evs) ++ B ++ L)%list. split.
    + rewrite HL, HB, He, HA, Htr0. repeat rewrite <- app_assoc. reflexivity.
    + right. rewrite !filter_app, SA, SB, SL. cbn [filter is_spawn prelude app].
      rewrite Sg. rewrite Hp3, Hp2, Hp5, Hp1, Hp0, Hpf3, Hpf2, Hpf5, ?Hp1, ?Hp0. auto.
  - destruct (chain_quiet _ _ _ _ Hc) as ((Hp1 & Hpf1) & A & HA & SA).
    { intros f Hf. apply plain_or_late_stage. apply in_or_app. left.
      rewrite Hearly. apply in_or_app. left. exact Hf. }
    destruct Hend as [(Hnil & _)|(f & rest' & Hrest & Hf & Hab)].
    { destruct r1; discriminate. }
    assert (Hend' : exists L, trace s2 = (trace sm ++ L)%list /\ filter is_spawn L = [] /\
                              procs s2 = procs sm /\ pid_file s2 = pid_file sm).
    { destruct r1 as [|f1 r1]; cbn [app] in Hrest; injection Hrest as <- <-.
      - destruct (install_argocd_spawn _ _ _ _ Hf) as (evs & He & [(-> & _)|(_ & Sg & Hp & Hpf)]);
          [contradiction|].
        exists (Enter fn_install_argocd :: evs). auto.
      - assert (Hin : In f1 (early_stages ++ late_stages)).
        { apply in_or_app. left. rewrite Hearly. apply in_or_app. right. left. reflexivity. }
        destruct (plain_or_late_stage _ Hin) as (Hin' & Hna).
        destruct (invoke_quiet _ _ _ _ _ Hin' Hna Hf) as ((Hp & Hpf) & L & HL & SL).
        exists L. auto. }
    destruct Hend' as (L & HL & SL & Hp2 & Hpf2).
    exists (prelude ++ A ++ L)%list. split.
    + rewrite HL, HA, Htr0. repeat rewrite <- app_assoc. reflexivity.
    + left. rewrite !filter_app, SA, SL. cbn [filter is_spawn prelude app].
      rewrite Hp2, Hp1, Hp0, Hpf2, Hpf1, Hpf0. auto.
Qed.

Lemma alive_other_after_kill (p q : nat) (l : list nat) :
  q <> p ->
  existsb (Nat.eqb q) (filter (fun x => negb (Nat.eqb p x)) l) = existsb (Nat.eqb q) l.
Proof.
  intros Hqp. induction l as [|x l IH]; cbn [filter existsb]; [reflexivity|].
  destruct (Nat.eqb_spec p x) as [<-|Hpx]; cbn [negb existsb].
  - rewrite IH. destruct (Nat.eqb_spec q p); [contradiction|reflexivity].
  - rewrite IH. reflexivity.
Qed.

(** The EXIT trap when the handle file names a running process. *)
Lemma trap_kills (e : Env) (s2 : St) (p : nat) :
  pid_file s2 = Some (PidText p) ->
  alive s2 p = true ->
  snd (cleanup e (trap_start s2))
  = emit (Removed pid_file_path)
      (set_pid_file None
         (emit (Killed p)
            (set_procs (filter (fun q => negb (Nat.eqb p q)) (procs s2))
               (set_PID (PidText p) (trap_start s2))))).
Proof.
  intros Hpf Hal. rewrite cleanup_cases.
  change (pid_file (trap_start s2)) with (pid_file s2). rewrite Hpf.
  change (alive (trap_start s2) p) with (alive s2 p). rewrite Hal. reflexivity.
Qed.

Lemma trap_spawns_nothing (e : Env) (s2 : St) :
  filter is_spawn (trace (snd (cleanup e (trap_start s2))))
  = filter is_spawn (trace s2).
Proof.
  destruct (cleanup_trace e (trap_start s2)) as (_ & cevs & -> & Hr).
  unfold trap_start. st_simpl. rewrite !filter_app. cbn [filter is_spawn app].
  rewrite (existsb_false_of is_reap is_spawn _
             ltac:(intros [] Hev; try discriminate; reflexivity) Hr).
  rewrite !app_nil_r. reflexivity.
Qed.

(** X8: a tunnel that a run started is stopped by the same run.  Whatever
    ends the run, the successful end included, the process is sent the
    termination signal and is no longer running when the script is gone, the
    handle file is removed, and the run has signalled no other process: one
    that was running before is still running, also when an earlier handle
    file named it.  (Here a process ends only when it is signalled, and a
    signal reaches the script only while an external command runs.) *)
Theorem run_stops_own_tunnel (e : Env) (w : World) (p : nat) (c : Cmd) :
  In (Spawned p c) (trace (snd (run_script e (boot w)))) ->
  alive (snd (run_script e (boot w))) p = false /\
  pid_file (snd (run_script e (boot w))) = None /\
  In (Killed p) (trace (snd (run_script e (boot w)))) /\
  (forall q, q <> p ->
     alive (snd (run_script e (boot w))) q = alive (boot w) q).
Proof.
  destruct (script e (boot w)) as [r s2] eqn:Hs.
  rewrite (run_script_eq _ _ _ _ Hs). cbn [snd].
  destruct (script_tunnel _ _ _ _ Hs) as (T & HT & Hcase).
  intros Hin.
  assert (HinT : In (Spawned p c) (filter is_spawn T)).
  { assert (H : In (Spawned p c)
                  (filter is_spawn (trace (snd (cleanup e (trap_start s2)))))).
    { apply filter_In. split; [exact Hin|reflexivity]. }
    rewrite trap_spawns_nothing, HT in H. exact H. }
  destruct Hcase as [(ST & Hp & Hpf)|(ST & Hp & Hpf)].
  - rewrite ST in HinT. contradiction.
  - rewrite ST in HinT. destruct HinT as [Hpc|[]]. injection Hpc as <- <-.
    rewrite (trap_kills e s2 (fresh_pid (procs (boot w))) Hpf).
    2:{ unfold alive. rewrite Hp. cbn [existsb]. rewrite Nat.eqb_refl. reflexivity. }
    split; [|split; [reflexivity|split]].
    + unfold alive. st_simpl. apply alive_after_kill.
    + st_simpl. apply in_or_app. left. apply in_or_app. right. left. reflexivity.
    + intros q Hq. unfold alive. st_simpl. rewrite Hp.
      rewrite alive_other_after_kill by exact Hq.
      cbn [existsb]. destruct (Nat.eqb_spec q (fresh_pid (procs (boot w)))); [contradiction|].
      reflexivity.
Qed.

Lemma run_stops_own_tunnel_witness :
  alive (snd (run_script calm (boot tunnel_up))) 8 = false /\
  pid_file (snd (run_script calm (boot tunnel_up))) = None /\
  In (Killed 8) (trace (snd (run_script calm (boot tunnel_up)))) /\
  (forall q, q <> 8 ->
     alive (snd (run_script calm (boot tunnel_up))) q = alive (boot tunnel_up) q).
Proof.
  apply (run_stops_own_tunnel calm tunnel_up 8 kubectl_port_forward_argocd).
  in_trace.
Defined.



(** ** The cluster stage on other machines *)

(** X1: when no cluster name contains [CLUSTER_NAME] and the cluster stage
    completes, nothing was deleted: the stage issued the listing, the creation
    and the context switch, the existing clusters are kept in their order, the
    new one comes last, and the context is [cluster_context]. *)
Theorem create_cluster_fresh (e : Env) (s s' : St) :
  existsb (fun c => contains CLUSTER_NAME (fst c)) (clusters s) = false ->
  call fn_create_cluster create_cluster e s = (Status 0, s') ->
  clusters s' = (clusters s ++ [(CLUSTER_NAME, 2 + clock s)])%list /\
  kube_context s' = Some cluster_context /\
  exists o,
    trace s' = (trace s ++
                [Enter fn_create_cluster;
                 Log INFO ("Creating k3d cluster: " ++ CLUSTER_NAME ++ "...");
                 Ran (clock s) K3dClusterList o;
                 Ran (1 + clock s) k3d_create_cmd Succeeds;
                 Ran (2 + clock s) (KubectlConfigUseContext cluster_context) Succeeds;
                 Log SUCCESS ("k3d cluster " ++ CLUSTER_NAME ++ " created successfully")])%list.
Proof.
  intros Hnone Hrun. unfold create_cluster in Hrun.
  sh_inv.
  all: try congruence.
  all: st_simpl; repeat rewrite <- app_assoc; cbn [app].
  all: split; [reflexivity|]; split; [reflexivity|]; eexists; reflexivity.
Qed.

Lemma create_cluster_fresh_witness :
  clusters (snd (call fn_create_cluster create_cluster calm (boot bare)))
  = [(CLUSTER_NAME, 2)].
Proof.
  apply (create_cluster_fresh calm (boot bare)
           (snd (call fn_create_cluster create_cluster calm (boot bare)))).
  - reflexivity.
  - vm_compute. reflexivity.
Defined.

(** X3: the existence test is a substring match.  Whenever the listing
    succeeds and some cluster name contains [CLUSTER_NAME], be it a longer
    name, the stage warns and issues [k3d cluster delete] for
    [CLUSTER_NAME]. *)
Theorem create_cluster_deletes_on_partial_match (e : Env) (s s' : St) (r : Res) :
  existsb (fun c => contains CLUSTER_NAME (fst c)) (clusters s) = true ->
  oracle e (clock s) K3dClusterList = Succeeds ->
  call fn_create_cluster create_cluster e s = (r, s') ->
  exists o evs,
    trace s' = (trace s ++
                [Enter fn_create_cluster;
                 Log INFO ("Creating k3d cluster: " ++ CLUSTER_NAME ++ "...");
                 Ran (clock s) K3dClusterList Succeeds;
                 Log WARNING cluster_exists_warning;
                 Ran (1 + clock s) (K3dClusterDelete CLUSTER_NAME) o] ++ evs)%list.
Proof.
  intros Hsome Hlist Hrun. unfold create_cluster in Hrun.
  sh_inv.
  all: try congruence.
  all: try match goal with
           | H : oracle _ _ K3dClusterList = Succeeds -> _ |- _ =>
               specialize (H Hlist); congruence
           end.
  all: st_simpl; repeat rewrite <- app_assoc; cbn [app].
  all: do 2 eexists; reflexivity.
Qed.

Lemma create_cluster_deletes_on_partial_match_witness :
  exists o evs,
    trace (snd (call fn_create_cluster create_cluster calm (boot longer_name)))
    = ([] ++
       [Enter fn_create_cluster;
        Log INFO ("Creating k3d cluster: " ++ CLUSTER_NAME ++ "...");
        Ran 5 K3dClusterList Succeeds;
        Log WARNING cluster_exists_warning;
        Ran 6 (K3dClusterDelete CLUSTER_NAME) o] ++ evs)%list.
Proof.
  apply (create_cluster_deletes_on_partial_match calm (boot longer_name)
           (snd (call fn_create_cluster create_cluster calm (boot longer_name)))
           (fst (call fn_create_cluster create_cluster calm (boot longer_name)))).
  - reflexivity.
  - reflexivity.
  - vm_compute. reflexivity.
Defined.

(** ** The deploy stage without its manifest *)

Lemma deploy_without_manifest (e : Env) (s s' : St) (r : Res) :
  other_files e app_manifest = false ->
  invoke fn_deploy_application e s = (r, s') ->
  r <> Status 0 /\
  exists evs,
    trace s' = (trace s ++ Enter fn_deploy_application :: evs)%list /\
    existsb is_app_submitted evs = false.
Proof.
  intros Hno. unfold invoke. cbn [body_of]. unfold deploy_application. intros Hrun.
  sh_inv.
  all: try match goal with
           | H : file_exists _ _ app_manifest = true |- _ =>
               unfold file_exists in H; cbn [String.eqb] in H;
               change (String.eqb app_manifest pid_file_path) with false in H;
               cbn iota in H; congruence
           end.
  all: st_simpl; repeat rewrite <- app_assoc; cbn [app].
  all: (split; [discriminate|]).
  all: eexists; split; reflexivity.
Qed.

Lemma before_deploy_not_submitted (ev : Event) :
  stage_event (early_stages ++ [fn_install_argocd]) ev = true ->
  is_app_submitted ev = false.
Proof. event_cases ev. Qed.

Lemma after_deploy_not_submitted (ev : Event) :
  tail_event [fn_display_info] ev = true -> is_app_submitted ev = false.
Proof. event_cases ev. Qed.

(** X5: without the manifest at [deploy/argocd/app.yaml] no run exits with
    status 0, and no run submits the application. *)
Theorem run_without_manifest (e : Env) (w : World) :
  other_files e app_manifest = false ->
  fst (run_script e (boot w)) <> 0 /\
  existsb is_app_submitted (trace (snd (run_script e (boot w)))) = false.
Proof.
  intros Hno.
  destruct (script e (boot w)) as [r s2] eqn:Hs.
  rewrite (run_script_eq _ _ _ _ Hs). cbn [fst snd].
  destruct (cleanup_trace e (trap_start s2)) as (_ & cevs & -> & Hr).
  unfold trap_start. st_simpl.
  assert (Hc : existsb is_app_submitted (Enter fn_cleanup :: cevs) = false).
  { cbn [existsb is_app_submitted orb].
    apply (forallb_none is_reap); [|exact Hr]. intros [] Hev; try discriminate; reflexivity. }
  destruct (script_pivot _ _ _ _ (early_stages ++ [fn_install_argocd]) [fn_display_info]
              fn_deploy_application eq_refl Hs) as (_ & A & B & HA & HB & Hcase).
  assert (HA' : existsb is_app_submitted (prelude ++ A) = false).
  { rewrite existsb_app. cbn [prelude existsb is_app_submitted orb].
    apply (forallb_none (stage_event (early_stages ++ [fn_install_argocd]))); [|exact HA].
    exact before_deploy_not_submitted. }
  destruct Hcase as [(Ht & Hab & ->)|(s4 & r5 & s5 & evs & Hg & Hi & Ht4 & Ht5 & Ht2 & Hr5)].
  - split; [apply aborting_exit_status; exact Hab|].
    rewrite Ht. cbn [boot trace app].
    replace (((prelude ++ A) ++ [Enter fn_cleanup]) ++ cevs)%list
      with ((prelude ++ A) ++ Enter fn_cleanup :: cevs)%list
      by (repeat rewrite <- app_assoc; reflexivity).
    rewrite existsb_app, HA', Hc. reflexivity.
  - destruct (deploy_without_manifest _ _ _ _ Hno Hg) as (Hne & evs' & Ht5' & Hsub).
    rewrite Ht5 in Ht5'. apply app_inv_head in Ht5'. injection Ht5' as <-.
    destruct Hr5 as [->|(-> & Hab & ->)]; [contradiction|].
    split; [apply aborting_exit_status; exact Hab|].
    rewrite Ht2, Ht5, Ht4. cbn [boot trace app].
    replace (((((prelude ++ A) ++ Enter fn_deploy_application :: evs) ++ [])
                ++ [Enter fn_cleanup]) ++ cevs)%list
      with ((prelude ++ A) ++ (Enter fn_deploy_application :: evs)
              ++ Enter fn_cleanup :: cevs)%list
      by (rewrite app_nil_r; repeat rewrite <- app_assoc; reflexivity).
    rewrite existsb_app, HA'. rewrite existsb_app, Hc.
    cbn [existsb is_app_submitted orb]. rewrite Hsub. reflexivity.
Qed.

Lemma run_without_manifest_witness :
  fst (run_script no_manifest (boot bare)) <> 0 /\
  existsb is_app_submitted (trace (snd (run_script no_manifest (boot bare)))) = false.
Proof.
  apply (run_without_manifest no_manifest bare). reflexivity.
Defined.

(** ** The credential in the log *)

(** X10: the GitOps stage prints what it read.  Whenever the stage has read
    the secret without being interrupted, it goes on to the end, and the line
    "ArgoCD admin password: ..." with the value read (empty when the secret
    could not be read) is in the trace, in clear. *)
Theorem install_argocd_logs_password (e : Env) (s s' : St) (r : Res)
        (tm : nat) (o : Outcome) :
  invoke fn_install_argocd e s = (r, s') ->
  In (Ran tm kubectl_get_admin_secret o) (trace s') ->
  ~ In (Ran tm kubectl_get_admin_secret o) (trace s) ->
  o <> Interrupted ->
  r = Status 0 /\
  ARGOCD_PASSWORD s' = secret_read e tm /\
  In (Log INFO ("ArgoCD admin password: " ++ secret_read e tm)) (trace s').
Proof.
  unfold invoke. cbn [body_of]. unfold install_argocd. intros Hrun Hin Hnew Hni.
  sh_inv.
  all: st_simpl; repeat rewrite <- app_assoc in Hin; cbn [app] in Hin.
  all: apply in_app_or in Hin; destruct Hin as [Hin|Hin]; [contradiction|].
  all: unfold kubectl_get_admin_secret, kubectl_apply_argocd, kubectl_wait_argocd,
         kubectl_port_forward_argocd in Hin; cbn [In] in Hin.
  all: repeat (destruct Hin as [Hin|Hin]; try discriminate); try contradiction.
  all: injection Hin as <- <-.
  all: try (exfalso; apply Hni; reflexivity).
  all: split; [reflexivity|]; split; [reflexivity|].
  all: repeat rewrite <- app_assoc; cbn [app]; apply in_or_app; right.
  all: cbn [In]; repeat (first [left; reflexivity | right]).
Qed.

Lemma install_argocd_logs_password_witness :
  ARGOCD_PASSWORD (snd (invoke fn_install_argocd calm (boot bare))) = "s3cr3t" /\
  In (Log INFO "ArgoCD admin password: s3cr3t")
     (trace (snd (invoke fn_install_argocd calm (boot bare)))).
Proof.
  destruct (install_argocd_logs_password calm (boot bare)
              (snd (invoke fn_install_argocd calm (boot bare)))
              (fst (invoke fn_install_argocd calm (boot bare))) 4 Succeeds)
    as (_ & Hpw & Hlog).
  - vm_compute. reflexivity.
  - in_trace.
  - intros [].
  - discriminate.
  - split; [exact Hpw|exact Hlog].
Defined.

(** * Further properties of the environment validator *)

Section EnvValidationFurther.

Import EnvValidation.

Variable isURL : bool -> string -> bool.

Lemma get_put_other (o : Obj) (k k' : string) (v : Value) :
  k <> k' -> get (put o k' v) k = get o k.
Proof.
  intros Hne. induction o as [|[k0 v0] o IH]; cbn [put get].
  - destruct (String.eqb_spec k k'); [contradiction|reflexivity].
  - destruct (String.eqb_spec k' k0) as [->|Hne0]; cbn [get].
    + destruct (String.eqb_spec k k0); [contradiction|reflexivity].
    + destruct (String.eqb k k0); [reflexivity|exact IH].
Qed.

(** class-transformer sets the properties of the input, and no other. *)
Lemma plainToClass_absent (config : Schema) (plain : Obj)
      (options : ClassTransformOptions) (k : string) :
  ~ In k (keys plain) ->
  get (plainToClass config plain options) k = get (construct config) k.
Proof.
  unfold plainToClass. generalize (construct config) as inst.
  induction plain as [|[k' v'] plain IH]; cbn [fold_left keys map fst snd];
    intros inst Hk; [reflexivity|].
  rewrite IH.
  - destruct (passed_over inst k'); [reflexivity|].
    apply get_put_other. intros ->. apply Hk. left. reflexivity.
  - intros H. apply Hk. right. exact H.
Qed.

(** X12: defaults are kept.  A configuration that is returned holds, for
    every property that the input does not mention, what the constructor of
    the class gave it: the initializer of the property ([3000] for [PORT]),
    and [undefined] where there is none. *)
Theorem validateEnvironment_defaults (config : Schema) (envVars validated : Obj)
        (k : string) :
  validateEnvironment isURL config envVars = inr validated ->
  ~ In k (keys envVars) ->
  get validated k = get (construct config) k.
Proof.
  intros Hok Hk.
  assert (Hval : validated = plainToClass config envVars (mkTransformOptions true)).
  { unfold validateEnvironment in Hok.
    destruct (Nat.ltb 0 _) in Hok; [discriminate|]. injection Hok as <-. reflexivity. }
  rewrite Hval. apply plainToClass_absent. exact Hk.
Qed.

Lemma check_rejects_undefined (k : string) (d : Decorator) :
  is_optional d = false -> check isURL k d VUndefined <> None.
Proof. destruct d; cbn; intros H; discriminate. Qed.

Lemma get_absent (o : Obj) (k : string) : ~ In k (keys o) -> get o k = VUndefined.
Proof.
  induction o as [|[k' v'] o IH]; cbn [get keys map fst]; [reflexivity|].
  intros H. destruct (String.eqb_spec k k') as [->|_].
  - exfalso. apply H. left. reflexivity.
  - apply IH. intros Hk. apply H. right. exact Hk.
Qed.

Lemma flat_map_nonempty {A B : Type} (f : A -> list B) (l : list A) (x : A) :
  In x l -> f x <> [] -> 0 < List.length (flat_map f l).
Proof.
  intros Hin Hx. induction l as [|y l IH]; [contradiction|].
  cbn [flat_map]. rewrite length_app. destruct Hin as [->|Hin].
  - destruct (f x); [contradiction|cbn; lia].
  - specialize (IH Hin). lia.
Qed.

(** X13: a required property that is missing makes [validateEnvironment]
    throw.  When the class puts decorators on a property, none of them
    [IsOptional], gives it no initializer, and the input has no such key, no
    configuration is returned. *)
Theorem validateEnvironment_missing_required (config : Schema) (envVars : Obj)
        (p : Property) :
  In p config ->
  decorators p <> [] ->
  existsb is_optional (decorators p) = false ->
  ~ In (prop_name p) (keys (construct config)) ->
  ~ In (prop_name p) (keys envVars) ->
  exists message, validateEnvironment isURL config envVars = inl message.
Proof.
  intros Hp Hdec Hopt Hinit Hkey. unfold validateEnvironment.
  set (validatedConfig := plainToClass config envVars (mkTransformOptions true)).
  assert (Hget : get validatedConfig (prop_name p) = VUndefined).
  { unfold validatedConfig. rewrite (plainToClass_absent _ _ _ _ Hkey).
    apply get_absent. exact Hinit. }
  assert (Herr : validate_property isURL (mkValidatorOptions false true true)
                   validatedConfig p <> []).
  { unfold validate_property. rewrite Hget. cbn [is_missing skipMissingProperties orb andb].
    rewrite Hopt. cbn [andb].
    destruct (decorators p) as [|d ds]; [contradiction|].
    cbn [existsb] in Hopt. apply orb_false_iff in Hopt. destruct Hopt as (Hd & _).
    cbn [flat_map]. pose proof (check_rejects_undefined (prop_name p) d Hd) as Hc.
    destruct (check isURL (prop_name p) d VUndefined); [|contradiction].
    cbn [app]. discriminate. }
  assert (Hlen : Nat.ltb 0 (List.length
                   (validateSync isURL config validatedConfig
                      (mkValidatorOptions false true true))) = true).
  { apply Nat.ltb_lt. unfold validateSync. rewrite length_app.
    assert (0 < List.length (flat_map (validate_property isURL
                   (mkValidatorOptions false true true) validatedConfig) config)).
    { apply (flat_map_nonempty _ _ p Hp Herr). }
    lia. }
  rewrite Hlen. eexists. reflexivity.
Qed.

(** X14: the default validator rejects the environment of an ordinary
    process.  Called without an argument, [validateBaseEnvironment] validates
    [process.env], and throws as soon as that holds one variable besides the
    five that [BaseEnvironmentConfig] declares ([PATH], say) whose name is
    not one of those that [plainToClass] passes over. *)
Theorem validateBaseEnvironment_default (process_env : Obj) (k : string) :
  In k (keys process_env) ->
  ~ In k ["NODE_ENV"; "PORT"; "LOG_LEVEL"; "SERVICE_NAME"; "SERVICE_VERSION"] ->
  reserved_name k = false ->
  exists message, validateBaseEnvironment isURL process_env None = inl message.
Proof.
  intros Hk Hundecl Hres. unfold validateBaseEnvironment, createEnvironmentValidator.
  apply (undeclared_key_throws isURL _ _ k Hk Hres).
  apply undeclared_not_whitelisted. exact Hundecl.
Qed.

(** X15: the complete validator does not take the variables of the
    database, Redis and JWT classes.  [EnvironmentConfig] declares the
    properties [database], [redis] and [jwt], not the names those classes
    declare, so an input that holds one of them, [DATABASE_URL] or
    [JWT_SECRET] for instance, makes [validateCompleteEnvironment] throw. *)
Theorem validateCompleteEnvironment_flat_names (process_env envVars : Obj) (k : string) :
  In k flat_names ->
  In k (keys envVars) ->
  exists message,
    validateCompleteEnvironment isURL process_env (Some envVars) = inl message.
Proof.
  intros Hflat Hk. unfold validateCompleteEnvironment, createEnvironmentValidator.
  cbn in Hflat.
  apply (undeclared_key_throws isURL _ _ k Hk).
  - repeat (destruct Hflat as [<-|Hflat]; [reflexivity|]). contradiction.
  - apply undeclared_not_whitelisted. cbn.
    repeat (destruct Hflat as [<-|Hflat];
            [intros H; repeat (destruct H as [H|H]; [discriminate|]); exact H|]).
    contradiction.
Qed.

End EnvValidationFurther.

Lemma validateEnvironment_defaults_witness :
  EnvValidation.get
    [("NODE_ENV", EnvValidation.VString "development");
     ("PORT", EnvValidation.VNumber 3000);
     ("LOG_LEVEL", EnvValidation.VString "debug")] "PORT"
  = EnvValidation.VNumber 3000.
Proof.
  apply (validateEnvironment_defaults any_url EnvValidation.BaseEnvironmentConfig
           [("LOG_LEVEL", EnvValidation.VString "debug")] _ "PORT").
  - vm_compute. reflexivity.
  - cbn. intros [H|H]; [discriminate|exact H].
Defined.

Lemma validateEnvironment_missing_required_witness :
  exists message,
    EnvValidation.validateEnvironment any_url EnvValidation.JwtConfig [] = inl message.
Proof.
  apply (validateEnvironment_missing_required any_url EnvValidation.JwtConfig []
           (EnvValidation.mkProperty "JWT_SECRET" [EnvValidation.IsString]
              (fun v => v) None)).
  - left. reflexivity.
  - discriminate.
  - reflexivity.
  - cbn. intros H. repeat (destruct H as [H|H]; [discriminate|]). exact H.
  - intros [].
Defined.

Lemma validateBaseEnvironment_default_witness :
  exists message,
    EnvValidation.validateBaseEnvironment any_url shell_env None = inl message.
Proof.
  apply (validateBaseEnvironment_default any_url shell_env "PATH").
  - left. reflexivity.
  - cbn. intros H. repeat (destruct H as [H|H]; [discriminate|]). exact H.
  - reflexivity.
Defined.

Lemma validateCompleteEnvironment_flat_names_witness :
  exists message,
    EnvValidation.validateCompleteEnvironment any_url shell_env
      (Some [("JWT_SECRET", EnvValidation.VString "k")]) = inl message.
Proof.
  apply (validateCompleteEnvironment_flat_names any_url shell_env
           [("JWT_SECRET", EnvValidation.VString "k")] "JWT_SECRET").
  - vm_compute. tauto.
  - left. reflexivity.
Defined.
